(** * JobAI: resume analysis and job matching

    A shallow embedding of the resume pipeline of the JobAI backend:

    - [services/resumeProcessor.js]: text extraction, [cleanText], the
      keyword scan [extractSkills] with [calculateSkillConfidence];
    - [services/aiService.js]: [analyzeResume] with its fallback analysis;
    - [models/Resume.js]: [calculateJobMatch] and [generateRelevanceReasons];
    - [routes/resumes.js]: the upload handler and [processResumeAsync];
    - further on, the line scans of the resume processor, job matching
      by the service, [models/Application.js] with the application routes
      of [routes/jobs.js], and the life of a stored resume.

    JavaScript values are modelled as the code has them: a Number is an
    IEEE 754 binary64 value (Rocq's primitive [float]), a String is a
    sequence of code units, an object is an ordered list of named members,
    and a call that may throw returns an [outcome]. *)

From Stdlib Require Import ZArith List String Ascii Bool Lia DecimalString.
From Stdlib Require Import Floats.
Import ListNotations.

(* A decimal literal denotes the nearest binary64 value, as it does in
   JavaScript source text. *)
Set Warnings "-inexact-float,-register-all".

(** ** Numbers *)

Module JSNumber.

Open Scope float_scope.

(** An integer as a Number (correctly rounded; exact below 2^53). *)
Definition of_Z (z : Z) : float :=
  SF2Prim (binary_normalize prec emax z 0 false).

Definition of_nat (n : nat) : float := of_Z (Z.of_nat n).

(** [Math.min(x, y)]: NaN when either argument is NaN, and -0 below +0. *)
Definition Math_min (x y : float) : float :=
  if is_nan x || is_nan y then nan
  else if x <? y then x
  else if y <? x then y
  else if get_sign x then x else y.

(** [Math.max(x, y)]: NaN when either argument is NaN, and +0 above -0. *)
Definition Math_max (x y : float) : float :=
  if is_nan x || is_nan y then nan
  else if x <? y then y
  else if y <? x then x
  else if get_sign x then y else x.

(** [Math.round(x)]: the integer nearest to [x], ties towards +infinity;
    NaN, the zeros and the infinities are returned as they are, and a
    negative [x] that rounds to zero gives -0. *)
Definition Math_round (x : float) : float :=
  match Prim2SF x with
  | S754_finite s m e =>
      if (0 <=? e)%Z then x
      else
        let k := (2 ^ (- e))%Z in
        let v := if s then Z.neg m else Z.pos m in
        let q := ((2 * v + k) / (2 * k))%Z in
        if (q =? 0)%Z then (if s then neg_zero else zero) else of_Z q
  | _ => x
  end.

(** ToBoolean on a Number: false for NaN and the zeros. *)
Definition truthy (x : float) : bool := negb (is_nan x || is_zero x).

(** [x || d] on Numbers. *)
Definition or_default (x d : float) : float := if truthy x then x else d.

(** The float is a real number that is not below zero (so not NaN). *)
Definition nonneg (x : float) : Prop := (0 <=? x) = true.

(** *** Signs under rounding *)

Definition SFnonneg (x : spec_float) : bool :=
  match x with
  | S754_zero _ => true
  | S754_infinity s => negb s
  | S754_nan => false
  | S754_finite s _ _ => negb s
  end.

Lemma nonneg_SF (x : float) : nonneg x <-> SFnonneg (Prim2SF x) = true.
Proof.
  unfold nonneg. rewrite leb_spec.
  change (Prim2SF 0) with (S754_zero false).
  destruct (Prim2SF x) as [s|s| |s m e]; cbn; try tauto; destruct s; cbn;
    intuition congruence.
Qed.

Lemma shr_1_nonneg (r : shr_record) :
  (0 <= shr_m r)%Z -> (0 <= shr_m (shr_1 r))%Z.
Proof.
  destruct r as [m r s]. cbn.
  destruct m as [|p|p]; [cbn; lia| |lia].
  destruct p; cbn; lia.
Qed.

Lemma iter_pos_shr_1_nonneg (p : positive) (r : shr_record) :
  (0 <= shr_m r)%Z -> (0 <= shr_m (iter_pos shr_1 p r))%Z.
Proof.
  revert r. induction p as [p IH|p IH|]; intros r Hr; cbn.
  - apply IH, IH, shr_1_nonneg, Hr.
  - apply IH, IH, Hr.
  - apply shr_1_nonneg, Hr.
Qed.

Lemma shr_fexp_nonneg (m e : Z) (l : location) :
  (0 <= m)%Z -> (0 <= shr_m (fst (shr_fexp prec emax m e l)))%Z.
Proof.
  intro Hm. unfold shr_fexp, shr.
  assert (H0 : (0 <= shr_m (shr_record_of_loc m l))%Z).
  { destruct l as [|[| |]]; cbn; exact Hm. }
  destruct (fexp prec emax (Zdigits2 m + e) - e)%Z; cbn [fst]; auto.
  apply iter_pos_shr_1_nonneg, H0.
Qed.

Lemma round_nearest_even_nonneg (m : Z) (l : location) :
  (0 <= m)%Z -> (0 <= round_nearest_even m l)%Z.
Proof.
  intro Hm. destruct l as [|[| |]]; cbn; try lia.
  destruct (Z.even m); lia.
Qed.

Lemma binary_round_aux_nonneg (m e : Z) (l : location) :
  (0 <= m)%Z -> SFnonneg (binary_round_aux prec emax false m e l) = true.
Proof.
  intro Hm. unfold binary_round_aux.
  pose proof (shr_fexp_nonneg m e l Hm) as H1.
  destruct (shr_fexp prec emax m e l) as [mrs' e'] eqn:E1. cbn [fst] in H1.
  pose proof (shr_fexp_nonneg
                (round_nearest_even (shr_m mrs') (loc_of_shr_record mrs'))
                e' loc_Exact
                (round_nearest_even_nonneg _ _ H1)) as H2.
  destruct (shr_fexp prec emax _ e' loc_Exact) as [mrs'' e''] eqn:E2.
  cbn [fst] in H2.
  destruct (shr_m mrs'') as [|p|p]; [reflexivity| |lia].
  destruct (e'' <=? emax - prec)%Z; reflexivity.
Qed.

Lemma binary_round_nonneg (m : positive) (e : Z) :
  SFnonneg (binary_round prec emax false m e) = true.
Proof.
  unfold binary_round.
  destruct (shl_align m e _) as [mz ez].
  apply binary_round_aux_nonneg. lia.
Qed.

Lemma binary_normalize_nonneg (z e : Z) :
  (0 <= z)%Z -> SFnonneg (binary_normalize prec emax z e false) = true.
Proof.
  intro Hz. destruct z as [|p|p]; cbn; [reflexivity| |lia].
  apply binary_round_nonneg.
Qed.

Lemma SF64add_nonneg (x y : spec_float) :
  SFnonneg x = true -> SFnonneg y = true -> SFnonneg (SF64add x y) = true.
Proof.
  destruct x as [sx|sx| |sx mx ex]; destruct y as [sy|sy| |sy my ey];
    try destruct sx; try destruct sy; cbn; try discriminate;
    try reflexivity.
  intros _ _. apply binary_round_nonneg.
Qed.

Lemma SF64mul_finite_nonneg (x : spec_float) (m : positive) (e : Z) :
  SFnonneg x = true ->
  SFnonneg (SF64mul x (S754_finite false m e)) = true.
Proof.
  destruct x as [sx|sx| |sx mx ex]; try destruct sx; cbn;
    try discriminate; try reflexivity.
  intros _. apply binary_round_aux_nonneg. lia.
Qed.

Lemma add_nonneg (x y : float) : nonneg x -> nonneg y -> nonneg (x + y).
Proof.
  rewrite !nonneg_SF, add_spec. apply SF64add_nonneg.
Qed.

Lemma of_Z_nonneg (z : Z) : (0 <= z)%Z -> nonneg (of_Z z).
Proof.
  intro Hz. apply nonneg_SF. unfold of_Z.
  pose proof (binary_normalize_nonneg z 0 Hz) as H.
  destruct (binary_normalize prec emax z 0 false) as [s|s| |s m e];
    try discriminate H.
  - destruct s; reflexivity.
  - destruct s; [discriminate H|reflexivity].
  - destruct s; [discriminate H|]. cbn [SF2Prim].
    rewrite Z_ldexp_spec, of_uint63_spec.
    pose proof (binary_normalize_nonneg
                  (Uint63.to_Z (Uint63.of_Z (Z.pos m))) 0) as H1.
    specialize (H1 ltac:(apply Uint63.to_Z_bounded)).
    destruct (binary_normalize prec emax _ 0 false) as [s'|s'| |s' m' e'];
      try discriminate H1; cbn; auto.
    destruct s'; [discriminate H1|]. apply binary_round_nonneg.
Qed.

Lemma of_nat_nonneg (n : nat) : nonneg (of_nat n).
Proof. apply of_Z_nonneg. lia. Qed.

Lemma mul_tenth_nonneg (x : float) : nonneg x -> nonneg (x * 0.1).
Proof.
  rewrite !nonneg_SF, mul_spec.
  change (Prim2SF 0.1) with (S754_finite false 7205759403792794 (-56)).
  apply SF64mul_finite_nonneg.
Qed.

(** *** Comparisons *)

Lemma SFcompare_refl (x : spec_float) :
  SFnonneg x = true -> SFcompare x x = Some Eq.
Proof.
  destruct x as [s|s| |s m e]; cbn; try discriminate; intros _.
  - reflexivity.
  - destruct s; reflexivity.
  - destruct s; rewrite Z.compare_refl, Pos.compare_cont_refl; reflexivity.
Qed.

Lemma nonneg_not_nan (x : float) : nonneg x -> is_nan x = false.
Proof.
  intro H. apply nonneg_SF in H. unfold is_nan.
  rewrite eqb_spec. unfold SFeqb. rewrite (SFcompare_refl _ H). reflexivity.
Qed.

Lemma SFcompare_Gt_Lt (x y : spec_float) :
  SFcompare x y = Some Gt -> SFcompare y x = Some Lt.
Proof.
  destruct x as [sx|sx| |sx mx ex]; destruct y as [sy|sy| |sy my ey]; cbn;
    try discriminate; try (destruct sx; try destruct sy; cbn; congruence);
    try (destruct sy; cbn; congruence).
  assert (Hm : Pos.compare_cont Eq my mx
               = CompOpp (Pos.compare_cont Eq mx my)).
  { symmetry. apply (Pos.compare_cont_antisym mx my Eq). }
  destruct sx, sy; cbn; try congruence;
    rewrite (Z.compare_antisym ex ey), Hm;
    destruct (ex ?= ey)%Z; cbn; try congruence;
    destruct (Pos.compare_cont Eq mx my); cbn; congruence.
Qed.

Lemma ltb_leb (x y : float) : (x <? y) = true -> (x <=? y) = true.
Proof.
  rewrite ltb_spec, leb_spec. unfold SFltb, SFleb.
  destruct (SFcompare (Prim2SF x) (Prim2SF y)) as [[| |]|]; congruence.
Qed.

(** Neither below nor above, and both numbers: not above. *)
Lemma not_ltb_leb (x y : float) :
  is_nan x = false -> is_nan y = false ->
  (y <? x) = false -> (x <=? y) = true.
Proof.
  unfold is_nan. rewrite !eqb_spec, ltb_spec, leb_spec.
  unfold SFeqb, SFltb, SFleb. intros Hx Hy Hlt.
  destruct (SFcompare (Prim2SF x) (Prim2SF y)) as [[| |]|] eqn:E;
    try reflexivity.
  - apply SFcompare_Gt_Lt in E. rewrite E in Hlt. discriminate Hlt.
  - exfalso. destruct (Prim2SF x) as [sx|sx| |sx mx ex];
      destruct (Prim2SF y) as [sy|sy| |sy my ey]; cbn in *;
      try discriminate; try (destruct sx; discriminate);
      try (destruct sy; discriminate).
Qed.

Lemma Math_min_nonneg (x y : float) :
  nonneg x -> nonneg y -> nonneg (Math_min x y).
Proof.
  intros Hx Hy. unfold Math_min.
  rewrite (nonneg_not_nan x Hx), (nonneg_not_nan y Hy). cbn [orb].
  destruct (x <? y); [exact Hx|].
  destruct (y <? x); [exact Hy|].
  destruct (get_sign x); assumption.
Qed.

(** [Math.min(1, x)] of a number that is not below zero lies in [0, 1]. *)
Lemma Math_min_one_range (x : float) :
  nonneg x ->
  (0 <=? Math_min 1 x) = true /\ (Math_min 1 x <=? 1) = true.
Proof.
  intro Hx. split.
  - apply Math_min_nonneg; [reflexivity | exact Hx].
  - unfold Math_min. pose proof (nonneg_not_nan x Hx) as Hn.
    rewrite Hn. change (is_nan 1) with false. cbn [orb].
    destruct (1 <? x) eqn:E1; [reflexivity|].
    destruct (x <? 1) eqn:E2; [apply ltb_leb, E2|].
    change (get_sign 1) with false. cbv iota.
    apply not_ltb_leb; [exact Hn | reflexivity | exact E1].
Qed.

End JSNumber.

(** ** Strings

    A [string] stands for a JavaScript string whose UTF-16 code units are
    all below 256 (Latin-1); the character with code [n] is
    [ascii_of_nat n]. *)

Module JSString.

Open Scope string_scope.
Open Scope char_scope.

Definition LF : ascii := "010".
Definition CR : ascii := "013".

Definition code (c : ascii) : nat := nat_of_ascii c.

Definition between (lo hi : nat) (c : ascii) : bool :=
  (lo <=? code c)%nat && (code c <=? hi)%nat.

(** The class [\s] of regular expressions, which is also what [trim]
    strips: TAB, LF, VT, FF, CR, SPACE and NO-BREAK SPACE. *)
Definition isWhiteSpace (c : ascii) : bool :=
  between 9 13 c || (code c =? 32)%nat || (code c =? 160)%nat.

Definition isLineTerminator (c : ascii) : bool :=
  (c =? LF) || (c =? CR).

(** [String.prototype.toLowerCase], one code unit at a time: A-Z, and the
    Latin-1 capitals U+00C0-U+00DE but for the multiplication sign. *)
Definition toLowerCase_char (c : ascii) : ascii :=
  if between 65 90 c || (between 192 222 c && negb (code c =? 215)%nat)
  then ascii_of_nat (code c + 32) else c.

Fixpoint toLowerCase (s : string) : string :=
  match s with
  | EmptyString => EmptyString
  | String c s' => String (toLowerCase_char c) (toLowerCase s')
  end.

(** [s.startsWith(t)] *)
Fixpoint startsWith (s t : string) {struct t} : bool :=
  match t, s with
  | EmptyString, _ => true
  | String b t', String a s' => (a =? b) && startsWith s' t'
  | String _ _, EmptyString => false
  end.

(** [s.includes(t)] *)
Fixpoint includes (s t : string) : bool :=
  startsWith s t ||
  match s with
  | EmptyString => false
  | String _ s' => includes s' t
  end.

(** [t] occurs in [s] as a contiguous substring. *)
Definition substring_of (t s : string) : Prop :=
  exists pre post : string, s = (pre ++ t ++ post)%string.

(** [s.trimStart()], [s.trimEnd()], [s.trim()] *)
Fixpoint trimStart (s : string) : string :=
  match s with
  | EmptyString => EmptyString
  | String c s' => if isWhiteSpace c then trimStart s' else s
  end.

Fixpoint trimEnd (s : string) : string :=
  match s with
  | EmptyString => EmptyString
  | String c s' =>
      match trimEnd s' with
      | EmptyString => if isWhiteSpace c then EmptyString
                       else String c EmptyString
      | t => String c t
      end
  end.

Definition trim (s : string) : string := trimEnd (trimStart s).

(** [s.split(/\s+/)]: the pieces between maximal runs of white space; a
    run at either end leaves an empty piece there. [cur] is the piece
    being read and [in_ws] tells that the previous unit was white space. *)
Fixpoint split_ws_from (cur : string) (in_ws : bool) (s : string)
  : list string :=
  match s with
  | EmptyString => [cur]
  | String c s' =>
      if isWhiteSpace c then
        if in_ws then split_ws_from cur true s'
        else cur :: split_ws_from EmptyString true s'
      else split_ws_from (cur ++ String c EmptyString) false s'
  end.

Definition split_ws (s : string) : list string :=
  split_ws_from EmptyString false s.

(** [s.replace('.', '')]: only the first full stop goes. *)
Fixpoint remove_first_dot (s : string) : string :=
  match s with
  | EmptyString => EmptyString
  | String c s' => if c =? "." then s' else String c (remove_first_dot s')
  end.

(** A non-negative integer in decimal, as a template literal prints it. *)
Definition nat_toString (n : nat) : string :=
  NilZero.string_of_uint (Nat.to_uint n).

Lemma startsWith_spec (s t : string) :
  startsWith s t = true <-> exists r, s = (t ++ r)%string.
Proof.
  revert s. induction t as [|b t IH]; intros s.
  - cbn. split; [intros _; exists s; reflexivity | reflexivity].
  - destruct s as [|a s]; cbn.
    + split; [discriminate | intros [r Hr]; discriminate Hr].
    + rewrite andb_true_iff, Ascii.eqb_eq, IH. split.
      * intros [-> [r ->]]. exists r. reflexivity.
      * intros [r Hr]. injection Hr as -> ->. split; [reflexivity|].
        exists r. reflexivity.
Qed.

Lemma includes_spec (s t : string) :
  includes s t = true <-> substring_of t s.
Proof.
  unfold substring_of. induction s as [|a s IH].
  - cbn [includes]. rewrite orb_false_r, startsWith_spec. split.
    + intros [r Hr]. exists EmptyString, r. exact Hr.
    + intros [pre [post H]]. destruct pre; [|discriminate H].
      exists post. exact H.
  - cbn [includes]. rewrite orb_true_iff, startsWith_spec, IH. split.
    + intros [[r Hr] | [pre [post H]]].
      * exists EmptyString, r. exact Hr.
      * exists (String a pre), post. cbn. rewrite H. reflexivity.
    + intros [pre [post H]]. destruct pre as [|b pre].
      * left. exists post. exact H.
      * right. cbn in H. injection H as _ H. exists pre, post. exact H.
Qed.

Lemma includes_refl (s : string) : includes s s = true.
Proof.
  apply includes_spec. exists EmptyString, EmptyString. cbn.
  induction s as [|a s IH]; cbn; [reflexivity | rewrite <- IH; reflexivity].
Qed.

End JSString.

(** ** Completions of a call *)

Inductive js_error : Type :=
| Error (message : string)
| SyntaxError (message : string)
| TypeError (message : string).

(** A call returns a value or throws. [Unmodelled] marks a run that leaves
    the fragment of JavaScript embedded here (only regular expressions
    with syntax beyond the fragment of [RegExp] below do). *)
Inductive outcome (A : Type) : Type :=
| Returns (a : A)
| Throws (e : js_error)
| Unmodelled.

Arguments Returns {A} a.
Arguments Throws {A} e.
Arguments Unmodelled {A}.

Definition bind {A B : Type} (m : outcome A) (k : A -> outcome B)
  : outcome B :=
  match m with
  | Returns a => k a
  | Throws e => Throws e
  | Unmodelled => Unmodelled
  end.

(** [try { m } catch (error) { h error }] *)
Definition try_catch {A : Type} (m : outcome A) (h : js_error -> outcome A)
  : outcome A :=
  match m with
  | Throws e => h e
  | _ => m
  end.

Declare Scope outcome_scope.
Delimit Scope outcome_scope with outcome.
Notation "x <- m ;; k" := (bind m (fun x => k))
  (at level 61, m at next level, right associativity) : outcome_scope.

(** ** Regular expressions

    [new RegExp(source, 'gi')] for sources written with ordinary
    characters, the full stop and the quantifiers [*], [+], [?] (greedy or,
    followed by [?], lazy). The other syntax characters (anchors, escapes,
    groups, classes, braces, alternation) are outside the fragment. *)

Module RegExp.

Import JSString.
Open Scope char_scope.

Inductive atom : Type :=
| AChar (c : ascii)
| ADot.

Inductive quantifier : Type :=
| QOne
| QStar (greedy : bool)
| QPlus (greedy : bool)
| QOpt (greedy : bool).

Definition term : Type := atom * quantifier.
Definition pattern : Type := list term.

Definition isQuantifierChar (c : ascii) : bool :=
  (c =? "*") || (c =? "+") || (c =? "?").

Definition isOtherSyntaxChar (c : ascii) : bool :=
  existsb (Ascii.eqb c) ["^"; "$"; "\"; "("; ")"; "["; "]"; "{"; "}"; "|"].

Definition quantifier_of (q : ascii) (greedy : bool) : quantifier :=
  if q =? "*" then QStar greedy
  else if q =? "+" then QPlus greedy
  else QOpt greedy.

Definition atom_of (c : ascii) : atom := if c =? "." then ADot else AChar c.

Definition cons_term (t : term) (r : outcome pattern) : outcome pattern :=
  match r with
  | Returns p => Returns (t :: p)
  | other => other
  end.

(** The error [new RegExp(source, 'gi')] throws for a quantifier with
    nothing before it, worded as the engine of Node words it: the source
    between slashes, the flags, the reason. *)
Definition nothing_to_repeat (source : string) : js_error :=
  SyntaxError ("Invalid regular expression: /" ++ source
               ++ "/gi: Nothing to repeat")%string.

(** The terms of the pattern grammar [Term ::= Atom | Atom Quantifier],
    read left to right: a quantifier with no atom before it is the early
    error (thrown here without its message, which [parse] words). *)
Fixpoint terms (source : string) : outcome pattern :=
  match source with
  | EmptyString => Returns []
  | String c rest =>
      if isQuantifierChar c then Throws (SyntaxError "Nothing to repeat")
      else if isOtherSyntaxChar c then Unmodelled
      else
        match rest with
        | String q rest' =>
            if isQuantifierChar q then
              match rest' with
              | String l rest'' =>
                  if l =? "?"
                  then cons_term (atom_of c, quantifier_of q false)
                                 (terms rest'')
                  else cons_term (atom_of c, quantifier_of q true)
                                 (terms rest')
              | EmptyString =>
                  cons_term (atom_of c, quantifier_of q true) (terms rest')
              end
            else cons_term (atom_of c, QOne) (terms rest)
        | EmptyString => cons_term (atom_of c, QOne) (terms rest)
        end
  end.

(** The parser of [new RegExp(source, 'gi')]. *)
Definition parse (source : string) : outcome pattern :=
  match terms source with
  | Throws _ => Throws (nothing_to_repeat source)
  | other => other
  end.

(** Canonicalize of the [i] flag: the upper-case form of a code unit when
    that is again a single code unit of the same range. *)
Definition canonicalize (c : ascii) : ascii :=
  if between 97 122 c || (between 224 254 c && negb (code c =? 247)%nat)
  then ascii_of_nat (code c - 32) else c.

Definition atom_matches (a : atom) (c : ascii) : bool :=
  match a with
  | AChar p => canonicalize p =? canonicalize c
  | ADot => negb (isLineTerminator c)
  end.

(** The backtracking matcher, in continuation style: [k] matches the rest
    of the pattern and answers what is left of the text after the first
    match, in the priority order of the language (greedy: the longest
    repetition first; lazy: the shortest first). *)
Definition continuation : Type := string -> option string.

Definition or_else (first second : option string) : option string :=
  match first with
  | Some r => Some r
  | None => second
  end.

Definition one (a : atom) (k : continuation) : continuation :=
  fun s =>
    match s with
    | String c s' => if atom_matches a c then k s' else None
    | EmptyString => None
    end.

Fixpoint star (a : atom) (greedy : bool) (k : continuation) (s : string)
  : option string :=
  match s with
  | String c s' =>
      if atom_matches a c then
        if greedy then or_else (star a greedy k s') (k s)
        else or_else (k s) (star a greedy k s')
      else k s
  | EmptyString => k s
  end.

Definition opt (a : atom) (greedy : bool) (k : continuation) : continuation :=
  fun s => if greedy then or_else (one a k s) (k s)
           else or_else (k s) (one a k s).

(** [match_here p s] is what is left of [s] after the first match of [p]
    at the start of [s]. *)
Fixpoint match_here (p : pattern) : continuation :=
  match p with
  | [] => fun s => Some s
  | (a, q) :: p' =>
      match q with
      | QOne => one a (match_here p')
      | QStar g => star a g (match_here p')
      | QPlus g => one a (star a g (match_here p'))
      | QOpt g => opt a g (match_here p')
      end
  end.

Definition tail (s : string) : string :=
  match s with
  | EmptyString => EmptyString
  | String _ s' => s'
  end.

(** [(text.match(re) || []).length] for a global [re]: the matches are
    taken from left to right, each search starting where the last match
    ended (one unit further after an empty match). Every round consumes a
    unit of [s] or ends the search, so [S (length s)] rounds are enough. *)
Fixpoint count_matches_fuel (fuel : nat) (p : pattern) (s : string) : nat :=
  match fuel with
  | O => O
  | S fuel' =>
      match match_here p s with
      | Some r =>
          if (String.length r <? String.length s)%nat
          then S (count_matches_fuel fuel' p r)
          else
            match s with
            | EmptyString => 1%nat
            | String _ s' => S (count_matches_fuel fuel' p s')
            end
      | None =>
          match s with
          | EmptyString => O
          | String _ s' => count_matches_fuel fuel' p s'
          end
      end
  end.

Definition count_matches (p : pattern) (s : string) : nat :=
  count_matches_fuel (S (String.length s)) p s.

End RegExp.

(** ** services/resumeProcessor.js *)

Module ResumeProcessor.

Import JSString JSNumber.
Open Scope string_scope.

(** *** cleanText *)

(** [.replace(/\r\n/g, '\n')] *)
Fixpoint replace_crlf (s : string) : string :=
  match s with
  | EmptyString => EmptyString
  | String c s' =>
      match s' with
      | String d s'' =>
          if (c =? CR)%char && (d =? LF)%char
          then String LF (replace_crlf s'')
          else String c (replace_crlf s')
      | EmptyString => String c EmptyString
      end
  end.

(** [.replace(/\r/g, '\n')] *)
Fixpoint replace_cr (s : string) : string :=
  match s with
  | EmptyString => EmptyString
  | String c s' => String (if (c =? CR)%char then LF else c) (replace_cr s')
  end.

Fixpoint repeat_char (c : ascii) (n : nat) : string :=
  match n with
  | O => EmptyString
  | S n' => String c (repeat_char c n')
  end.

(** What a maximal run of [n] line feeds becomes under [/\n{3,}/g]. *)
Definition newline_run (n : nat) : string :=
  if (3 <=? n)%nat then String LF (String LF EmptyString)
  else repeat_char LF n.

(** [.replace(/\n{3,}/g, '\n\n')]; [run] counts the line feeds read since
    the last other character. *)
Fixpoint collapse_newlines_from (run : nat) (s : string) : string :=
  match s with
  | EmptyString => newline_run run
  | String c s' =>
      if (c =? LF)%char then collapse_newlines_from (S run) s'
      else newline_run run ++ String c (collapse_newlines_from 0 s')
  end.

Definition collapse_newlines (s : string) : string :=
  collapse_newlines_from 0 s.

(** What a maximal run of white space becomes under [/\s{2,}/g]. *)
Definition space_run (run : string) : string :=
  if (2 <=? String.length run)%nat then " " else run.

(** [.replace(/\s{2,}/g, ' ')]; [run] holds the white space read since the
    last other character. The class [\s] contains the line feed. *)
Fixpoint collapse_whitespace_from (run : string) (s : string) : string :=
  match s with
  | EmptyString => space_run run
  | String c s' =>
      if isWhiteSpace c
      then collapse_whitespace_from (run ++ String c EmptyString) s'
      else space_run run ++ String c (collapse_whitespace_from EmptyString s')
  end.

Definition collapse_whitespace (s : string) : string :=
  collapse_whitespace_from EmptyString s.

Definition cleanText (text : string) : string :=
  trim (collapse_whitespace (collapse_newlines (replace_cr (replace_crlf text)))).

(** The normalisation as the specification words it: the last collapse
    acts on horizontal white space only (white space that ends no line). *)
Definition isHorizontalSpace (c : ascii) : bool :=
  isWhiteSpace c && negb (isLineTerminator c).

Fixpoint collapse_horizontal_from (run : string) (s : string) : string :=
  match s with
  | EmptyString => space_run run
  | String c s' =>
      if isHorizontalSpace c
      then collapse_horizontal_from (run ++ String c EmptyString) s'
      else space_run run ++ String c (collapse_horizontal_from EmptyString s')
  end.

Definition cleanText_spec (text : string) : string :=
  trim (collapse_horizontal_from EmptyString
          (collapse_newlines (replace_cr (replace_crlf text)))).

(** *** Text extraction *)

(** What the handler reads from the outside: the file system and the two
    document decoders ([pdf-parse], [mammoth]); [None] is a rejected
    promise. *)
Record extraction_env : Type := {
  readFile : string -> option string;
  pdfParse : string -> option string;
  extractRawText : string -> option string
}.

Definition await {A : Type} (r : option A) (e : js_error) : outcome A :=
  match r with
  | Some a => Returns a
  | None => Throws e
  end.

Definition extractFromPDF (env : extraction_env) (buffer : string)
  : outcome string :=
  try_catch
    (data <- await (pdfParse env buffer) (Error "pdf-parse failed") ;;
     Returns (cleanText data))%outcome
    (fun _ => Throws (Error "Failed to extract text from PDF")).

Definition extractFromWord (env : extraction_env) (buffer : string)
  : outcome string :=
  try_catch
    (result <- await (extractRawText env buffer) (Error "mammoth failed") ;;
     Returns (cleanText result))%outcome
    (fun _ => Throws (Error "Failed to extract text from Word document")).

Definition mime_pdf : string := "application/pdf".
Definition mime_doc : string := "application/msword".
Definition mime_docx : string :=
  "application/vnd.openxmlformats-officedocument.wordprocessingml.document".

Definition extractText (env : extraction_env) (filePath mimeType : string)
  : outcome string :=
  try_catch
    (buffer <- await (readFile env filePath) (Error "ENOENT") ;;
     if mimeType =? mime_pdf then extractFromPDF env buffer
     else if (mimeType =? mime_doc) || (mimeType =? mime_docx)
     then extractFromWord env buffer
     else Throws (Error ("Unsupported file type: " ++ mimeType)))%outcome
    (fun _ => Throws (Error "Failed to extract text from resume")).

(** *** Skills *)

Definition skillKeywords : list string :=
  [ "javascript"; "python"; "java"; "c++"; "c#"; "php"; "ruby"; "go";
    "rust"; "swift"; "kotlin"; "scala"; "r"; "matlab"; "perl"; "shell";
    "bash"; "powershell";
    "html"; "css"; "react"; "angular"; "vue"; "node.js"; "express";
    "django"; "flask"; "spring"; "laravel"; "rails"; "asp.net"; "jquery";
    "bootstrap"; "sass"; "less";
    "mysql"; "postgresql"; "mongodb"; "redis"; "elasticsearch"; "oracle";
    "sqlite"; "cassandra"; "dynamodb"; "firebase";
    "aws"; "azure"; "gcp"; "docker"; "kubernetes"; "jenkins"; "gitlab";
    "github"; "terraform"; "ansible"; "chef"; "puppet"; "vagrant";
    "git"; "svn"; "jira"; "confluence"; "slack"; "trello"; "asana";
    "figma"; "sketch"; "photoshop"; "illustrator"; "indesign";
    "leadership"; "management"; "communication"; "teamwork";
    "problem solving"; "analytical"; "creative"; "organized";
    "detail oriented"; "time management";
    "agile"; "scrum"; "kanban"; "waterfall"; "lean"; "six sigma";
    "devops"; "ci/cd" ].

Inductive category : Type :=
| technical | soft | language | certification | other.

Definition categories : list (category * list string) :=
  [ (technical, ["javascript"; "python"; "java"; "react"; "node.js"; "sql";
                 "aws"; "docker"]);
    (soft, ["leadership"; "communication"; "teamwork"; "problem solving";
            "management"]);
    (language, ["english"; "spanish"; "french"; "german"; "chinese";
                "japanese"]);
    (certification, ["aws certified"; "pmp"; "cissp"; "comptia"]);
    (other, []) ].

Definition categorizeSkill (skill : string) : category :=
  match find (fun entry => existsb (includes (toLowerCase skill)) (snd entry))
             categories with
  | Some entry => fst entry
  | None => other
  end.

Definition contextWords : list string :=
  ["experience"; "proficient"; "expert"; "advanced"; "years"].

(** The test of one context word: the text has the word next to the skill
    on either side, one space between. *)
Definition reinforces (text skill word : string) : bool :=
  includes text (word ++ " " ++ skill) || includes text (skill ++ " " ++ word).

Definition calculateSkillConfidence (text skill : string) : outcome float :=
  (re <- RegExp.parse skill ;;
   let skillOccurrences := RegExp.count_matches re text in
   let confidence := Math_min 0.9 (0.3 + of_nat skillOccurrences * 0.1) in
   let confidence :=
     fold_left (fun confidence word =>
                  if reinforces text skill word then confidence + 0.1
                  else confidence)
               contextWords confidence in
   Returns (Math_min 1.0 confidence))%outcome%float.

Record SkillEntry : Type := {
  name : string;
  skill_category : category;
  confidence : float
}.

(** The body of [skillKeywords.forEach]: one keyword, given the entries
    found so far. *)
Definition extractSkills_step (textLower : string)
  (foundSkills : list SkillEntry) (skill : string)
  : outcome (list SkillEntry) :=
  if includes textLower skill then
    (c <- calculateSkillConfidence textLower skill ;;
     Returns (foundSkills ++
              [{| name := skill;
                  skill_category := categorizeSkill skill;
                  confidence := c |}])%list)%outcome
  else Returns foundSkills.

Fixpoint forEach {A S : Type} (body : S -> A -> outcome S) (l : list A)
  (s : S) : outcome S :=
  match l with
  | [] => Returns s
  | a :: l' => (s' <- body s a ;; forEach body l' s')%outcome
  end.

Definition extractSkills (text : string) : outcome (list SkillEntry) :=
  let textLower := toLowerCase text in
  forEach (extractSkills_step textLower) skillKeywords [].

(** *** The confidence in closed form *)

(** How many context words reinforce the skill in the text. *)
Definition reinforcement_count (text skill : string) : nat :=
  List.length (filter (reinforces text skill) contextWords).

(** The confidence of a skill met [n] times with [r] reinforcing words:
    the base capped at 0.9, then [r] additions of 0.1, capped at 1. *)
Definition confidence_of (n r : nat) : float :=
  Math_min 1 (Nat.iter r (fun c => c + 0.1)
                (Math_min 0.9 (0.3 + of_nat n * 0.1)))%float.

End ResumeProcessor.

(** ** Values and objects *)

Module JSValue.

Import JSString JSNumber.
Open Scope string_scope.

(** What [JSON.parse] can return, which is also all the analysis objects
    hold. An object lists its members in property order, names distinct. *)
Inductive value : Type :=
| VNull
| VBool (b : bool)
| VNum (x : float)
| VStr (s : string)
| VArr (elements : list value)
| VObj (members : list (string * value)).

Definition object : Type := list (string * value).

(** [o[key]]; [None] is [undefined]. *)
Fixpoint get (key : string) (o : object) : option value :=
  match o with
  | [] => None
  | (k, v) :: o' => if k =? key then Some v else get key o'
  end.

(** [{...o, key: v}]: an own member keeps its place, a new one goes last. *)
Fixpoint set (key : string) (v : value) (o : object) : object :=
  match o with
  | [] => [(key, v)]
  | (k, w) :: o' => if k =? key then (k, v) :: o' else (k, w) :: set key v o'
  end.

(** ToBoolean *)
Definition truthy_value (v : value) : bool :=
  match v with
  | VNull => false
  | VBool b => b
  | VNum x => truthy x
  | VStr s => negb (s =? "")
  | VArr _ | VObj _ => true
  end.

Fixpoint chars (s : string) : list value :=
  match s with
  | EmptyString => []
  | String c s' => VStr (String c EmptyString) :: chars s'
  end.

(** [Object.values(v)] *)
Definition Object_values (v : value) : list value :=
  match v with
  | VObj members => map snd members
  | VArr elements => elements
  | VStr s => chars s
  | VNull | VBool _ | VNum _ => []
  end.

Definition strings (l : list string) : value := VArr (map VStr l).

(** *** Addition

    [sum + score] for the values of JSON. The built-in conversions
    between Numbers and Strings are taken as given: [Number_toString] is
    Number::toString, [StringToNumber] the numeric value of a String. A
    conversion of a value to a primitive answers [None] when it throws
    (the TypeError "Cannot convert object to primitive value"). *)

Inductive primitive : Type :=
| PNull
| PBool (b : bool)
| PNum (x : float)
| PStr (s : string).

(** ToString of a value. An array is joined as [Array.prototype.join]
    joins it: commas between the elements, nothing for a null element. An
    object gives "[object Object]", by the method it inherits, unless it
    has an own member named [toString]: that member is no function (JSON
    holds none), the inherited [valueOf] answers the object itself, and no
    conversion is left. *)
Fixpoint ToString (Number_toString : float -> string) (v : value)
  : option string :=
  match v with
  | VNull => Some "null"
  | VBool b => Some (if b then "true" else "false")
  | VNum x => Some (Number_toString x)
  | VStr s => Some s
  | VArr elements =>
      (fix join (l : list value) : option string :=
         match l with
         | [] => Some ""
         | element :: l' =>
             match match element with
                   | VNull => Some ""
                   | _ => ToString Number_toString element
                   end with
             | Some next =>
                 match l' with
                 | [] => Some next
                 | _ :: _ =>
                     match join l' with
                     | Some rest => Some (next ++ "," ++ rest)
                     | None => None
                     end
                 end
             | None => None
             end
         end) elements
  | VObj members =>
      match get "toString" members with
      | Some _ => None
      | None => Some "[object Object]"
      end
  end.

(** ToPrimitive: arrays and objects have no primitive [valueOf], so they
    convert to their String. *)
Definition ToPrimitive (Number_toString : float -> string) (v : value)
  : option primitive :=
  match v with
  | VNull => Some PNull
  | VBool b => Some (PBool b)
  | VNum x => Some (PNum x)
  | VStr s => Some (PStr s)
  | VArr _ | VObj _ => option_map PStr (ToString Number_toString v)
  end.

Definition primitive_toString (Number_toString : float -> string)
  (p : primitive) : string :=
  match p with
  | PNull => "null"
  | PBool b => if b then "true" else "false"
  | PNum x => Number_toString x
  | PStr s => s
  end.

Definition primitive_toNumber (StringToNumber : string -> float)
  (p : primitive) : float :=
  match p with
  | PNull => 0
  | PBool b => if b then 1 else 0
  | PNum x => x
  | PStr s => StringToNumber s
  end.

(** [sum + score]: concatenation when either side is a String after
    ToPrimitive, the sum of the two Numbers otherwise. *)
Definition add (Number_toString : float -> string)
  (StringToNumber : string -> float) (sum : primitive) (score : value)
  : option primitive :=
  match ToPrimitive Number_toString score with
  | Some rprim =>
      match sum, rprim with
      | PStr _, _ | _, PStr _ =>
          Some (PStr (primitive_toString Number_toString sum
                      ++ primitive_toString Number_toString rprim))
      | _, _ =>
          Some (PNum (primitive_toNumber StringToNumber sum
                      + primitive_toNumber StringToNumber rprim))
      end
  | None => None
  end.

(** [array.reduce((sum, score) => sum + score, initial)] *)
Fixpoint reduce_add (Number_toString : float -> string)
  (StringToNumber : string -> float) (array : list value)
  (initial : primitive) : option primitive :=
  match array with
  | [] => Some initial
  | score :: array' =>
      match add Number_toString StringToNumber initial score with
      | Some sum => reduce_add Number_toString StringToNumber array' sum
      | None => None
      end
  end.

End JSValue.

(** ** services/aiService.js *)

Module AIService.

Import JSString JSNumber JSValue.
Open Scope string_scope.

(** What [axios.post] resolves to, as far as [callOpenAI] reads it:
    [response.data.choices[0].message.content]. *)
Inductive response_body : Type :=
| NoChoice
    (* no [choices[0].message]: reading [content] is a TypeError *)
| NoContent
    (* [content] is null or undefined *)
| Content (text : string).

Inductive post_result : Type :=
| Rejected (e : js_error)
    (* network error, the 30 s timeout, a status outside 2xx *)
| Resolved (body : response_body).

(** The world around one call: the credential read at start-up, the
    provider's answer to a prompt, the built-in [JSON.parse] ([None] when
    it throws), the clock ([now k] is the k-th reading of [Date.now()]
    during the call), and the built-in conversions between Numbers and
    Strings, which [+] and [/] use on sub-scores that are not all
    Numbers. *)
Record environment : Type := {
  apiKey : option string;
  post : string -> post_result;
  JSON_parse : string -> option object;
  now : nat -> Z;
  Number_toString : float -> string;
  StringToNumber : string -> float
}.

(** [callOpenAI(prompt)]; a result [None] is a null content. *)
Definition callOpenAI (env : environment) (prompt : string)
  : outcome (option string) :=
  match apiKey env with
  | None | Some EmptyString =>
      Throws (Error "OpenAI API key not configured")
  | Some _ =>
      match post env prompt with
      | Rejected e => Throws e
      | Resolved NoChoice =>
          Throws (TypeError "Cannot read properties of undefined")
      | Resolved NoContent => Returns None
      | Resolved (Content text) => Returns (Some text)
      end
  end.

Definition prompt_head : string :=
  "
Analyze the following resume and provide a detailed assessment in JSON format:

Resume Text:
".

Definition prompt_tail : string :=
  "

Please provide analysis in the following JSON structure:
{ summary, skills[], experience[], education[], strengths[], weaknesses[],
  improvements[], feedback[], scores{}, atsCompatibility{} }
".

(** The template of the prompt; the literal schema it ends with is
    abridged to its member names. *)
Definition createResumeAnalysisPrompt (resumeText : string) : string :=
  prompt_head ++ resumeText ++ prompt_tail.

Definition fallbackKeywords : list string :=
  ["javascript"; "python"; "react"; "node.js"; "sql"; "aws"; "docker"; "git"].

Definition member (k : string) (v : value) : string * value := (k, v).

(** [getFallbackResumeAnalysis(resumeText = '', fileName = '')]; [time] is
    what [Date.now()] reads. *)
Definition getFallbackResumeAnalysis (resumeText fileName : string) (time : Z)
  : object :=
  let words := split_ws (toLowerCase resumeText) in
  let foundSkills :=
    filter (fun skill =>
              existsb (fun word => includes word (remove_first_dot skill))
                      words)
           fallbackKeywords in
  [ member "summary"
      (VStr "Professional with diverse experience and technical skills.");
    member "skills"
      (VArr (map (fun skill =>
                    VObj [ member "name" (VStr skill);
                           member "category" (VStr "technical");
                           member "confidence" (VNum 0.7) ])
                 foundSkills));
    member "experience"
      (VArr [ VObj [ member "title" (VStr "Software Developer");
                     member "company" (VStr "Technology Company");
                     member "duration" (VStr "2+ years");
                     member "description"
                       (VStr "Software development experience") ] ]);
    member "education"
      (VArr [ VObj [ member "degree" (VStr "Bachelor's Degree");
                     member "institution" (VStr "University");
                     member "graduationDate" VNull ] ]);
    member "strengths" (strings ["Technical skills"; "Problem solving"]);
    member "weaknesses" (strings ["Could improve presentation"]);
    member "improvements"
      (strings ["Add more specific achievements";
                "Include quantifiable results"]);
    member "feedback"
      (strings ["Good technical foundation";
                "Consider adding more details"]);
    member "scores"
      (VObj [ member "formatting" (VNum 75);
              member "content" (VNum 80);
              member "skills" (VNum 85);
              member "experience" (VNum 75);
              member "education" (VNum 70);
              member "keywords" (VNum 65) ]);
    member "atsCompatibility"
      (VObj [ member "score" (VNum 75);
              member "issues" (strings ["Could improve keyword density"]);
              member "recommendations"
                (strings ["Use more industry-specific terms"]) ]);
    member "overallScore" (VNum 75);
    member "fileName" (VStr fileName);
    member "processingTime" (VNum (of_Z time)) ].

(** [response.match(/\{[\s\S]*\}/)]: from the first opening brace to the
    last closing brace after it. *)
Fixpoint from_first (c : ascii) (s : string) : option string :=
  match s with
  | EmptyString => None
  | String a s' => if (a =? c)%char then Some s else from_first c s'
  end.

Fixpoint through_last (c : ascii) (s : string) : option string :=
  match s with
  | EmptyString => None
  | String a s' =>
      match through_last c s' with
      | Some t => Some (String a t)
      | None => if (a =? c)%char then Some (String a EmptyString) else None
      end
  end.

Definition match_braces (response : string) : option string :=
  match from_first "{" response with
  | Some s => through_last "}" s
  | None => None
  end.

(** [parseResumeAnalysis(response)]: it catches what it throws; the second
    component counts the clock readings it made. *)
Definition parseResumeAnalysis (env : environment) (response : option string)
  : object * nat :=
  let parsed :=
    match response with
    | Some text =>
        match match_braces text with
        | Some json => JSON_parse env json
        | None => None
        end
    | None => None
    end in
  match parsed with
  | Some analysis => (analysis, 0%nat)
  | None => (getFallbackResumeAnalysis "" "" (now env 0), 1%nat)
  end.

Fixpoint numbers (l : list value) : option (list float) :=
  match l with
  | [] => Some []
  | VNum x :: l' => option_map (cons x) (numbers l')
  | _ :: _ => None
  end.

Definition not_primitive : js_error :=
  TypeError "Cannot convert object to primitive value".

(** [calculateOverallScore(analysis)]. It throws when a sub-score cannot
    be converted to a primitive. *)
Definition calculateOverallScore (env : environment) (analysis : object)
  : outcome float :=
  match get "scores" analysis with
  | Some v =>
      if truthy_value v then
        let scores := Object_values v in
        match reduce_add (Number_toString env) (StringToNumber env) scores
                (PNum 0) with
        | Some sum =>
            Returns
              (Math_round
                 (primitive_toNumber (StringToNumber env) sum
                  / of_nat (List.length scores))%float)
        | None => Throws not_primitive
        end
      else Returns 75%float
  | None => Returns 75%float
  end.

(** [analyzeResume(resumeText, fileName)]. When the catch block is
    entered the clock has not been read: [parseResumeAnalysis] reads it
    only for its own fallback, whose sub-scores add up without error. *)
Definition analyzeResume (env : environment) (resumeText fileName : string)
  : outcome object :=
  try_catch
    (let prompt := createResumeAnalysisPrompt resumeText in
     response <- callOpenAI env prompt ;;
     let '(analysis, k) := parseResumeAnalysis env response in
     overallScore <- calculateOverallScore env analysis ;;
     Returns (set "processingTime" (VNum (of_Z (now env k)))
               (set "fileName" (VStr fileName)
                 (set "overallScore" (VNum overallScore) analysis))))%outcome
    (fun _ =>
       Returns (getFallbackResumeAnalysis resumeText fileName (now env 0))).

End AIService.

(** ** models/Resume.js *)

Module ResumeModel.

Import JSString JSNumber.
Open Scope string_scope.

Record Skill : Type := {
  skill_name : string;
  skill_category : string;
  skill_confidence : float
}.

Record Experience : Type := {
  title : string;
  company : string;
  duration : string;
  description : string
}.

(** The members of a resume document that matching reads:
    [analysis.skills], [analysis.experience], [aiAnalysis.overallScore]. *)
Record Resume : Type := {
  analysis_skills : list Skill;
  analysis_experience : list Experience;
  aiAnalysis_overallScore : float
}.

Record JobSkill : Type := {
  job_skill_name : string;
  required : bool
}.

(** What matching reads of a job document: [skills] and [level]. *)
Record Job : Type := {
  skills : list JobSkill;
  level : string
}.

Record MatchResult : Type := {
  matchScore : float;
  matchedSkills : list string;
  missingSkills : list string;
  relevanceReasons : list string
}.

(** The object literal [levelAdjustment], built for one resume. *)
Definition levelAdjustment (experienceYears : nat) : list (string * float) :=
  [ ("entry", if (0 <=? experienceYears)%nat then 10 else -10);
    ("junior", if (1 <=? experienceYears)%nat then 10 else -5);
    ("mid", if (3 <=? experienceYears)%nat then 10 else -5);
    ("senior", if (5 <=? experienceYears)%nat then 10 else -10);
    ("lead", if (7 <=? experienceYears)%nat then 10 else -15);
    ("executive", if (10 <=? experienceYears)%nat then 10 else -20)
  ]%float.

(** The names every object literal inherits from [Object.prototype]. Each
    of them holds a function, and [__proto__] the prototype itself. *)
Definition Object_prototype_names : list string :=
  [ "constructor"; "hasOwnProperty"; "isPrototypeOf"; "propertyIsEnumerable";
    "toLocaleString"; "toString"; "valueOf"; "__proto__";
    "__defineGetter__"; "__defineSetter__"; "__lookupGetter__";
    "__lookupSetter__" ].

(** What [table[key] || 0] is for an object literal [table] of Numbers: a
    Number, or the function or object that [key] names in
    [Object.prototype]. *)
Inductive looked_up : Type :=
| Number (x : float)
| Inherited.

(** [table[key] || 0]: an own member first, then the prototype; a name
    found in neither gives [undefined], so 0. *)
Definition lookup_or_zero (table : list (string * float)) (key : string)
  : looked_up :=
  match find (fun entry => fst entry =? key) table with
  | Some entry => Number (or_default (snd entry) 0)
  | None =>
      if existsb (String.eqb key) Object_prototype_names then Inherited
      else Number 0
  end.

(** [score += v; score = Math.max(0, Math.min(100, score))]. With a
    function or an object for [v], [+] concatenates the Number and the text
    of [v] into a String that is no numeric literal, which [Math.min]
    converts to NaN, and [Math.max] passes NaN on. *)
Definition adjust_within_bounds (score : float) (v : looked_up) : float :=
  match v with
  | Number x => Math_max 0 (Math_min 100 (score + x))
  | Inherited => nan
  end.

Definition techSkills : list string :=
  ["javascript"; "python"; "react"; "node.js"; "java"; "sql"].

(** [array.push(item)] *)
Definition push {A : Type} (array : list A) (item : A) : list A :=
  (array ++ [item])%list.

Definition generateRelevanceReasons (this : Resume)
  (matchedSkills : list string) (job : Job) : list string :=
  let reasons : list string := [] in
  let reasons :=
    if (3 <? List.length matchedSkills)%nat
    then push reasons ("Strong skill alignment with "
                       ++ nat_toString (List.length matchedSkills)
                       ++ " matching technical skills")
    else reasons in
  let reasons :=
    if (2 <=? List.length (analysis_experience this))%nat
    then push reasons "Relevant experience level matches job requirements"
    else reasons in
  let reasons :=
    if (level job =? "senior") && (85 <? aiAnalysis_overallScore this)%float
    then push reasons
           "Senior-level qualifications align with position requirements"
    else reasons in
  let hasTechSkills :=
    existsb (fun skill =>
               existsb (fun tech => includes (toLowerCase skill) tech)
                       techSkills)
            matchedSkills in
  let reasons :=
    if hasTechSkills
    then push reasons "Core technology stack matches job requirements"
    else reasons in
  if (0 <? List.length reasons)%nat then reasons
  else ["General experience and skills are relevant to this position"].

Definition calculateJobMatch (this : Resume) (job : Job) : MatchResult :=
  let resumeSkills :=
    map (fun skill => toLowerCase (skill_name skill)) (analysis_skills this) in
  let jobSkills :=
    map (fun skill => toLowerCase (job_skill_name skill)) (skills job) in
  let matchedSkills :=
    filter (fun skill =>
              existsb (fun jobSkill =>
                         includes jobSkill skill || includes skill jobSkill)
                      jobSkills)
           resumeSkills in
  let missingSkills :=
    filter (fun skill =>
              negb (existsb (fun resumeSkill =>
                               includes resumeSkill skill
                               || includes skill resumeSkill)
                            resumeSkills))
           jobSkills in
  let matchScore : float :=
    if (0 <? List.length jobSkills)%nat
    then (of_nat (List.length matchedSkills) / of_nat (List.length jobSkills)
          * 100)%float
    else 0%float in
  let experienceYears := List.length (analysis_experience this) in
  let jobLevel := level job in
  let matchScore :=
    adjust_within_bounds
      matchScore (lookup_or_zero (levelAdjustment experienceYears) jobLevel) in
  {| matchScore := Math_round matchScore;
     matchedSkills := matchedSkills;
     missingSkills := missingSkills;
     relevanceReasons := generateRelevanceReasons this matchedSkills job |}.

End ResumeModel.

(** ** routes/resumes.js *)

Module ResumeRoutes.

Import JSString JSNumber JSValue.
Open Scope string_scope.

(** *** processResumeAsync *)

Record ExperienceEntry : Type := {
  title : string;
  company : option string;
  duration : option string;
  description : string
}.

Record EducationEntry : Type := {
  degree : string;
  institution : option string;
  graduationDate : option string
}.

(** What [extractBasicInfo] returns, as far as the merge reads it. *)
Record BasicInfo : Type := {
  skills : list ResumeProcessor.SkillEntry;
  experience : list ExperienceEntry;
  education : list EducationEntry
}.

(** The line scans of [extractEducation] and [extractExperience] are not
    modelled; they are taken as given functions of the text. *)
Record line_scans : Type := {
  extractEducation : string -> list EducationEntry;
  extractExperience : string -> list ExperienceEntry
}.

Definition extractBasicInfo (scans : line_scans) (text : string)
  : outcome BasicInfo :=
  (found <- ResumeProcessor.extractSkills text ;;
   Returns {| skills := found;
              education := extractEducation scans text;
              experience := extractExperience scans text |})%outcome.

(** An array member of the stored analysis: the heuristic entries, or
    whatever the analysis object holds under that name. *)
Inductive chosen (A : Type) : Type :=
| Heuristic (entries : list A)
| Provided (v : option value).

Arguments Heuristic {A} entries.
Arguments Provided {A} v.

(** [heuristic.length > 0 ? heuristic : provided] *)
Definition choose {A : Type} (heuristic : list A) (provided : option value)
  : chosen A :=
  if (0 <? List.length heuristic)%nat then Heuristic heuristic
  else Provided provided.

Record Analysis : Type := {
  summary : option value;
  analysis_skills : chosen ResumeProcessor.SkillEntry;
  analysis_experience : chosen ExperienceEntry;
  analysis_education : chosen EducationEntry
}.

Record AiAnalysis : Type := {
  overallScore : option value;
  scores : option value;
  strengths : option value;
  weaknesses : option value;
  improvements : option value;
  feedback : option value;
  readabilityScore : float;
  atsCompatibility : option value
}.

(** The update [findByIdAndUpdate] receives; the members it sets to
    constants (empty arrays, the metadata) are left out. *)
Inductive resume_update : Type :=
| Completed (analysis : Analysis) (aiAnalysis : AiAnalysis)
| Failed (processingError : string).

Definition assemble (basicInfo : BasicInfo) (aiAnalysis : object)
  : resume_update :=
  Completed
    {| summary := get "summary" aiAnalysis;
       analysis_skills := choose (skills basicInfo) (get "skills" aiAnalysis);
       analysis_experience :=
         choose (experience basicInfo) (get "experience" aiAnalysis);
       analysis_education :=
         choose (education basicInfo) (get "education" aiAnalysis) |}
    {| overallScore := get "overallScore" aiAnalysis;
       scores := get "scores" aiAnalysis;
       strengths := get "strengths" aiAnalysis;
       weaknesses := get "weaknesses" aiAnalysis;
       improvements := get "improvements" aiAnalysis;
       feedback := get "feedback" aiAnalysis;
       readabilityScore := 75;
       atsCompatibility := get "atsCompatibility" aiAnalysis |}.

Definition error_message (e : js_error) : string :=
  match e with
  | Error m | SyntaxError m | TypeError m => m
  end.

(** The resume collection during one run: its answer to
    [Resume.findByIdAndUpdate(resumeId, update)], [None] when the promise
    resolves and the error when it rejects (a cast or a connection
    error). The document is there to be updated: the routes never remove
    a resume from the collection, they mark it inactive. *)
Definition resume_store : Type := resume_update -> option js_error.

(** [await Resume.findByIdAndUpdate(resumeId, update)]; it answers the
    update the database took. *)
Definition findByIdAndUpdate (db : resume_store) (update : resume_update)
  : outcome resume_update :=
  match db update with
  | None => Returns update
  | Some error => Throws error
  end.

(** [processResumeAsync(resumeId, extractedText, fileName)]. It returns
    when one of its two updates has been taken, and answers that update;
    it throws (the promise rejects) when the update of the catch block is
    rejected. *)
Definition processResumeAsync (scans : line_scans)
  (env : AIService.environment) (db : resume_store)
  (extractedText fileName : string) : outcome resume_update :=
  try_catch
    (basicInfo <- extractBasicInfo scans extractedText ;;
     aiAnalysis <- AIService.analyzeResume env extractedText fileName ;;
     findByIdAndUpdate db (assemble basicInfo aiAnalysis))%outcome
    (fun error => findByIdAndUpdate db (Failed (error_message error))).

(** *** POST /api/resumes *)

(** [resumeFileFilter] of utils/fileUpload.js, which the upload middleware
    runs before the handler: the declared type must be one of three. *)
Definition allowedTypes : list string :=
  [ ResumeProcessor.mime_pdf; ResumeProcessor.mime_doc;
    ResumeProcessor.mime_docx ].

Definition resumeFileFilter (mimetype : string) : bool :=
  existsb (String.eqb mimetype) allowedTypes.

Record upload : Type := {
  path : string;
  mimetype : string;
  filename : string;
  originalname : string;
  size : nat
}.

Record resume_record : Type := {
  fileName : string;
  originalName : string;
  filePath : string;
  fileSize : nat;
  mimeType : string;
  extractedText : string;
  processingStatus : string
}.

(** The resume collection and the files of the upload directory. *)
Record server_state : Type := {
  resumes : list resume_record;
  files : list string
}.

Record response : Type := {
  status : nat;
  message : string
}.

(** What a request finds around it besides the decoders. [unlink k path]
    is the answer of [fs.unlink] to the k-th call of [deleteFile] in the
    request: [None] when the file has been removed, the code of the error
    otherwise. [Resume_create r] is the answer of the database to
    [Resume.create]: [None] when the record has been stored, the error
    otherwise. *)
Record storage : Type := {
  unlink : nat -> string -> option string;
  Resume_create : resume_record -> option js_error
}.

Definition removed (filePath : string) (st : server_state) : server_state :=
  {| resumes := resumes st;
     files := filter (fun f => negb (f =? filePath)) (files st) |}.

Definition inserted (r : resume_record) (st : server_state) : server_state :=
  {| resumes := (resumes st ++ [r])%list; files := files st |}.

(** [deleteFile(filePath)] of utils/fileUpload.js, the k-th call of the
    request: the promise resolves when the file has been removed and when
    there was no such file, and rejects on any other error. *)
Definition deleteFile (disk : storage) (k : nat) (filePath : string)
  (st : server_state) : outcome server_state :=
  match unlink disk k filePath with
  | None => Returns (removed filePath st)
  | Some code => if code =? "ENOENT" then Returns st else Throws (Error code)
  end.

(** [await deleteFile(filePath).catch(...)], with a handler that throws
    nothing. *)
Definition deleteFile_caught (disk : storage) (k : nat) (filePath : string)
  (st : server_state) : server_state :=
  match deleteFile disk k filePath st with
  | Returns st' => st'
  | _ => st
  end.

(** [await Resume.create(r)] *)
Definition create (disk : storage) (r : resume_record) (st : server_state)
  : outcome server_state :=
  match Resume_create disk r with
  | None => Returns (inserted r st)
  | Some error => Throws error
  end.

(** The handler, after the upload middleware stored the file. Starting
    [processResumeAsync] is not part of the response. Whatever the [try]
    block throws is caught; [caught k] is the [catch] block when [k]
    calls of [deleteFile] have been made before it. *)
Definition postResume (env : ResumeProcessor.extraction_env)
  (disk : storage) (file : option upload) (st : server_state)
  : outcome (response * server_state) :=
  match file with
  | None =>
      Returns ({| status := 400; message := "Please upload a resume file" |},
               st)
  | Some f =>
      let caught (k : nat) : outcome (response * server_state) :=
        Returns ({| status := 500;
                    message := "Server error during resume upload" |},
                 deleteFile_caught disk k (path f) st) in
      match ResumeProcessor.extractText env (path f) (mimetype f) with
      | Returns text =>
          if (String.length text <? 100)%nat then
            match deleteFile disk 0 (path f) st with
            | Returns st' =>
                Returns
                  ({| status := 400;
                      message := "Could not extract sufficient text from resume. Please ensure the file is not corrupted." |},
                   st')
            | Throws _ => caught 1%nat
            | Unmodelled => Unmodelled
            end
          else
            match create disk {| fileName := filename f;
                                 originalName := originalname f;
                                 filePath := path f;
                                 fileSize := size f;
                                 mimeType := mimetype f;
                                 extractedText := text;
                                 processingStatus := "processing" |} st with
            | Returns st' =>
                Returns
                  ({| status := 201;
                      message := "Resume uploaded successfully. Analysis in progress." |},
                   st')
            | Throws _ => caught 0%nat
            | Unmodelled => Unmodelled
            end
      | Throws _ => caught 0%nat
      | Unmodelled => Unmodelled
      end
  end.

End ResumeRoutes.

(** ** Whole numbers as Strings

    The conversions between Numbers and Strings are built-ins, which
    [AIService] takes from its environment. The examples below need them
    to run. [toString] writes a whole number below 2^53 in size as
    Number::toString does, in decimal digits; [toNumber] reads a String of
    at most fifteen decimal digits as the conversion to a Number does (the
    empty String is 0). They stand for the built-ins on these arguments
    only: elsewhere [toString] answers the empty String and [toNumber]
    NaN. *)

Module Numerals.

Import JSString JSNumber.
Open Scope string_scope.

Definition whole (x : float) : option Z :=
  match Prim2SF x with
  | S754_zero _ => Some 0%Z
  | S754_finite s m e =>
      let v := if s then Z.neg m else Z.pos m in
      if (0 <=? e)%Z then Some (v * 2 ^ e)%Z
      else if (Z.pos m mod 2 ^ (- e) =? 0)%Z then Some (v / 2 ^ (- e))%Z
      else None
  | _ => None
  end.

Definition toString (x : float) : string :=
  match whole x with
  | Some z =>
      if (Z.abs z <? 2 ^ 53)%Z then NilZero.string_of_int (Z.to_int z)
      else ""
  | None => ""
  end.

Fixpoint digits_value (acc : Z) (s : string) : option Z :=
  match s with
  | EmptyString => Some acc
  | String c s' =>
      if between 48 57 c
      then digits_value (10 * acc + Z.of_nat (code c - 48))%Z s'
      else None
  end.

Definition toNumber (s : string) : float :=
  if (15 <? String.length s)%nat then nan
  else
    match digits_value 0 s with
    | Some z => of_Z z
    | None => nan
    end.

End Numerals.

(** ** A reader for JSON texts

    [JSON.parse] is a built-in, which [AIService] takes from its
    environment. The examples below need one to run: [parse_object] reads
    the JSON texts made of objects, arrays, strings without escapes,
    integers (no fraction, no exponent) and the three literals, in which
    the member names of each object are distinct and none is written in
    digits only, and answers as [JSON.parse] does on them. It answers
    [None] on every other text, so it stands for [JSON.parse] on the
    texts of that fragment only. *)

Module JSONText.

Import JSString JSNumber JSValue.
Open Scope char_scope.

Definition dq : ascii := "034".

(** The text with every apostrophe turned into a double quote, to write
    JSON texts as string literals. *)
Fixpoint quoted (s : string) : string :=
  match s with
  | EmptyString => EmptyString
  | String c s' => String (if c =? "'" then dq else c) (quoted s')
  end.

Definition isJsonSpace (c : ascii) : bool :=
  (c =? " ") || (c =? "009") || (c =? LF) || (c =? CR).

Fixpoint skip_ws (s : string) : string :=
  match s with
  | String c s' => if isJsonSpace c then skip_ws s' else s
  | EmptyString => EmptyString
  end.

(** After an opening quote: the characters up to the closing quote. *)
Fixpoint read_string (s : string) : option (string * string) :=
  match s with
  | EmptyString => None
  | String c s' =>
      if c =? dq then Some (EmptyString, s')
      else if (c =? "\") || (code c <? 32)%nat then None
      else
        match read_string s' with
        | Some (t, rest) => Some (String c t, rest)
        | None => None
        end
  end.

Definition isDigit (c : ascii) : bool := between 48 57 c.

Fixpoint read_digits (acc : Z) (s : string) : Z * string :=
  match s with
  | String c s' =>
      if isDigit c
      then read_digits (10 * acc + Z.of_nat (code c - 48))%Z s'
      else (acc, s)
  | EmptyString => (acc, s)
  end.

Definition ends_number (s : string) : bool :=
  match s with
  | String c _ => negb ((c =? ".") || (c =? "e") || (c =? "E"))
  | EmptyString => true
  end.

(** A zero is not followed by more digits. *)
Definition leading_zero (s : string) : bool :=
  match s with
  | String "0" (String d _) => isDigit d
  | _ => false
  end.

Definition read_number (negative : bool) (s : string)
  : option (value * string) :=
  match s with
  | String c _ =>
      if isDigit c && negb (leading_zero s) then
        let '(n, rest) := read_digits 0 s in
        if ends_number rest
        then Some (VNum (if negative
                         then (if (n =? 0)%Z then neg_zero else of_Z (- n))
                         else of_Z n), rest)
        else None
      else None
  | EmptyString => None
  end.

Fixpoint drop (n : nat) (s : string) : string :=
  match n, s with
  | S n', String _ s' => drop n' s'
  | _, _ => s
  end.

Definition read_literal (s : string) : option (value * string) :=
  if startsWith s "true" then Some (VBool true, drop 4 s)
  else if startsWith s "false" then Some (VBool false, drop 5 s)
  else if startsWith s "null" then Some (VNull, drop 4 s)
  else None.

Fixpoint distinct (names : list string) : bool :=
  match names with
  | [] => true
  | n :: names' => negb (existsb (String.eqb n) names') && distinct names'
  end.

Fixpoint all_digits (s : string) : bool :=
  match s with
  | EmptyString => true
  | String c s' => isDigit c && all_digits s'
  end.

(** Members as [JSON.parse] lists them in the order of the text: no name
    comes twice (the last would win), and none is an array index (those
    would come first). *)
Definition in_text_order (members : list (string * value)) : bool :=
  distinct (map fst members)
  && forallb (fun name => (name =? "")%string || negb (all_digits name))
             (map fst members).

Fixpoint parse_value (fuel : nat) (s : string) : option (value * string) :=
  match fuel with
  | O => None
  | S fuel' =>
      match skip_ws s with
      | EmptyString => None
      | String c rest =>
          if c =? "{" then
            match skip_ws rest with
            | String "}" rest' => Some (VObj [], rest')
            | _ =>
                match parse_members fuel' rest with
                | Some (members, rest') =>
                    if in_text_order members
                    then Some (VObj members, rest')
                    else None
                | None => None
                end
            end
          else if c =? "[" then
            match skip_ws rest with
            | String "]" rest' => Some (VArr [], rest')
            | _ =>
                match parse_elements fuel' rest with
                | Some (elements, rest') => Some (VArr elements, rest')
                | None => None
                end
            end
          else if c =? dq then
            match read_string rest with
            | Some (t, rest') => Some (VStr t, rest')
            | None => None
            end
          else if c =? "-" then read_number true rest
          else if isDigit c then read_number false (String c rest)
          else read_literal (String c rest)
      end
  end
with parse_members (fuel : nat) (s : string)
  : option (list (string * value) * string) :=
  match fuel with
  | O => None
  | S fuel' =>
      match skip_ws s with
      | String q rest =>
          if q =? dq then
            match read_string rest with
            | Some (key, rest1) =>
                match skip_ws rest1 with
                | String ":" rest2 =>
                    match parse_value fuel' rest2 with
                    | Some (v, rest3) =>
                        match skip_ws rest3 with
                        | String "," rest4 =>
                            match parse_members fuel' rest4 with
                            | Some (members, rest5) =>
                                Some ((key, v) :: members, rest5)
                            | None => None
                            end
                        | String "}" rest4 => Some ([(key, v)], rest4)
                        | _ => None
                        end
                    | None => None
                    end
                | _ => None
                end
            | None => None
            end
          else None
      | EmptyString => None
      end
  end
with parse_elements (fuel : nat) (s : string)
  : option (list value * string) :=
  match fuel with
  | O => None
  | S fuel' =>
      match parse_value fuel' s with
      | Some (v, rest) =>
          match skip_ws rest with
          | String "," rest' =>
              match parse_elements fuel' rest' with
              | Some (elements, rest'') => Some (v :: elements, rest'')
              | None => None
              end
          | String "]" rest' => Some ([v], rest')
          | _ => None
          end
      | None => None
      end
  end.

Definition parse_object (text : string) : option object :=
  match parse_value (S (String.length text)) text with
  | Some (VObj members, rest) =>
      match skip_ws rest with
      | EmptyString => Some members
      | _ => None
      end
  | _ => None
  end.

End JSONText.

(** ** Arrays of strings *)

Module JSArray.

Open Scope string_scope.

(** [array.join(separator)] *)
Fixpoint join (separator : string) (array : list string) : string :=
  match array with
  | [] => EmptyString
  | a :: rest =>
      match rest with
      | [] => a
      | _ :: _ => a ++ separator ++ join separator rest
      end
  end.

End JSArray.

(** ** services/resumeProcessor.js: the line scans *)

Module LineScans.

Import JSString JSArray.
Open Scope string_scope.

(** [text.split('\n')]; [cur] is the line being read. *)
Fixpoint split_lines_from (cur : string) (s : string) : list string :=
  match s with
  | EmptyString => [cur]
  | String c s' =>
      if (c =? LF)%char then cur :: split_lines_from EmptyString s'
      else split_lines_from (cur ++ String c EmptyString) s'
  end.

Definition split_lines (s : string) : list string :=
  split_lines_from EmptyString s.

(** The lines a loop
    [for (let i = from; i < Math.min(from + count, lines.length); i++)]
    visits, in order. *)
Definition window (lines : list string) (from count : nat) : list string :=
  firstn count (skipn from lines).

(** The three scans written with regular expressions outside the fragment
    of [RegExp] (word boundaries, digit classes, groups) are taken as
    given. *)
Record pattern_scans : Type := {
  extractDegree : string -> string;
  extractDate : string -> option string;
  extractDuration : string -> list string -> nat -> option string
}.

Definition sectionKeywords : list string :=
  [ "education"; "experience"; "skills"; "projects"; "certifications";
    "awards"; "publications"; "references" ].

Definition isLikelyNewSection (line : string) : bool :=
  existsb (fun keyword => includes (toLowerCase line) keyword)
          sectionKeywords.

(** The loop of [extractJobDescription] over the lines it visits; it
    breaks at the first line that is empty or opens a section. *)
Fixpoint description_loop (rest : list string)
  (descriptionLines : list string) : list string :=
  match rest with
  | [] => descriptionLines
  | l :: rest' =>
      let line := trim l in
      if negb (line =? "") && negb (isLikelyNewSection line)
      then description_loop rest' (descriptionLines ++ [line])
      else descriptionLines
  end.

Definition extractJobDescription (lines : list string) (index : nat)
  : string :=
  join " " (description_loop (window lines (S index) 4) []).

Definition extractJobTitle (line : string) : string := trim line.

Definition extractCompany (line : string) (lines : list string) (index : nat)
  : option string :=
  match find (fun currentLine =>
                includes currentLine "Inc" || includes currentLine "LLC"
                || includes currentLine "Corp" || includes currentLine "Ltd")
             (window lines index 2) with
  | Some currentLine => Some (trim currentLine)
  | None => None
  end.

Definition jobTitles : list string :=
  [ "developer"; "engineer"; "manager"; "analyst"; "consultant";
    "specialist"; "coordinator"; "assistant"; "director"; "lead"; "senior";
    "junior" ].

(** [lines.forEach((line, index) => ...)] of [extractExperience]; [rest]
    holds the lines from [index] on. *)
Fixpoint experience_loop (scans : pattern_scans) (lines : list string)
  (index : nat) (rest : list string)
  (experiences : list ResumeRoutes.ExperienceEntry)
  : list ResumeRoutes.ExperienceEntry :=
  match rest with
  | [] => experiences
  | line :: rest' =>
      let lineLower := toLowerCase line in
      experience_loop scans lines (S index) rest'
        (if existsb (fun title => includes lineLower title) jobTitles
         then experiences ++
              [ {| ResumeRoutes.title := extractJobTitle line;
                   ResumeRoutes.company := extractCompany line lines index;
                   ResumeRoutes.duration :=
                     extractDuration scans line lines index;
                   ResumeRoutes.description :=
                     extractJobDescription lines index |} ]
         else experiences)
  end.

Definition extractExperience (scans : pattern_scans) (text : string)
  : list ResumeRoutes.ExperienceEntry :=
  let lines := split_lines text in
  experience_loop scans lines 0 lines [].

Definition educationKeywords : list string :=
  [ "bachelor"; "master"; "phd"; "doctorate"; "associate"; "diploma";
    "certificate"; "university"; "college"; "institute"; "school";
    "degree" ].

Definition institutionKeywords : list string :=
  [ "university"; "college"; "institute"; "school" ].

Definition extractInstitution (line : string) (lines : list string)
  (index : nat) : option string :=
  match find (fun l =>
                let currentLine := toLowerCase l in
                existsb (fun keyword => includes currentLine keyword)
                        institutionKeywords)
             (window lines index 3) with
  | Some l => Some (trim l)
  | None => None
  end.

Fixpoint education_loop (scans : pattern_scans) (lines : list string)
  (index : nat) (rest : list string)
  (educationSections : list ResumeRoutes.EducationEntry)
  : list ResumeRoutes.EducationEntry :=
  match rest with
  | [] => educationSections
  | line :: rest' =>
      let lineLower := toLowerCase line in
      education_loop scans lines (S index) rest'
        (if existsb (fun keyword => includes lineLower keyword)
                    educationKeywords
         then educationSections ++
              [ {| ResumeRoutes.degree := extractDegree scans line;
                   ResumeRoutes.institution :=
                     extractInstitution line lines index;
                   ResumeRoutes.graduationDate := extractDate scans line |} ]
         else educationSections)
  end.

Definition extractEducation (scans : pattern_scans) (text : string)
  : list ResumeRoutes.EducationEntry :=
  let lines := split_lines text in
  education_loop scans lines 0 lines [].

(** The two scans as [extractBasicInfo] calls them. *)
Definition line_scans_of (scans : pattern_scans) : ResumeRoutes.line_scans :=
  {| ResumeRoutes.extractEducation := extractEducation scans;
     ResumeRoutes.extractExperience := extractExperience scans |}.

End LineScans.

(** ** services/aiService.js: job matching and improvements *)

Module AIMatching.

Import JSString JSNumber JSValue JSArray AIService.
Open Scope string_scope.

(** What the service reads of a resume document beyond the members of
    [ResumeModel.Resume], and of a job posting beyond those of
    [ResumeModel.Job]; all are strings, as the schemas declare them. *)
Record ResumeDocument : Type := {
  resume : ResumeModel.Resume;
  summary : string
}.

Record JobPosting : Type := {
  job : ResumeModel.Job;
  title : string;
  company : string;
  description : string;
  requirements : list string
}.

Definition skill_names (r : ResumeModel.Resume) : list string :=
  map ResumeModel.skill_name (ResumeModel.analysis_skills r).

Definition job_skill_names (j : ResumeModel.Job) : list string :=
  map ResumeModel.job_skill_name (ResumeModel.skills j).

(** The template of the prompt; the sample object it ends with is abridged
    to its member names. *)
Definition createJobMatchingPrompt (resume : ResumeDocument)
  (job : JobPosting) : string :=
  "
Match the following resume with the job posting and provide a detailed analysis:

Resume Summary: " ++ summary resume ++ "
Resume Skills: " ++ join ", " (skill_names (AIMatching.resume resume)) ++ "
Resume Experience: "
  ++ join ", "
       (map (fun e => ResumeModel.title e ++ " at " ++ ResumeModel.company e)
            (ResumeModel.analysis_experience (AIMatching.resume resume)))
  ++ "

Job Title: " ++ title job ++ "
Job Description: " ++ description job ++ "
Job Requirements: " ++ join ", " (requirements job) ++ "
Job Skills: " ++ join ", " (job_skill_names (AIMatching.job job)) ++ "

Provide analysis in JSON format:
{ matchScore, matchedSkills[], missingSkills[], relevanceReasons[],
  recommendations[] }
".

(** [toString] is the conversion of a Number to a String that the
    template literal applies to the overall score. *)
Definition createImprovementPrompt (toString : float -> string)
  (resume : ResumeDocument) (targetJob : option JobPosting) : string :=
  let jobContext :=
    match targetJob with
    | Some targetJob =>
        "Target Job: " ++ title targetJob ++ " at " ++ company targetJob ++ "
       Job Requirements: " ++ join ", " (requirements targetJob)
    | None => "General career improvement"
    end in
  "
Provide specific improvement suggestions for this resume:

Resume Summary: " ++ summary resume ++ "
Current Score: "
  ++ toString (ResumeModel.aiAnalysis_overallScore (AIMatching.resume resume))
  ++ "
" ++ jobContext ++ "

Provide suggestions in JSON format:
{ improvements[], skillGaps[], formatSuggestions[], contentSuggestions[] }
".

(** The body of the [try] of the three parsers:
    [response.match(/\{[\s\S]*\}/)], then [JSON.parse] of the match;
    [None] when it throws (a null response, no braces, malformed JSON). *)
Definition read_reply (env : environment) (response : option string)
  : option object :=
  match response with
  | Some text =>
      match match_braces text with
      | Some json => JSON_parse env json
      | None => None
      end
  | None => None
  end.

Definition parseJobMatchResult (env : environment) (response : option string)
  : object :=
  match read_reply env response with
  | Some matchResult => matchResult
  | None =>
      [ member "matchScore" (VNum 70);
        member "matchedSkills" (VArr []);
        member "missingSkills" (VArr []);
        member "relevanceReasons" (VArr []) ]
  end.

Definition parseImprovements (env : environment) (response : option string)
  : object :=
  match read_reply env response with
  | Some improvements => improvements
  | None =>
      [ member "improvements" (VArr []);
        member "skillGaps" (VArr []);
        member "formatSuggestions" (VArr []);
        member "contentSuggestions" (VArr []) ]
  end.

Definition getFallbackJobMatch (resume : ResumeModel.Resume)
  (job : ResumeModel.Job) : object :=
  let resumeSkills :=
    map (fun s => toLowerCase (ResumeModel.skill_name s))
        (ResumeModel.analysis_skills resume) in
  let jobSkills :=
    map (fun s => toLowerCase (ResumeModel.job_skill_name s))
        (ResumeModel.skills job) in
  let matchedSkills :=
    filter (fun skill =>
              existsb (fun jobSkill =>
                         includes jobSkill skill || includes skill jobSkill)
                      jobSkills)
           resumeSkills in
  let matchScore :=
    Math_min 100
      (Math_round (of_nat (List.length matchedSkills)
                   / Math_max (of_nat (List.length jobSkills)) 1 * 100))
    %float in
  [ member "matchScore" (VNum matchScore);
    member "matchedSkills" (strings matchedSkills);
    member "missingSkills"
      (strings (filter (fun skill =>
                          negb (existsb (String.eqb skill) matchedSkills))
                       jobSkills));
    member "relevanceReasons"
      (strings ["Skills alignment with job requirements"]);
    member "recommendations" (strings ["Highlight relevant experience"]) ].

Definition getFallbackImprovements : object :=
  [ member "improvements"
      (strings
         [ "Add more specific achievements with quantifiable results";
           "Include relevant keywords from target job descriptions";
           "Improve formatting and visual presentation" ]);
    member "skillGaps" (strings ["Consider learning trending technologies"]);
    member "formatSuggestions"
      (strings ["Use consistent formatting throughout"]);
    member "contentSuggestions"
      (strings ["Add more detailed project descriptions"]) ].

(** What [matchResumeWithJob] resolves to: the object
    [{...members, calculatedAt}], where [calculatedAt] is a Date (given
    here by its time value), or the members alone. *)
Record MatchReport : Type := {
  members : object;
  calculatedAt : option Z
}.

Definition matchResumeWithJob (env : environment) (resume : ResumeDocument)
  (job : JobPosting) : outcome MatchReport :=
  try_catch
    (let prompt := createJobMatchingPrompt resume job in
     response <- callOpenAI env prompt ;;
     let matchResult := parseJobMatchResult env response in
     Returns {| members := matchResult;
                calculatedAt := Some (now env 0) |})%outcome
    (fun _ =>
       Returns {| members :=
                    getFallbackJobMatch (AIMatching.resume resume)
                                        (AIMatching.job job);
                  calculatedAt := None |}).

Definition generateImprovements (env : environment)
  (toString : float -> string) (resume : ResumeDocument)
  (targetJob : option JobPosting) : outcome object :=
  try_catch
    (let prompt := createImprovementPrompt toString resume targetJob in
     response <- callOpenAI env prompt ;;
     Returns (parseImprovements env response))%outcome
    (fun _ => Returns getFallbackImprovements).

End AIMatching.

(** ** models/Application.js *)

Module ApplicationModel.

Import JSString JSNumber.
Open Scope string_scope.

(** The [enum] of [status], which is also the one of the history. *)
Definition statuses : list string :=
  [ "pending"; "reviewing"; "shortlisted"; "interview"; "offer"; "rejected";
    "withdrawn" ].

Record StatusChange : Type := {
  changed_status : string;
  changedAt : Z;
  changedBy : option string;
  change_notes : option string
}.

(** [scheduledAt] is a Date, [None] when it is invalid. *)
Record Interview : Type := {
  interview_type : string;
  scheduledAt : option Z;
  duration : float;
  interviewer : option string;
  interview_notes : option string
}.

(** The members of an application document that the methods and the
    routes read or write; [isNew] is Mongoose's flag of a document that
    has not been saved yet. *)
Record Application : Type := {
  _id : string;
  user : string;
  job : string;
  resume : string;
  status : string;
  matchScore : float;
  appliedAt : Z;
  statusHistory : list StatusChange;
  interviews : list Interview;
  isNew : bool
}.

Definition with_status (newStatus : string) (this : Application)
  : Application :=
  {| _id := _id this; user := user this; job := job this;
     resume := resume this; status := newStatus;
     matchScore := matchScore this; appliedAt := appliedAt this;
     statusHistory := statusHistory this; interviews := interviews this;
     isNew := isNew this |}.

Definition with_statusHistory (history : list StatusChange)
  (this : Application) : Application :=
  {| _id := _id this; user := user this; job := job this;
     resume := resume this; status := status this;
     matchScore := matchScore this; appliedAt := appliedAt this;
     statusHistory := history; interviews := interviews this;
     isNew := isNew this |}.

Definition with_interviews (scheduled : list Interview) (this : Application)
  : Application :=
  {| _id := _id this; user := user this; job := job this;
     resume := resume this; status := status this;
     matchScore := matchScore this; appliedAt := appliedAt this;
     statusHistory := statusHistory this; interviews := scheduled;
     isNew := isNew this |}.

Definition saved (this : Application) : Application :=
  {| _id := _id this; user := user this; job := job this;
     resume := resume this; status := status this;
     matchScore := matchScore this; appliedAt := appliedAt this;
     statusHistory := statusHistory this; interviews := interviews this;
     isNew := false |}.

(** The [pre('save')] middleware: a new document gets its first history
    entry. *)
Definition pre_save (this : Application) : Application :=
  if isNew this then
    with_statusHistory
      (statusHistory this ++
       [ {| changed_status := status this;
            changedAt := appliedAt this;
            changedBy := None;
            change_notes := None |} ])
      this
  else this.

(** [this.save()]. Whether the document passes validation and the write
    succeeds is the database's answer [accepts]; validation precedes the
    middleware. *)
Definition save (accepts : Application -> bool) (this : Application)
  : outcome Application :=
  if accepts this then Returns (saved (pre_save this))
  else Throws (Error "save rejected").

(** [updateStatus(newStatus, changedBy, notes)]; [now] is [new Date()]. *)
Definition updateStatus (accepts : Application -> bool) (now : Z)
  (this : Application) (newStatus : string) (changedBy : option string)
  (notes : option string) : outcome Application :=
  let this := with_status newStatus this in
  let this :=
    with_statusHistory
      (statusHistory this ++
       [ {| changed_status := newStatus;
            changedAt := now;
            changedBy := changedBy;
            change_notes := notes |} ])
      this in
  save accepts this.

(** [scheduleInterview(interviewData)] *)
Definition scheduleInterview (accepts : Application -> bool)
  (this : Application) (interviewData : Interview) : outcome Application :=
  let this := with_interviews (interviews this ++ [interviewData]) this in
  let this :=
    if (status this =? "pending") || (status this =? "reviewing")
    then with_status "interview" this
    else this in
  save accepts this.

End ApplicationModel.

(** ** routes/jobs.js: the application routes

    The handlers after their middleware (authentication, validation of the
    identifiers, ownership). Reads of the database are taken to succeed;
    whether a write succeeds is the database's answer. *)

Module ApplicationRoutes.

Import JSString JSNumber ApplicationModel.
Open Scope string_scope.

(** What the routes read of a job document and of a resume document;
    [applications_count] is the member [applications], a Number that
    counts up from 0. *)
Record JobDocument : Type := {
  job_id : string;
  posting : ResumeModel.Job;
  job_status : string;
  applications_count : nat
}.

Record ResumeDocument : Type := {
  resume_id : string;
  document : ResumeModel.Resume;
  processingStatus : string
}.

(** The collections the routes write. *)
Record database : Type := {
  jobs : list JobDocument;
  applications : list Application
}.

(** What one request finds around it: [latestResume user] is
    [Resume.getLatestByUser(user)]; [accepts] and [accepts_job] tell
    whether the database takes a write, validation included; [ObjectId]
    is the identifier a new document gets; [now] is the time;
    [Date_parse s] is the time value of [new Date(s)], [None] for an
    invalid date. *)
Record services : Type := {
  latestResume : string -> option ResumeDocument;
  accepts : Application -> bool;
  accepts_job : JobDocument -> bool;
  ObjectId : string;
  now : Z;
  Date_parse : string -> option Z
}.

Definition answer (code : nat) (text : string) : ResumeRoutes.response :=
  {| ResumeRoutes.status := code; ResumeRoutes.message := text |}.

Definition findById (id : string) (collection : list Application)
  : option Application :=
  find (fun a => _id a =? id) collection.

(** The collection after a new document has been inserted, and after a
    document read from it has been saved. *)
Definition insert (document : Application) (collection : list Application)
  : list Application :=
  collection ++ [document].

Definition replace (document : Application) (collection : list Application)
  : list Application :=
  map (fun a => if _id a =? _id document then document else a) collection.

Definition with_applications (collection : list Application) (db : database)
  : database :=
  {| jobs := jobs db; applications := collection |}.

(** [job.incrementApplications()] *)
Definition incrementApplications (job : JobDocument) : JobDocument :=
  {| job_id := job_id job; posting := posting job;
     job_status := job_status job;
     applications_count := S (applications_count job) |}.

Definition write_job (job : JobDocument) (db : database) : database :=
  {| jobs := map (fun j => if job_id j =? job_id job then job else j)
                 (jobs db);
     applications := applications db |}.

(** POST /api/applications *)
Definition postApplication (world : services) (user jobId : string)
  (db : database) : ResumeRoutes.response * database :=
  match find (fun j => job_id j =? jobId) (jobs db) with
  | None => (answer 404 "Job not found or no longer active", db)
  | Some job =>
      if negb (job_status job =? "active") then
        (answer 404 "Job not found or no longer active", db)
      else
        let incomplete :=
          answer 400
            "Please upload and complete resume analysis before applying" in
        match latestResume world user with
        | None => (incomplete, db)
        | Some resume =>
            if negb (processingStatus resume =? "completed") then
              (incomplete, db)
            else
              match find (fun a => (ApplicationModel.user a =? user)
                                   && (ApplicationModel.job a =? jobId))
                         (applications db) with
              | Some existingApplication =>
                  (answer 400 "You have already applied for this job", db)
              | None =>
                  let matchResult :=
                    ResumeModel.calculateJobMatch (document resume)
                                                  (posting job) in
                  let failed :=
                    answer 500
                      "Server error during application submission" in
                  match save (accepts world)
                          {| _id := ObjectId world;
                             user := user;
                             job := jobId;
                             resume := resume_id resume;
                             status := "pending";
                             matchScore :=
                               ResumeModel.matchScore matchResult;
                             appliedAt := now world;
                             statusHistory := [];
                             interviews := [];
                             isNew := true |} with
                  | Returns application =>
                      let db :=
                        with_applications
                          (insert application (applications db)) db in
                      let job := incrementApplications job in
                      if accepts_job world job then
                        (answer 201 "Application submitted successfully",
                         write_job job db)
                      else (failed, db)
                  | _ => (failed, db)
                  end
              end
        end
  end.

(** PATCH /api/applications/:id/status; [status] and [notes] are members
    of the request body. *)
Definition patchStatus (world : services) (admin id : string)
  (status notes : option string) (db : database)
  : ResumeRoutes.response * database :=
  match status with
  | None | Some EmptyString => (answer 400 "Status is required", db)
  | Some status =>
      if negb (existsb (String.eqb status) statuses) then
        (answer 400 "Invalid status", db)
      else
        match findById id (applications db) with
        | None => (answer 404 "Application not found", db)
        | Some application =>
            match updateStatus (accepts world) (now world) application
                    status (Some admin) notes with
            | Returns application =>
                (answer 200 "Application status updated successfully",
                 with_applications
                   (replace application (applications db)) db)
            | _ =>
                (answer 500
                   "Server error while updating application status", db)
            end
        end
  end.

(** PATCH /api/applications/:id/withdraw; [application] is the document
    the ownership middleware loaded. *)
Definition patchWithdraw (world : services) (user : string)
  (application : Application) (db : database)
  : ResumeRoutes.response * database :=
  if ApplicationModel.status application =? "withdrawn" then
    (answer 400 "Application is already withdrawn", db)
  else if existsb (String.eqb (ApplicationModel.status application))
                  ["offer"; "rejected"] then
    (answer 400 "Cannot withdraw application at this stage", db)
  else
    match updateStatus (accepts world) (now world) application "withdrawn"
            (Some user) (Some "Withdrawn by applicant") with
    | Returns application =>
        (answer 200 "Application withdrawn successfully",
         with_applications (replace application (applications db)) db)
    | _ => (answer 500 "Server error while withdrawing application", db)
    end.

(** The members of the body of POST /api/applications/:id/interview. *)
Record interview_request : Type := {
  requested_type : option string;
  requested_scheduledAt : option string;
  requested_duration : option float;
  requested_interviewer : option string;
  requested_notes : option string
}.

Definition present (member : option string) : option string :=
  match member with
  | None | Some EmptyString => None
  | Some text => Some text
  end.

(** POST /api/applications/:id/interview *)
Definition postInterview (world : services) (id : string)
  (body : interview_request) (db : database)
  : ResumeRoutes.response * database :=
  match present (requested_type body),
        present (requested_scheduledAt body) with
  | Some type, Some scheduledAt =>
      match findById id (applications db) with
      | None => (answer 404 "Application not found", db)
      | Some application =>
          let interviewData :=
            {| interview_type := type;
               scheduledAt := Date_parse world scheduledAt;
               duration :=
                 match requested_duration body with
                 | Some duration => or_default duration 60
                 | None => 60%float
                 end;
               interviewer := requested_interviewer body;
               interview_notes := requested_notes body |} in
          match scheduleInterview (accepts world) application
                  interviewData with
          | Returns application =>
              (answer 200 "Interview scheduled successfully",
               with_applications
                 (replace application (applications db)) db)
          | _ =>
              (answer 500 "Server error while scheduling interview", db)
          end
      end
  | _, _ =>
      (answer 400 "Interview type and scheduled time are required", db)
  end.

End ApplicationRoutes.

(** ** routes/resumes.js: the life of a stored resume *)

Module ResumeLifecycle.

Import JSString ResumeRoutes.
Open Scope string_scope.

(** A resume document: the record the upload created, the error and the
    analysis the background processing stored, and the flag of the soft
    delete. *)
Record ResumeDocument : Type := {
  record : resume_record;
  processingError : option string;
  stored : option (Analysis * AiAnalysis);
  isActive : bool
}.

Definition with_processingStatus (newStatus : string) (r : resume_record)
  : resume_record :=
  {| fileName := fileName r;
     originalName := originalName r;
     filePath := filePath r;
     fileSize := fileSize r;
     mimeType := mimeType r;
     extractedText := extractedText r;
     processingStatus := newStatus |}.

(** [Resume.create({...})] of the upload handler. *)
Definition uploaded (r : resume_record) : ResumeDocument :=
  {| record := r; processingError := None; stored := None;
     isActive := true |}.

(** The document after the database has taken [update], one of the two
    updates of [processResumeAsync]. *)
Definition updated (update : resume_update) (resume : ResumeDocument)
  : ResumeDocument :=
  match update with
  | Completed analysis aiAnalysis =>
      {| record := with_processingStatus "completed" (record resume);
         processingError := processingError resume;
         stored := Some (analysis, aiAnalysis);
         isActive := isActive resume |}
  | Failed message =>
      {| record := with_processingStatus "failed" (record resume);
         processingError := Some message;
         stored := stored resume;
         isActive := isActive resume |}
  end.

(** POST /api/resumes/:id/reprocess, after the ownership middleware
    loaded [resume]; [accepts] is the database's answer to the save.
    Starting [processResumeAsync] is not part of the response. *)
Definition postReprocess (accepts : ResumeDocument -> bool)
  (resume : ResumeDocument) : response * ResumeDocument :=
  if processingStatus (record resume) =? "processing" then
    ({| status := 400; message := "Resume is already being processed" |},
     resume)
  else
    let reset :=
      {| record := with_processingStatus "processing" (record resume);
         processingError := None;
         stored := stored resume;
         isActive := isActive resume |} in
    if accepts reset then
      ({| status := 200; message := "Resume reprocessing initiated" |}, reset)
    else
      ({| status := 500;
          message := "Server error while reprocessing resume" |}, resume).

(** The [progress] member of GET /api/resumes/:id/status. *)
Definition progress (resume : ResumeDocument) : nat :=
  if processingStatus (record resume) =? "completed" then 100
  else if processingStatus (record resume) =? "processing" then 50
  else 0.

(** DELETE /api/resumes/:id: the soft delete, then the file. A failure to
    delete the file is logged and changes nothing. *)
Definition deleteResume (accepts : ResumeDocument -> bool) (disk : storage)
  (resume : ResumeDocument) (st : server_state)
  : response * ResumeDocument * server_state :=
  let inactive :=
    {| record := record resume;
       processingError := processingError resume;
       stored := stored resume;
       isActive := false |} in
  if accepts inactive then
    ({| status := 200; message := "Resume deleted successfully" |},
     inactive, deleteFile_caught disk 0 (filePath (record resume)) st)
  else
    ({| status := 500; message := "Server error while deleting resume" |},
     resume, st).

End ResumeLifecycle.

(** * Properties *)

(** ** Skill confidence *)

Section SkillConfidence.

Import JSString JSNumber ResumeProcessor.
Open Scope string_scope.

Definition compiles (skill : string) : bool :=
  match RegExp.parse skill with
  | Returns _ => true
  | _ => false
  end.

(** Every keyword of the table but [c++] is the source of a regular
    expression of the fragment. *)
Lemma skillKeywords_compile :
  forallb (fun skill => (skill =? "c++") || compiles skill) skillKeywords
  = true.
Proof. vm_compute. reflexivity. Qed.

Lemma compiles_parse (skill : string) :
  compiles skill = true -> exists re, RegExp.parse skill = Returns re.
Proof.
  unfold compiles. destruct (RegExp.parse skill) as [re| |];
    try discriminate. intros _. exists re. reflexivity.
Qed.

Lemma keyword_compiles (skill : string) :
  In skill skillKeywords -> skill <> "c++" ->
  exists re, RegExp.parse skill = Returns re.
Proof.
  intros Hin Hne. apply compiles_parse.
  pose proof skillKeywords_compile as Hall.
  rewrite forallb_forall in Hall. specialize (Hall skill Hin).
  apply orb_true_iff in Hall. destruct Hall as [Heq | Hc]; [|exact Hc].
  apply String.eqb_eq in Heq. contradiction.
Qed.

Lemma bump_fold (test : string -> bool) (words : list string) (c : float) :
  fold_left (fun confidence word =>
               if test word then (confidence + 0.1)%float else confidence)
            words c
  = Nat.iter (List.length (filter test words)) (fun c => (c + 0.1)%float) c.
Proof.
  revert c. induction words as [|w words IH]; intro c; cbn [fold_left filter].
  - reflexivity.
  - destruct (test w); rewrite IH; [|reflexivity].
    cbn [List.length]. rewrite Nat.iter_succ_r. reflexivity.
Qed.

Lemma calculateSkillConfidence_compiled (text skill : string)
  (re : RegExp.pattern) :
  RegExp.parse skill = Returns re ->
  calculateSkillConfidence text skill
  = Returns (confidence_of (RegExp.count_matches re text)
                           (reinforcement_count text skill)).
Proof.
  intro H. unfold calculateSkillConfidence, confidence_of, reinforcement_count.
  rewrite H. cbn [bind]. rewrite bump_fold. reflexivity.
Qed.

Lemma iter_bump_nonneg (r : nat) (c : float) :
  nonneg c -> nonneg (Nat.iter r (fun c => (c + 0.1)%float) c).
Proof.
  intro Hc. induction r as [|r IH]; cbn [Nat.iter nat_rect].
  - exact Hc.
  - apply add_nonneg; [exact IH | reflexivity].
Qed.

Lemma confidence_of_range (n r : nat) :
  (0 <=? confidence_of n r)%float = true
  /\ (confidence_of n r <=? 1)%float = true.
Proof.
  unfold confidence_of. apply Math_min_one_range, iter_bump_nonneg.
  apply Math_min_nonneg; [reflexivity|].
  apply add_nonneg; [reflexivity|].
  apply mul_tenth_nonneg, of_nat_nonneg.
Qed.

(** C2 (as amended). For every text and every keyword of the table other
    than [c++]: the keyword is the source of a regular expression, and the
    confidence is the base [0.3 + 0.1 * occurrences] capped at 0.9, raised
    by 0.1 once for each of the five context words found next to the
    keyword, and capped at 1, all in binary64 arithmetic, where the
    occurrences are the matches of that expression in the text; it lies in
    [0, 1]; one occurrence and no context word give 0.4; three occurrences
    and one context word give 0.7000000000000001, the binary64 neighbour of
    0.7. *)
Theorem calculateSkillConfidence_formula (text skill : string) :
  In skill skillKeywords -> skill <> "c++" ->
  exists re,
    RegExp.parse skill = Returns re
    /\ let n := RegExp.count_matches re text in
       let r := reinforcement_count text skill in
       calculateSkillConfidence text skill = Returns (confidence_of n r)
       /\ ((0 <=? confidence_of n r)%float = true
           /\ (confidence_of n r <=? 1)%float = true)
       /\ (n = 1%nat -> r = 0%nat -> confidence_of n r = 0.4%float)
       /\ (n = 3%nat -> r = 1%nat ->
           confidence_of n r = 0.7000000000000001%float).
Proof.
  intros Hin Hne. destruct (keyword_compiles skill Hin Hne) as [re H].
  exists re. split; [exact H|]. intros n r. split; [|split; [|split]].
  - apply calculateSkillConfidence_compiled, H.
  - apply confidence_of_range.
  - intros -> ->. reflexivity.
  - intros -> ->. reflexivity.
Qed.

Lemma python_is_keyword : In "python" skillKeywords /\ "python" <> "c++".
Proof. split; [right; left; reflexivity | discriminate]. Defined.

Lemma calculateSkillConfidence_formula_witness :
  (In "python" skillKeywords /\ "python" <> "c++")
  /\ calculateSkillConfidence "expert python python python" "python"
     = Returns 0.7000000000000001%float.
Proof.
  split; [exact python_is_keyword|].
  destruct (calculateSkillConfidence_formula
              "expert python python python" "python"
              (proj1 python_is_keyword) (proj2 python_is_keyword))
    as [re [Hre [H _]]].
  rewrite H. injection Hre as <-. reflexivity.
Defined.

(** C2, the claim as written fails twice: the keyword [c++] has no
    confidence at all, and three occurrences with one context word do not
    give 0.7. *)
Lemma calculateSkillConfidence_counterexample :
  calculateSkillConfidence "c++" "c++"
  = Throws (RegExp.nothing_to_repeat "c++")
  /\ calculateSkillConfidence "expert python python python" "python"
     = Returns 0.7000000000000001%float
  /\ 0.7000000000000001%float <> 0.7%float.
Proof.
  split; [reflexivity|]. split; [reflexivity|].
  intro H. discriminate H.
Qed.

End SkillConfidence.

(** ** Regular expressions: the match count is well defined *)

Section RegExpFacts.

Import RegExp.

Definition shortens (k : continuation) : Prop :=
  forall s r, k s = Some r -> (String.length r <= String.length s)%nat.

Lemma one_shortens (a : atom) (k : continuation) :
  shortens k -> shortens (one a k).
Proof.
  intros Hk s r. unfold one. destruct s as [|c s]; [discriminate|].
  destruct (atom_matches a c); [|discriminate].
  intro H. apply Hk in H. cbn. lia.
Qed.

Lemma star_shortens (a : atom) (greedy : bool) (k : continuation) :
  shortens k -> shortens (star a greedy k).
Proof.
  intros Hk s. induction s as [|c s IH]; intros r; cbn [star].
  - apply Hk.
  - destruct (atom_matches a c); [|apply Hk].
    destruct greedy; unfold or_else.
    + destruct (star a true k s) as [r'|] eqn:E.
      * intro H. injection H as <-. specialize (IH _ eq_refl). cbn. lia.
      * apply Hk.
    + destruct (k (String c s)) as [r'|] eqn:E.
      * intro H. injection H as <-. apply Hk, E.
      * intro H. specialize (IH _ H). cbn. lia.
Qed.

Lemma opt_shortens (a : atom) (greedy : bool) (k : continuation) :
  shortens k -> shortens (opt a greedy k).
Proof.
  intros Hk s r. unfold opt, or_else.
  pose proof (one_shortens a k Hk s) as H1.
  destruct greedy.
  - destruct (one a k s) as [r'|] eqn:E.
    + intro H. injection H as <-. apply H1. reflexivity.
    + apply Hk.
  - destruct (k s) as [r'|] eqn:E.
    + intro H. injection H as <-. apply Hk, E.
    + apply H1.
Qed.

Lemma match_here_shortens (p : pattern) : shortens (match_here p).
Proof.
  induction p as [|[a q] p IH]; cbn [match_here].
  - intros s r H. injection H as <-. lia.
  - destruct q as [|g|g|g].
    + apply one_shortens, IH.
    + apply star_shortens, IH.
    + apply one_shortens, star_shortens, IH.
    + apply opt_shortens, IH.
Qed.

(** Fuel beyond [S (length s)] changes nothing: the count is the count of
    the complete search. *)
Lemma count_matches_fuel_enough (p : pattern) (fuel : nat) (s : string) :
  (String.length s < fuel)%nat ->
  count_matches_fuel fuel p s = count_matches p s.
Proof.
  unfold count_matches.
  assert (H : forall f1 f2 s, (String.length s < f1)%nat ->
                              (String.length s < f2)%nat ->
                              count_matches_fuel f1 p s
                              = count_matches_fuel f2 p s).
  { induction f1 as [|f1 IH]; intros f2 t H1 H2; [lia|].
    destruct f2 as [|f2]; [lia|]. cbn [count_matches_fuel].
    destruct (match_here p t) as [r|] eqn:E.
    - destruct (String.length r <? String.length t)%nat eqn:L.
      + apply Nat.ltb_lt in L. f_equal. apply IH; lia.
      + destruct t as [|c t]; [reflexivity|]. cbn in H1, H2.
        f_equal. apply IH; lia.
    - destruct t as [|c t]; [reflexivity|]. cbn in H1, H2. apply IH; lia. }
  intro Hf. apply H; [exact Hf | lia].
Qed.

End RegExpFacts.

(** ** Skill extraction *)

Section SkillExtraction.

Import JSString JSNumber ResumeProcessor.
Open Scope string_scope.

Lemma forEach_app {A S : Type} (body : S -> A -> outcome S)
  (l1 l2 : list A) (s : S) :
  forEach body (l1 ++ l2) s = bind (forEach body l1 s) (forEach body l2).
Proof.
  revert s. induction l1 as [|a l1 IH]; intro s; cbn [forEach app bind].
  - reflexivity.
  - destruct (body s a) as [s'| |]; cbn [bind]; [apply IH|reflexivity..].
Qed.

(** The scan of a list of keywords returns when each keyword present in
    the text compiles. *)
Lemma forEach_step_returns (textLower : string) (keywords : list string) :
  (forall skill, In skill keywords ->
                 includes textLower skill = true -> compiles skill = true) ->
  forall found, exists found',
    forEach (extractSkills_step textLower) keywords found = Returns found'.
Proof.
  induction keywords as [|k keywords IH]; intros H found; cbn [forEach].
  - exists found. reflexivity.
  - unfold extractSkills_step at 1.
    destruct (includes textLower k) eqn:E.
    + destruct (compiles_parse k (H k (or_introl eq_refl) E)) as [re Hre].
      rewrite (calculateSkillConfidence_compiled _ _ _ Hre). cbn [bind].
      apply IH. intros skill Hin. apply H. right. exact Hin.
    + cbn [bind]. apply IH. intros skill Hin. apply H. right. exact Hin.
Qed.

(** A text that does not mention [c++] is scanned to the end. *)
Lemma extractSkills_returns (text : string) :
  includes (toLowerCase text) "c++" = false ->
  exists found, extractSkills text = Returns found.
Proof.
  intro Hno. unfold extractSkills. apply forEach_step_returns.
  intros skill Hin Hinc.
  destruct (String.eqb_spec skill "c++") as [->|Hne]; [congruence|].
  destruct (keyword_compiles skill Hin Hne) as [re Hre].
  unfold compiles. rewrite Hre. reflexivity.
Qed.

(** A text that mentions [c++], in any case, makes the scan throw. *)
Lemma extractSkills_throws (text : string) :
  includes (toLowerCase text) "c++" = true ->
  extractSkills text = Throws (RegExp.nothing_to_repeat "c++").
Proof.
  intro Hinc. unfold extractSkills.
  change skillKeywords
    with (["javascript"; "python"; "java"] ++ skipn 3 skillKeywords)%list.
  rewrite forEach_app.
  destruct (forEach_step_returns (toLowerCase text)
              ["javascript"; "python"; "java"]
              ltac:(intros skill [<-|[<-|[<-|[]]]] _; reflexivity) [])
    as [found Hfound].
  rewrite Hfound. cbn [bind].
  change (skipn 3 skillKeywords) with ("c++" :: skipn 4 skillKeywords).
  cbn [forEach]. unfold extractSkills_step at 1. rewrite Hinc.
  assert (Hc : calculateSkillConfidence (toLowerCase text) "c++"
               = Throws (RegExp.nothing_to_repeat "c++")) by reflexivity.
  rewrite Hc. reflexivity.
Qed.

End SkillExtraction.

Section SkillExtractionFails.

Import JSString ResumeProcessor ResumeRoutes.
Open Scope string_scope.

(** The scan stays within the embedded fragment on every text. *)
Lemma extractSkills_modelled (text : string) :
  extractSkills text <> Unmodelled.
Proof.
  destruct (includes (toLowerCase text) "c++") eqn:E.
  - rewrite (extractSkills_throws text E). discriminate.
  - destruct (extractSkills_returns text E) as [found ->]. discriminate.
Qed.

(** C10 fails on the code. [extractSkills] is not total: on a text that
    mentions C++ the keyword [c++] reaches [new RegExp(skill, 'gi')], whose
    source [c++] is a syntax error (nothing to repeat); the scan throws,
    and the background processing of that resume ends as failed, whatever
    the analysis service would have answered: the one update it hands to
    the database is the failure with the message of that error. *)
Theorem extractSkills_throws_on_cpp :
  extractSkills "Senior C++ developer"
  = Throws (RegExp.nothing_to_repeat "c++")
  /\ (forall text, includes (toLowerCase text) "c++" = true ->
                   extractSkills text
                   = Throws (RegExp.nothing_to_repeat "c++"))
  /\ (forall scans env db fileName,
        processResumeAsync scans env db "Senior C++ developer" fileName
        = findByIdAndUpdate db
            (Failed "Invalid regular expression: /c++/gi: Nothing to repeat")).
Proof.
  assert (H : extractSkills "Senior C++ developer"
              = Throws (RegExp.nothing_to_repeat "c++")).
  { apply extractSkills_throws. reflexivity. }
  split; [exact H|]. split; [exact extractSkills_throws|].
  intros scans env db fileName.
  unfold processResumeAsync, extractBasicInfo. rewrite H. reflexivity.
Qed.

End SkillExtractionFails.

(** ** Text normalisation *)

Section CleanText.

Import JSString ResumeProcessor.
Open Scope string_scope.

(** Some two neighbouring units of the string are both white space. *)
Fixpoint adjacent_ws (s : string) : bool :=
  match s with
  | String a ((String b _) as s') =>
      (isWhiteSpace a && isWhiteSpace b) || adjacent_ws s'
  | _ => false
  end.

Definition starts_with_ws (s : string) : bool :=
  match s with
  | String c _ => isWhiteSpace c
  | EmptyString => false
  end.

Lemma adjacent_ws_cons (c : ascii) (s : string) :
  adjacent_ws (String c s)
  = (isWhiteSpace c && starts_with_ws s) || adjacent_ws s.
Proof.
  destruct s as [|d s]; cbn; [rewrite andb_false_r|]; reflexivity.
Qed.

Lemma space_run_short (run : string) :
  (String.length (space_run run) <= 1)%nat.
Proof.
  unfold space_run. destruct (2 <=? String.length run)%nat eqn:E.
  - cbn. lia.
  - apply Nat.leb_gt in E. lia.
Qed.

Lemma adjacent_ws_after_short (w : string) (c : ascii) (s : string) :
  (String.length w <= 1)%nat -> isWhiteSpace c = false ->
  adjacent_ws (w ++ String c s) = adjacent_ws s.
Proof.
  intros Hw Hc. destruct w as [|a [|b w]]; cbn [append].
  - rewrite adjacent_ws_cons, Hc. cbn.
    destruct s; reflexivity.
  - rewrite !adjacent_ws_cons. cbn [starts_with_ws].
    rewrite Hc, andb_false_r. reflexivity.
  - cbn in Hw. lia.
Qed.

Lemma collapse_whitespace_from_tidy (s run : string) :
  adjacent_ws (collapse_whitespace_from run s) = false.
Proof.
  revert run. induction s as [|c s IH]; intro run;
    cbn [collapse_whitespace_from].
  - pose proof (space_run_short run) as H.
    destruct (space_run run) as [|a [|b w]]; cbn in *; try reflexivity; lia.
  - destruct (isWhiteSpace c) eqn:E; [apply IH|].
    rewrite (adjacent_ws_after_short _ _ _ (space_run_short run) E).
    apply IH.
Qed.

Lemma trimStart_tidy (s : string) :
  adjacent_ws s = false -> adjacent_ws (trimStart s) = false.
Proof.
  induction s as [|c s IH]; [reflexivity|]. intro H. cbn [trimStart].
  destruct (isWhiteSpace c); [|exact H].
  apply IH. rewrite adjacent_ws_cons in H.
  apply orb_false_iff in H. tauto.
Qed.

Lemma trimEnd_head (s : string) :
  starts_with_ws (trimEnd s) = true -> starts_with_ws s = true.
Proof.
  destruct s as [|c s]; [discriminate|]. cbn [trimEnd].
  destruct (trimEnd s); [destruct (isWhiteSpace c) eqn:E|]; cbn; congruence.
Qed.

Lemma trimEnd_tidy (s : string) :
  adjacent_ws s = false -> adjacent_ws (trimEnd s) = false.
Proof.
  induction s as [|c s IH]; [reflexivity|]. intro H.
  rewrite adjacent_ws_cons in H. apply orb_false_iff in H.
  destruct H as [H1 H2]. specialize (IH H2). cbn [trimEnd].
  destruct (trimEnd s) as [|d t] eqn:E.
  - destruct (isWhiteSpace c); reflexivity.
  - rewrite adjacent_ws_cons, IH, orb_false_r.
    destruct (isWhiteSpace c) eqn:Ec; [|reflexivity]. cbn [andb].
    destruct (starts_with_ws (String d t)) eqn:Ed; [|reflexivity].
    rewrite <- E in Ed. apply trimEnd_head in Ed.
    rewrite Ed in H1. discriminate H1.
Qed.

(** Whatever the input, no two neighbouring units of the normalised text
    are both white space. *)
Lemma cleanText_tidy (text : string) : adjacent_ws (cleanText text) = false.
Proof.
  unfold cleanText, trim, collapse_whitespace.
  apply trimEnd_tidy, trimStart_tidy, collapse_whitespace_from_tidy.
Qed.

Lemma adjacent_ws_inside (pre post : string) (a b : ascii) :
  isWhiteSpace a = true -> isWhiteSpace b = true ->
  adjacent_ws (pre ++ String a (String b post)) = true.
Proof.
  intros Ha Hb. induction pre as [|c pre IH]; cbn [append].
  - cbn. rewrite Ha, Hb. reflexivity.
  - rewrite adjacent_ws_cons, IH. apply orb_true_r.
Qed.

Definition two_newlines : string := String LF (String LF EmptyString).

(** The string holds the unit [c]. *)
Fixpoint has (c : ascii) (s : string) : bool :=
  match s with
  | EmptyString => false
  | String a s' => (a =? c)%char || has c s'
  end.

Lemma has_app (c : ascii) (s t : string) :
  has c (s ++ t) = has c s || has c t.
Proof.
  induction s as [|a s IH]; cbn [append has]; [reflexivity|].
  rewrite IH, orb_assoc. reflexivity.
Qed.

Lemma replace_cr_no_CR (s : string) : has CR (replace_cr s) = false.
Proof.
  induction s as [|a s IH]; cbn [replace_cr has]; [reflexivity|].
  rewrite IH, orb_false_r.
  destruct (Ascii.eqb_spec a CR) as [->|Hne]; [reflexivity|].
  apply Ascii.eqb_neq, Hne.
Qed.

Lemma newline_run_no_CR (n : nat) : has CR (newline_run n) = false.
Proof.
  unfold newline_run. destruct (3 <=? n)%nat; [reflexivity|].
  induction n as [|n IH]; cbn; [reflexivity | exact IH].
Qed.

Lemma collapse_newlines_from_no_CR (s : string) (run : nat) :
  has CR s = false -> has CR (collapse_newlines_from run s) = false.
Proof.
  revert run. induction s as [|a s IH]; intros run H;
    cbn [collapse_newlines_from].
  - apply newline_run_no_CR.
  - cbn [has] in H. apply orb_false_iff in H. destruct H as [Ha Hs].
    destruct (a =? LF)%char; [apply IH, Hs|].
    rewrite has_app, newline_run_no_CR. cbn [has orb].
    rewrite Ha. apply IH, Hs.
Qed.

Lemma space_run_no_CR (run : string) :
  has CR run = false -> has CR (space_run run) = false.
Proof.
  unfold space_run. destruct (2 <=? String.length run)%nat;
    [reflexivity | tauto].
Qed.

Lemma collapse_whitespace_from_no_CR (s run : string) :
  has CR run = false -> has CR s = false ->
  has CR (collapse_whitespace_from run s) = false.
Proof.
  revert run. induction s as [|a s IH]; intros run Hr H;
    cbn [collapse_whitespace_from].
  - apply space_run_no_CR, Hr.
  - cbn [has] in H. apply orb_false_iff in H. destruct H as [Ha Hs].
    destruct (isWhiteSpace a).
    + apply IH; [|exact Hs]. rewrite has_app, Hr. cbn. rewrite Ha.
      reflexivity.
    + rewrite has_app, (space_run_no_CR _ Hr). cbn [has orb].
      rewrite Ha. apply IH; [reflexivity | exact Hs].
Qed.

Lemma trimStart_no (c : ascii) (s : string) :
  has c s = false -> has c (trimStart s) = false.
Proof.
  induction s as [|a s IH]; [reflexivity|]. intro H. cbn [trimStart].
  destruct (isWhiteSpace a); [|exact H].
  cbn [has] in H. apply orb_false_iff in H. apply IH. tauto.
Qed.

Lemma trimEnd_no (c : ascii) (s : string) :
  has c s = false -> has c (trimEnd s) = false.
Proof.
  induction s as [|a s IH]; [reflexivity|]. intro H.
  cbn [has] in H. apply orb_false_iff in H. destruct H as [Ha Hs].
  specialize (IH Hs). cbn [trimEnd].
  destruct (trimEnd s) as [|d t].
  - destruct (isWhiteSpace a); cbn [has]; [reflexivity|].
    rewrite Ha. reflexivity.
  - cbn [has] in *. rewrite Ha, IH. reflexivity.
Qed.

(** Whatever the input, the normalised text holds no carriage return. *)
Lemma cleanText_no_CR (text : string) : has CR (cleanText text) = false.
Proof.
  unfold cleanText, trim, collapse_whitespace, collapse_newlines.
  apply trimEnd_no, trimStart_no, collapse_whitespace_from_no_CR;
    [reflexivity|].
  apply collapse_newlines_from_no_CR, replace_cr_no_CR.
Qed.

(** C6 fails on the code. The last replacement, [/\s{2,}/g], takes line
    feeds for white space: the two line feeds that [/\n{3,}/g] leaves
    become one space, so paragraphs are joined, where the normalisation as
    specified keeps the blank line; and no output at all holds two line
    feeds in a row. What does hold of every output: no carriage return,
    and no two neighbouring white-space units (so no run of three line
    feeds either). *)
Theorem cleanText_joins_paragraphs :
  let text := "Summary" ++ String LF (String LF (String LF "Skills")) in
  cleanText text = "Summary Skills"
  /\ cleanText_spec text = "Summary" ++ two_newlines ++ "Skills"
  /\ (forall any, ~ substring_of two_newlines (cleanText any))
  /\ (forall any, has CR (cleanText any) = false)
  /\ (forall any, adjacent_ws (cleanText any) = false).
Proof.
  split; [reflexivity|]. split; [reflexivity|].
  split; [|split; [exact cleanText_no_CR | exact cleanText_tidy]].
  intros any [pre [post H]].
  pose proof (cleanText_tidy any) as Ht. rewrite H in Ht.
  unfold two_newlines in Ht. cbn [append] in Ht.
  rewrite adjacent_ws_inside in Ht by reflexivity. discriminate Ht.
Qed.

End CleanText.

(** ** Extraction failures *)

Section ExtractionFailures.

Import JSString ResumeProcessor ResumeRoutes.
Open Scope string_scope.

Definition supported (mimeType : string) : Prop :=
  mimeType = mime_pdf \/ mimeType = mime_doc \/ mimeType = mime_docx.

(** A stored file of a supported type that its decoder rejects. *)
Definition undecodable (env : extraction_env) (f : upload) : Prop :=
  exists buffer,
    readFile env (path f) = Some buffer
    /\ ((mimetype f = mime_pdf /\ pdfParse env buffer = None)
        \/ ((mimetype f = mime_doc \/ mimetype f = mime_docx)
            /\ extractRawText env buffer = None)).

Definition extraction_failure : js_error :=
  Error "Failed to extract text from resume".

Definition server_error : response :=
  {| status := 500; message := "Server error during resume upload" |}.

Lemma extractText_unsupported (env : extraction_env)
  (filePath mimeType : string) :
  ~ supported mimeType ->
  extractText env filePath mimeType = Throws extraction_failure.
Proof.
  unfold supported. intro H. unfold extractText.
  destruct (readFile env filePath) as [buffer|]; cbn [await bind try_catch];
    [|reflexivity].
  destruct (String.eqb_spec mimeType mime_pdf) as [->|_]; [tauto|].
  destruct (String.eqb_spec mimeType mime_doc) as [->|_]; [tauto|].
  destruct (String.eqb_spec mimeType mime_docx) as [->|_]; [tauto|].
  reflexivity.
Qed.

Lemma extractText_undecodable (env : extraction_env) (f : upload) :
  undecodable env f ->
  extractText env (path f) (mimetype f) = Throws extraction_failure.
Proof.
  intros [buffer [Hr [[-> Hp] | [[-> | ->] Hw]]]]; unfold extractText;
    rewrite Hr; cbn [await bind]; cbn [String.eqb Ascii.eqb Bool.eqb];
    cbn [mime_pdf mime_doc mime_docx String.eqb Ascii.eqb Bool.eqb andb orb];
    unfold extractFromPDF, extractFromWord;
    rewrite ?Hp, ?Hw; reflexivity.
Qed.

Lemma deleteFile_caught_cases (disk : storage) (k : nat) (filePath : string)
  (st : server_state) :
  (unlink disk k filePath = None
   /\ deleteFile_caught disk k filePath st = removed filePath st)
  \/ (unlink disk k filePath <> None
      /\ deleteFile_caught disk k filePath st = st).
Proof.
  unfold deleteFile_caught, deleteFile.
  destruct (unlink disk k filePath) as [code|].
  - right. split; [discriminate|]. destruct (code =? "ENOENT"); reflexivity.
  - left. split; reflexivity.
Qed.

Lemma deleteFile_caught_resumes (disk : storage) (k : nat)
  (filePath : string) (st : server_state) :
  resumes (deleteFile_caught disk k filePath st) = resumes st.
Proof.
  destruct (deleteFile_caught_cases disk k filePath st) as [[_ ->] | [_ ->]];
    reflexivity.
Qed.

(** C8 (as amended). For every stored file whose declared type is none of
    pdf, doc, docx, and for every file of such a type that cannot be
    decoded, [extractText] throws, and it throws the same error, "Failed
    to extract text from resume", in both cases (the message naming the
    unsupported type only reaches the log); the upload is answered with
    status 500 and no resume record is created. *)
Theorem extraction_failures_look_alike (env : extraction_env)
  (disk : storage) (f : upload) (st : server_state) :
  ~ supported (mimetype f) \/ undecodable env f ->
  extractText env (path f) (mimetype f) = Throws extraction_failure
  /\ postResume env disk (Some f) st
     = Returns (server_error, deleteFile_caught disk 0 (path f) st)
  /\ resumes (deleteFile_caught disk 0 (path f) st) = resumes st.
Proof.
  intro H.
  assert (He : extractText env (path f) (mimetype f)
               = Throws extraction_failure).
  { destruct H as [H|H];
      [apply extractText_unsupported | apply extractText_undecodable];
      exact H. }
  split; [exact He|]. split; [|apply deleteFile_caught_resumes].
  unfold postResume. rewrite He. reflexivity.
Qed.

Definition plain_text_upload : upload :=
  {| path := "uploads/resumes/resume-1.txt";
     mimetype := "text/plain";
     filename := "resume-1.txt";
     originalname := "notes.txt";
     size := 12 |}.

Definition broken_pdf_upload : upload :=
  {| path := "uploads/resumes/resume-2.pdf";
     mimetype := "application/pdf";
     filename := "resume-2.pdf";
     originalname := "cv.pdf";
     size := 9 |}.

(** Every file reads; the PDF decoder rejects what it is given. *)
Definition disk : extraction_env :=
  {| readFile := fun _ => Some "not a pdf";
     pdfParse := fun _ => None;
     extractRawText := fun buffer => Some buffer |}.

(** A file system and a database that do all they are asked. *)
Definition working : storage :=
  {| unlink := fun _ _ => None; Resume_create := fun _ => None |}.

Definition empty_server : server_state := {| resumes := []; files := [] |}.

(** The upload middleware lets through exactly the supported types, so in
    the route as deployed an unsupported type is refused before
    [extractText] is reached. *)
Theorem resumeFileFilter_supported (mimeType : string) :
  resumeFileFilter mimeType = true <-> supported mimeType.
Proof.
  unfold resumeFileFilter, allowedTypes, supported. cbn [existsb].
  rewrite !orb_true_iff, !String.eqb_eq. intuition discriminate.
Qed.

Lemma extraction_failures_look_alike_witness :
  ~ supported (mimetype plain_text_upload)
  /\ extractText disk (path plain_text_upload) (mimetype plain_text_upload)
     = Throws extraction_failure
  /\ postResume disk working (Some plain_text_upload) empty_server
     = Returns (server_error, empty_server).
Proof.
  assert (H : ~ supported (mimetype plain_text_upload)).
  { intros [H|[H|H]]; discriminate H. }
  split; [exact H|].
  destruct (extraction_failures_look_alike disk working plain_text_upload
              empty_server (or_introl H)) as [H1 [H2 _]].
  split; [exact H1 | exact H2].
Defined.

(** C8, the claim as written fails: the caller of [extractText] gets one
    and the same error for an unsupported type and for a PDF that does not
    decode. *)
Lemma extraction_errors_counterexample :
  extractText disk (path plain_text_upload) (mimetype plain_text_upload)
  = Throws (Error "Failed to extract text from resume")
  /\ extractText disk (path broken_pdf_upload) (mimetype broken_pdf_upload)
     = Throws (Error "Failed to extract text from resume").
Proof. split; reflexivity. Qed.

End ExtractionFailures.

(** ** Match scoring *)

Section Matching.

Import JSString JSNumber ResumeModel.
Open Scope string_scope.

(** One name is a substring of the other. *)
Definition matches_bidirectionally (a b : string) : Prop :=
  substring_of a b \/ substring_of b a.

(** The table of the specification: level, experience threshold, bonus,
    penalty. *)
Definition level_table : list (string * (nat * float * float)) :=
  [ ("entry", (0%nat, 10, -10));
    ("junior", (1%nat, 10, -5));
    ("mid", (3%nat, 10, -5));
    ("senior", (5%nat, 10, -10));
    ("lead", (7%nat, 10, -15));
    ("executive", (10%nat, 10, -20)) ]%float.

Definition levelAdjustment_spec (level : string) (experienceCount : nat)
  : option float :=
  match find (fun row => fst row =? level) level_table with
  | Some (_, (threshold, bonus, penalty)) =>
      Some (if (threshold <=? experienceCount)%nat then bonus else penalty)
  | None => None
  end.

Definition base_score (matched listed : nat) : float :=
  match listed with
  | O => 0
  | S _ => of_nat matched / of_nat listed * 100
  end%float.

Definition lower_names {A : Type} (name : A -> string) (l : list A)
  : list string :=
  map (fun x => toLowerCase (name x)) l.

Lemma bidirectional_test (a b : string) :
  includes b a || includes a b = true <-> matches_bidirectionally a b.
Proof.
  unfold matches_bidirectionally.
  rewrite orb_true_iff, !includes_spec. tauto.
Qed.

Lemma filter_by_spec {A : Type} (test keep : A -> bool) (P : A -> Prop)
  (l : list A) :
  (forall a, test a = true <-> P a) ->
  (forall a, keep a = true <-> P a) ->
  filter test l = filter keep l.
Proof.
  intros Ht Hk. apply filter_ext. intro a.
  apply eq_true_iff_eq. rewrite Ht, Hk. tauto.
Qed.

Lemma lookup_levelAdjustment (level : string) (experienceYears : nat)
  (adjustment : float) :
  levelAdjustment_spec level experienceYears = Some adjustment ->
  lookup_or_zero (levelAdjustment experienceYears) level = Number adjustment.
Proof.
  unfold levelAdjustment_spec, level_table, lookup_or_zero, levelAdjustment.
  cbn [find fst snd].
  repeat match goal with
         | |- context [(?name =? level)%string] =>
             destruct (name =? level)%string;
             [ match goal with
               | |- context [(?t <=? experienceYears)%nat] =>
                   destruct (t <=? experienceYears)%nat
               end;
               intro H; injection H as <-; reflexivity | ]
         end.
  discriminate.
Qed.

(** C1. For every resume and job whose level is in the table:
    [matchedSkills] are the lower-cased resume skill names that match some
    lower-cased job skill name in either direction of substring
    containment, [missingSkills] the job skill names that match no resume
    skill name, and [matchScore] is
    [round (clamp (base + adjustment, 0, 100))] with
    [base = matched / listed * 100], 0 for a job that lists no skill, and
    the adjustment of the table. *)
Theorem calculateJobMatch_spec (this : Resume) (job : Job)
  (adjustment : float) :
  let resumeSkills := lower_names skill_name (analysis_skills this) in
  let jobSkills := lower_names job_skill_name (skills job) in
  let result := calculateJobMatch this job in
  levelAdjustment_spec (level job) (List.length (analysis_experience this))
  = Some adjustment ->
  (forall keep : string -> bool,
     (forall s, keep s = true <->
                exists j, In j jobSkills /\ matches_bidirectionally s j) ->
     matchedSkills result = filter keep resumeSkills)
  /\ (forall keep : string -> bool,
        (forall j, keep j = true <->
                   ~ exists s, In s resumeSkills
                               /\ matches_bidirectionally j s) ->
        missingSkills result = filter keep jobSkills)
  /\ matchScore result
     = Math_round
         (Math_max 0
            (Math_min 100
               (base_score (List.length (matchedSkills result))
                           (List.length jobSkills)
                + adjustment)%float)).
Proof.
  intros resumeSkills jobSkills result Hadj. split; [|split].
  - intros keep Hkeep. cbn [result calculateJobMatch matchedSkills].
    apply filter_by_spec
      with (P := fun s => exists j, In j jobSkills
                                    /\ matches_bidirectionally s j);
      [|exact Hkeep].
    intro s. rewrite existsb_exists.
    split; intros [j [Hin Hj]]; exists j; (split; [exact Hin|]);
      apply bidirectional_test; exact Hj.
  - intros keep Hkeep. cbn [result calculateJobMatch missingSkills].
    apply filter_by_spec
      with (P := fun j => ~ exists s, In s resumeSkills
                                      /\ matches_bidirectionally j s);
      [|exact Hkeep].
    intro j. rewrite negb_true_iff, <- not_true_iff_false, existsb_exists.
    split; intros Hno [s [Hin Hs]]; apply Hno; exists s;
      (split; [exact Hin|]); apply bidirectional_test; exact Hs.
  - cbn [result calculateJobMatch matchScore matchedSkills].
    rewrite (lookup_levelAdjustment _ _ _ Hadj). cbn [adjust_within_bounds].
    subst resumeSkills jobSkills. unfold lower_names.
    rewrite !length_map.
    destruct (skills job) as [|j0 js];
      cbn [List.length Nat.ltb Nat.leb base_score]; reflexivity.
Qed.

(** A level outside the table that names no member of [Object.prototype]
    leaves the base score as it is; one that names such a member does
    not. *)
Lemma lookup_unlisted_level (level : string) (experienceYears : nat) :
  levelAdjustment_spec level experienceYears = None ->
  lookup_or_zero (levelAdjustment experienceYears) level
  = if existsb (String.eqb level) Object_prototype_names then Inherited
    else Number 0.
Proof.
  unfold levelAdjustment_spec, level_table, lookup_or_zero, levelAdjustment.
  cbn [find fst snd].
  repeat match goal with
         | |- context [(?name =? level)%string] =>
             destruct (name =? level)%string; [discriminate|]
         end.
  reflexivity.
Qed.

Lemma lookup_inherited_level (level : string) (experienceYears : nat) :
  existsb (String.eqb level) Object_prototype_names = true ->
  lookup_or_zero (levelAdjustment experienceYears) level = Inherited.
Proof.
  intro H.
  assert (Hn : levelAdjustment_spec level experienceYears = None).
  { apply existsb_exists in H. destruct H as [name [Hin Heq]].
    apply String.eqb_eq in Heq. subst name.
    cbn [Object_prototype_names In] in Hin.
    repeat (destruct Hin as [<-|Hin]; [reflexivity|]). contradiction. }
  rewrite (lookup_unlisted_level _ _ Hn), H. reflexivity.
Qed.

Definition skill (n : string) : Skill :=
  {| skill_name := n; skill_category := "technical";
     skill_confidence := 0.5 |}.

Definition position (n : nat) : Experience :=
  {| title := "Developer " ++ nat_toString n; company := "Acme Inc";
     duration := "1 year"; description := "" |}.

Definition listed (n : string) : JobSkill :=
  {| job_skill_name := n; required := true |}.

(** The first scenario of the specification: three skills, four
    positions, a mid-level job asking for JavaScript and Python. *)
Definition scenario_resume : Resume :=
  {| analysis_skills := map skill ["javascript"; "react"; "node.js"];
     analysis_experience := map position [1; 2; 3; 4]%nat;
     aiAnalysis_overallScore := 75 |}.

Definition scenario_job : Job :=
  {| skills := map listed ["javascript"; "python"]; level := "mid" |}.

Lemma calculateJobMatch_spec_witness :
  levelAdjustment_spec "mid" 4 = Some 10%float
  /\ matchScore (calculateJobMatch scenario_resume scenario_job) = 60%float
  /\ matchedSkills (calculateJobMatch scenario_resume scenario_job)
     = ["javascript"]
  /\ missingSkills (calculateJobMatch scenario_resume scenario_job)
     = ["python"].
Proof.
  split; [reflexivity|].
  destruct (calculateJobMatch_spec scenario_resume scenario_job 10%float
              eq_refl) as [_ [_ H]].
  split; [rewrite H; reflexivity|]. split; reflexivity.
Defined.

End Matching.

(** ** Relevance reasons *)

Section RelevanceReasons.

Import JSString JSNumber ResumeModel.
Open Scope string_scope.

Definition alignment_message (matched : nat) : string :=
  "Strong skill alignment with " ++ nat_toString matched
  ++ " matching technical skills".
Definition experience_message : string :=
  "Relevant experience level matches job requirements".
Definition senior_message : string :=
  "Senior-level qualifications align with position requirements".
Definition technology_message : string :=
  "Core technology stack matches job requirements".
Definition generic_message : string :=
  "General experience and skills are relevant to this position".

Definition when (trigger : bool) (reason : string) : list string :=
  if trigger then [reason] else [].

(** The reasons of the rules that fire, in the order of the rules; the
    generic reason when none fires. *)
Definition reasons_spec (alignment experience senior technology : bool)
  (matched : nat) : list string :=
  match (when alignment (alignment_message matched)
         ++ when experience experience_message
         ++ when senior senior_message
         ++ when technology technology_message)%list with
  | [] => [generic_message]
  | fired => fired
  end.

(** Some matched skill holds the name of a canonical technology. *)
Definition names_technology (matchedSkills : list string) : Prop :=
  exists skill tech,
    In skill matchedSkills /\ In tech techSkills
    /\ substring_of tech (toLowerCase skill).

Lemma hasTechSkills_spec (matchedSkills : list string) :
  existsb (fun skill =>
             existsb (fun tech => includes (toLowerCase skill) tech)
                     techSkills)
          matchedSkills = true
  <-> names_technology matchedSkills.
Proof.
  unfold names_technology. rewrite existsb_exists. split.
  - intros [skill [Hin H]]. apply existsb_exists in H.
    destruct H as [tech [Ht H]]. apply includes_spec in H.
    exists skill, tech. tauto.
  - intros [skill [tech [Hin [Ht H]]]]. exists skill. split; [exact Hin|].
    apply existsb_exists. exists tech. split; [exact Ht|].
    apply includes_spec, H.
Qed.

Lemma bool_of_iff (b c : bool) (P : Prop) :
  (b = true <-> P) -> (c = true <-> P) -> b = c.
Proof. intros Hb Hc. apply eq_true_iff_eq. tauto. Qed.

(** C7 (as amended). The reasons are the messages of the four rules, in
    their fixed order, each present exactly when its trigger holds: more
    than three matched skills; at least two experience entries; a senior
    job together with an overall score above 85; some matched skill whose
    lower-cased name contains one of javascript, python, react, node.js,
    java, sql as a substring. When no rule fires the result is the single
    generic reason. *)
Theorem generateRelevanceReasons_rules (this : Resume)
  (matchedSkills : list string) (job : Job)
  (alignment experience senior technology : bool) :
  (alignment = true <-> 3 < List.length matchedSkills) ->
  (experience = true <-> 2 <= List.length (analysis_experience this)) ->
  (senior = true <->
     level job = "senior"
     /\ (85 <? aiAnalysis_overallScore this)%float = true) ->
  (technology = true <-> names_technology matchedSkills) ->
  generateRelevanceReasons this matchedSkills job
  = reasons_spec alignment experience senior technology
                 (List.length matchedSkills).
Proof.
  intros H1 H2 H3 H4. unfold generateRelevanceReasons.
  rewrite <- (bool_of_iff _ _ _ H1 (Nat.ltb_lt _ _)).
  rewrite <- (bool_of_iff _ _ _ H2 (Nat.leb_le _ _)).
  rewrite <- (bool_of_iff _ _ _ H4 (hasTechSkills_spec _)).
  assert (E3 : senior
               = (level job =? "senior")
                 && (85 <? aiAnalysis_overallScore this)%float).
  { apply eq_true_iff_eq. rewrite H3, andb_true_iff, String.eqb_eq. tauto. }
  rewrite <- E3.
  destruct alignment, experience, senior, technology; reflexivity.
Qed.

Definition junior_resume : Resume :=
  {| analysis_skills := [ {| skill_name := "MySQL";
                             skill_category := "other";
                             skill_confidence := 0.4 |} ];
     analysis_experience := [];
     aiAnalysis_overallScore := 75 |}.

Definition database_job : Job :=
  {| skills := [ {| job_skill_name := "mysql"; required := true |} ];
     level := "junior" |}.

Lemma names_technology_mysql : names_technology ["mysql"].
Proof.
  exists "mysql", "sql". split; [left; reflexivity|].
  split; [cbn; tauto|]. exists "my", "". reflexivity.
Defined.

Lemma generateRelevanceReasons_rules_witness :
  names_technology ["mysql"]
  /\ generateRelevanceReasons junior_resume ["mysql"] database_job
     = [technology_message].
Proof.
  split; [exact names_technology_mysql|].
  rewrite (generateRelevanceReasons_rules junior_resume ["mysql"]
             database_job false false false true).
  - reflexivity.
  - cbn. split; [discriminate | lia].
  - cbn. split; [discriminate | lia].
  - cbn. split; [discriminate | intros [H _]; discriminate H].
  - split; [intros _; exact names_technology_mysql | reflexivity].
Defined.

(** C7, the claim as written fails: a resume whose only matched skill is
    mysql, which is none of the six canonical names, still gets the
    core-technology reason. *)
Lemma generateRelevanceReasons_counterexample :
  matchedSkills (calculateJobMatch junior_resume database_job) = ["mysql"]
  /\ relevanceReasons (calculateJobMatch junior_resume database_job)
     = ["Core technology stack matches job requirements"]
  /\ ~ In "mysql" techSkills.
Proof.
  split; [reflexivity|]. split; [reflexivity|].
  cbn. intros [H|[H|[H|[H|[H|[H|[]]]]]]]; discriminate H.
Qed.

End RelevanceReasons.

(** ** Assembling the stored analysis *)

Section Assembling.

Import JSString JSValue ResumeRoutes.
Open Scope string_scope.

Lemma choose_spec {A : Type} (heuristic : list A) (provided : option value) :
  (heuristic <> [] -> choose heuristic provided = Heuristic heuristic)
  /\ (heuristic = [] -> choose heuristic provided = Provided provided).
Proof.
  unfold choose. destruct heuristic as [|a l]; cbn; split; congruence.
Qed.

(** C5. Whenever the heuristic extraction and the (AI or fallback)
    analysis both return, the analysis handed to the database, which is
    the stored analysis once the database has taken it, takes each of
    skills, experience and education from the heuristic extraction when
    that array is not empty, and from the analysis object exactly when it
    is empty. (Should the database reject that update, the failure is
    recorded in its place.) *)
Theorem processResumeAsync_prefers_heuristics (scans : line_scans)
  (env : AIService.environment) (db : resume_store)
  (extractedText fileName : string)
  (basicInfo : BasicInfo) (aiAnalysis : object) :
  extractBasicInfo scans extractedText = Returns basicInfo ->
  AIService.analyzeResume env extractedText fileName = Returns aiAnalysis ->
  exists analysis scoring,
    processResumeAsync scans env db extractedText fileName
    = try_catch
        (findByIdAndUpdate db (Completed analysis scoring))
        (fun error => findByIdAndUpdate db (Failed (error_message error)))
    /\ (db (Completed analysis scoring) = None ->
        processResumeAsync scans env db extractedText fileName
        = Returns (Completed analysis scoring))
    /\ (skills basicInfo <> [] ->
        analysis_skills analysis = Heuristic (skills basicInfo))
    /\ (skills basicInfo = [] ->
        analysis_skills analysis = Provided (get "skills" aiAnalysis))
    /\ (experience basicInfo <> [] ->
        analysis_experience analysis = Heuristic (experience basicInfo))
    /\ (experience basicInfo = [] ->
        analysis_experience analysis
        = Provided (get "experience" aiAnalysis))
    /\ (education basicInfo <> [] ->
        analysis_education analysis = Heuristic (education basicInfo))
    /\ (education basicInfo = [] ->
        analysis_education analysis = Provided (get "education" aiAnalysis)).
Proof.
  intros Hb Ha. unfold processResumeAsync. rewrite Hb. cbn [bind].
  rewrite Ha. cbn [bind]. unfold assemble.
  eexists. eexists. split; [reflexivity|].
  split.
  { intro Hdb. unfold findByIdAndUpdate. rewrite Hdb. reflexivity. }
  cbn [analysis_skills analysis_experience analysis_education].
  pose proof (choose_spec (skills basicInfo) (get "skills" aiAnalysis)).
  pose proof (choose_spec (experience basicInfo)
                (get "experience" aiAnalysis)).
  pose proof (choose_spec (education basicInfo)
                (get "education" aiAnalysis)).
  tauto.
Qed.

(** Line scans that find nothing, and a service with no credential. *)
Definition no_scans : line_scans :=
  {| extractEducation := fun _ => []; extractExperience := fun _ => [] |}.

Definition offline : AIService.environment :=
  {| AIService.apiKey := None;
     AIService.post := fun _ => AIService.Rejected (Error "ECONNREFUSED");
     AIService.JSON_parse := JSONText.parse_object;
     AIService.now := fun k => (1700000000000 + Z.of_nat k)%Z;
     AIService.Number_toString := Numerals.toString;
     AIService.StringToNumber := Numerals.toNumber |}.

(** A database that takes every update. *)
Definition ready : resume_store := fun _ => None.

Definition python_only : BasicInfo :=
  {| skills := [ {| ResumeProcessor.name := "python";
                    ResumeProcessor.skill_category :=
                      ResumeProcessor.technical;
                    ResumeProcessor.confidence := 0.4 |} ];
     experience := [];
     education := [] |}.

Lemma processResumeAsync_prefers_heuristics_witness :
  extractBasicInfo no_scans "Python" = Returns python_only
  /\ exists analysis scoring,
       processResumeAsync no_scans offline ready "Python" "cv.pdf"
       = Returns (Completed analysis scoring)
       /\ analysis_skills analysis = Heuristic (skills python_only)
       /\ analysis_education analysis
          = Provided
              (get "education"
                 (AIService.getFallbackResumeAnalysis "Python" "cv.pdf"
                    1700000000000)).
Proof.
  split; [reflexivity|].
  destruct (processResumeAsync_prefers_heuristics no_scans offline ready
              "Python" "cv.pdf" python_only
              (AIService.getFallbackResumeAnalysis "Python" "cv.pdf"
                 1700000000000)
              eq_refl eq_refl)
    as [analysis [scoring [_ [H [H1 [_ [_ [_ [_ H6]]]]]]]]].
  exists analysis, scoring. split; [exact (H eq_refl)|]. split.
  - apply H1. discriminate.
  - apply H6. reflexivity.
Defined.

End Assembling.

(** ** The analysis service *)

Section Analysis.

Import JSString JSNumber JSValue AIService.
Open Scope string_scope.

Lemma get_set_same (key : string) (v : value) (o : object) :
  get key (set key v o) = Some v.
Proof.
  induction o as [|[k w] o IH]; cbn [set get].
  - rewrite String.eqb_refl. reflexivity.
  - destruct (k =? key) eqn:E; cbn [get]; rewrite E; [reflexivity|exact IH].
Qed.

Lemma get_set_other (key other : string) (v : value) (o : object) :
  key <> other -> get other (set key v o) = get other o.
Proof.
  intro Hne. induction o as [|[k w] o IH]; cbn [set get].
  - destruct (String.eqb_spec key other); [contradiction|reflexivity].
  - destruct (String.eqb_spec k key) as [->|Hk]; cbn [get].
    + destruct (String.eqb_spec key other); [contradiction|reflexivity].
    + rewrite IH. reflexivity.
Qed.

Definition required_fields : list string :=
  [ "summary"; "skills"; "experience"; "education"; "strengths";
    "weaknesses"; "improvements"; "feedback"; "scores";
    "atsCompatibility" ].

(** Every required member of an analysis result is there. *)
Definition complete (r : object) : Prop :=
  forall field, In field required_fields -> get field r <> None.

Definition default_scores : list float := [75; 80; 85; 75; 70; 65]%float.

(** [Math.round] of the mean, summed from 0 in member order. *)
Definition rounded_mean (scores : list float) : float :=
  Math_round (fold_left PrimFloat.add scores 0 / of_nat (List.length scores))
  %float.

Definition missing_credential (env : environment) : Prop :=
  apiKey env = None \/ apiKey env = Some "".

(** The call to the provider fails: no credential, a rejected request
    (network error, timeout, error status), or a body without a choice. *)
Definition call_fails (env : environment) (prompt : string) : Prop :=
  missing_credential env
  \/ (exists e, post env prompt = Rejected e)
  \/ post env prompt = Resolved NoChoice.

(** The provider answers, but with no content, with a content that holds
    no braces, or with braces that [JSON.parse] rejects. *)
Definition reply_unreadable (env : environment) (prompt : string) : Prop :=
  ~ missing_credential env
  /\ (post env prompt = Resolved NoContent
      \/ exists text,
           post env prompt = Resolved (Content text)
           /\ (match_braces text = None
               \/ exists json, match_braces text = Some json
                               /\ JSON_parse env json = None)).

(** The provider answers with a content whose braces parse to [analysis]. *)
Definition reply_parsed (env : environment) (prompt : string)
  (analysis : object) : Prop :=
  ~ missing_credential env
  /\ exists text json,
       post env prompt = Resolved (Content text)
       /\ match_braces text = Some json
       /\ JSON_parse env json = Some analysis.

Lemma callOpenAI_with_credential (env : environment) (prompt : string) :
  ~ missing_credential env ->
  callOpenAI env prompt
  = match post env prompt with
    | Rejected e => Throws e
    | Resolved NoChoice =>
        Throws (TypeError "Cannot read properties of undefined")
    | Resolved NoContent => Returns None
    | Resolved (Content text) => Returns (Some text)
    end.
Proof.
  unfold missing_credential, callOpenAI. intro H.
  destruct (apiKey env) as [[|c k]|]; tauto.
Qed.

Lemma callOpenAI_fails (env : environment) (prompt : string) :
  call_fails env prompt -> exists e, callOpenAI env prompt = Throws e.
Proof.
  intros [H | H].
  - unfold callOpenAI. destruct H as [-> | ->]; eexists; reflexivity.
  - unfold callOpenAI. destruct (apiKey env) as [[|c k]|];
      try (eexists; reflexivity).
    destruct H as [[e ->] | ->]; eexists; reflexivity.
Qed.

Lemma analyzeResume_after_throw (env : environment)
  (resumeText fileName : string) (e : js_error) :
  callOpenAI env (createResumeAnalysisPrompt resumeText) = Throws e ->
  analyzeResume env resumeText fileName
  = Returns (getFallbackResumeAnalysis resumeText fileName (now env 0)).
Proof. intro H. unfold analyzeResume. rewrite H. reflexivity. Qed.

Lemma calculateOverallScore_fallback (env : environment)
  (resumeText fileName : string) (time : Z) :
  calculateOverallScore env
    (getFallbackResumeAnalysis resumeText fileName time)
  = Returns 75%float.
Proof. reflexivity. Qed.

Lemma calculateOverallScore_modelled (env : environment) (analysis : object) :
  calculateOverallScore env analysis <> Unmodelled.
Proof.
  unfold calculateOverallScore.
  destruct (get "scores" analysis) as [v|]; [|discriminate].
  destruct (truthy_value v); [|discriminate]. cbv zeta.
  destruct (reduce_add _ _ _ _); discriminate.
Qed.

Lemma callOpenAI_modelled (env : environment) (prompt : string) :
  callOpenAI env prompt <> Unmodelled.
Proof.
  unfold callOpenAI. destruct (apiKey env) as [[|c k]|]; try discriminate.
  destruct (post env prompt) as [e|[| |text]]; discriminate.
Qed.

Lemma analyzeResume_after_unreadable (env : environment)
  (resumeText fileName : string) :
  reply_unreadable env (createResumeAnalysisPrompt resumeText) ->
  analyzeResume env resumeText fileName
  = Returns (getFallbackResumeAnalysis "" fileName (now env 1)).
Proof.
  intros [Hkey H]. unfold analyzeResume.
  rewrite (callOpenAI_with_credential _ _ Hkey).
  assert (Hp : forall response,
             match response with
             | Some text =>
                 match match_braces text with
                 | Some json => JSON_parse env json
                 | None => None
                 end
             | None => None
             end = None ->
             parseResumeAnalysis env response
             = (getFallbackResumeAnalysis "" "" (now env 0), 1%nat)).
  { intros response E. unfold parseResumeAnalysis. rewrite E. reflexivity. }
  destruct H as [-> | [text [-> H]]]; cbn [bind].
  - rewrite (Hp None eq_refl). reflexivity.
  - rewrite (Hp (Some text)); [reflexivity|].
    destruct H as [-> | [json [-> ->]]]; reflexivity.
Qed.

Lemma fallback_complete (resumeText fileName : string) (time : Z) :
  complete (getFallbackResumeAnalysis resumeText fileName time).
Proof.
  intros field Hin. unfold required_fields in Hin. cbn [In] in Hin.
  repeat (destruct Hin as [<- | Hin]; [discriminate|]). contradiction.
Qed.

(** C3 (as amended). [analyzeResume] never throws. When the call to the
    provider fails (no credential, network error, timeout, error status)
    it returns the fallback analysis of the resume text; when the reply
    cannot be read (no content, no JSON in it, malformed JSON) it returns
    the fallback analysis of the empty text, which lists no skill, under
    the caller's file name. Every fallback analysis is complete and has
    [overallScore] 75, the rounded mean of the six default sub-scores. *)
Theorem analyzeResume_recovers (env : environment)
  (resumeText fileName : string) :
  let prompt := createResumeAnalysisPrompt resumeText in
  (exists r, analyzeResume env resumeText fileName = Returns r)
  /\ (call_fails env prompt ->
      analyzeResume env resumeText fileName
      = Returns (getFallbackResumeAnalysis resumeText fileName (now env 0)))
  /\ (reply_unreadable env prompt ->
      analyzeResume env resumeText fileName
      = Returns (getFallbackResumeAnalysis "" fileName (now env 1)))
  /\ (forall text name time,
        complete (getFallbackResumeAnalysis text name time)
        /\ get "overallScore" (getFallbackResumeAnalysis text name time)
           = Some (VNum 75))
  /\ rounded_mean default_scores = 75%float.
Proof.
  intro prompt. split; [|split; [|split; [|split]]].
  - unfold analyzeResume.
    pose proof (callOpenAI_modelled env prompt) as Hm. fold prompt.
    destruct (callOpenAI env prompt) as [response|e|];
      cbn [bind try_catch]; [|eexists; reflexivity|contradiction].
    destruct (parseResumeAnalysis env response) as [analysis k].
    pose proof (calculateOverallScore_modelled env analysis) as Hc.
    destruct (calculateOverallScore env analysis) as [x|e|];
      cbn [bind try_catch]; [| |contradiction]; eexists; reflexivity.
  - intro H. destruct (callOpenAI_fails _ _ H) as [e He].
    apply (analyzeResume_after_throw _ _ _ e He).
  - apply analyzeResume_after_unreadable.
  - intros text name time. split; [apply fallback_complete | reflexivity].
  - reflexivity.
Qed.

(** A service with a credential whose provider answers in prose. *)
Definition apology : environment :=
  {| apiKey := Some "sk-test";
     post := fun _ => Resolved (Content "Sorry, I cannot analyze this.");
     JSON_parse := JSONText.parse_object;
     now := fun k => (1700000000000 + Z.of_nat k)%Z;
     Number_toString := Numerals.toString;
     StringToNumber := Numerals.toNumber |}.

Definition found_skill (name : string) : value :=
  VObj [ ("name", VStr name); ("category", VStr "technical");
         ("confidence", VNum 0.7) ].

Lemma analyzeResume_recovers_witness :
  reply_unreadable apology
    (createResumeAnalysisPrompt "Python and Docker developer")
  /\ analyzeResume apology "Python and Docker developer" "cv.pdf"
     = Returns (getFallbackResumeAnalysis "" "cv.pdf" 1700000000001).
Proof.
  assert (H : reply_unreadable apology
                (createResumeAnalysisPrompt "Python and Docker developer")).
  { split.
    - intros [H|H]; discriminate H.
    - right. eexists. split; [reflexivity|]. left. reflexivity. }
  split; [exact H|].
  destruct (analyzeResume_recovers apology "Python and Docker developer"
              "cv.pdf") as [_ [_ [Hu _]]].
  exact (Hu H).
Defined.

(** C3, the claim as written fails: after a reply without JSON the result
    is not the fallback analysis of the resume, whose skill scan finds
    python and docker; it is the one of the empty text, without skills. *)
Lemma analyzeResume_counterexample :
  get "skills"
    (getFallbackResumeAnalysis "Python and Docker developer" "cv.pdf"
       1700000000001)
  = Some (VArr [found_skill "python"; found_skill "docker"])
  /\ exists r,
       analyzeResume apology "Python and Docker developer" "cv.pdf"
       = Returns r
       /\ get "skills" r = Some (VArr []).
Proof.
  split; [reflexivity|]. eexists. split; reflexivity.
Qed.

End Analysis.

(** ** The overall score *)

Section OverallScore.

Import JSString JSNumber JSValue AIService.
Open Scope string_scope.

Lemma analyzeResume_after_parse (env : environment)
  (resumeText fileName : string) (analysis : object) :
  reply_parsed env (createResumeAnalysisPrompt resumeText) analysis ->
  analyzeResume env resumeText fileName
  = match calculateOverallScore env analysis with
    | Returns overallScore =>
        Returns (set "processingTime" (VNum (of_Z (now env 0)))
                   (set "fileName" (VStr fileName)
                      (set "overallScore" (VNum overallScore) analysis)))
    | _ =>
        Returns (getFallbackResumeAnalysis resumeText fileName (now env 0))
    end.
Proof.
  intros [Hkey [text [json [Hp [Hm Hj]]]]]. unfold analyzeResume.
  rewrite (callOpenAI_with_credential _ _ Hkey), Hp. cbn [bind].
  unfold parseResumeAnalysis. rewrite Hm, Hj.
  pose proof (calculateOverallScore_modelled env analysis) as Hc.
  destruct (calculateOverallScore env analysis) as [x|e|];
    [reflexivity | reflexivity | contradiction].
Qed.

Lemma overallScore_of_result (time name score : value) (analysis : object) :
  get "overallScore"
    (set "processingTime" time
       (set "fileName" name (set "overallScore" score analysis)))
  = Some score.
Proof.
  rewrite !get_set_other by discriminate. apply get_set_same.
Qed.

Lemma numbers_map (l : list value) (xs : list float) :
  numbers l = Some xs -> l = map VNum xs.
Proof.
  revert xs. induction l as [|v l IH]; intros xs H.
  - injection H as <-. reflexivity.
  - destruct v; try discriminate H. cbn [numbers] in H.
    destruct (numbers l) as [ys|]; [|discriminate H].
    injection H as <-. cbn [map]. rewrite (IH ys eq_refl). reflexivity.
Qed.

(** On Numbers the reduction is the sum, from left to right. *)
Lemma reduce_add_numbers (toString : float -> string)
  (toNumber : string -> float) (xs : list float) (sum : float) :
  reduce_add toString toNumber (map VNum xs) (PNum sum)
  = Some (PNum (fold_left PrimFloat.add xs sum)).
Proof.
  revert sum. induction xs as [|x xs IH]; intro sum; [reflexivity|].
  cbn [map reduce_add add ToPrimitive primitive_toNumber fold_left].
  apply IH.
Qed.

Lemma calculateOverallScore_numbers (env : environment) (analysis : object)
  (v : value) (scores : list float) :
  get "scores" analysis = Some v -> truthy_value v = true ->
  numbers (Object_values v) = Some scores ->
  calculateOverallScore env analysis = Returns (rounded_mean scores).
Proof.
  intros Hs Ht Hn. unfold calculateOverallScore. rewrite Hs, Ht. cbv zeta.
  rewrite (numbers_map _ _ Hn), reduce_add_numbers, length_map.
  reflexivity.
Qed.

(** The score depends on the [scores] member alone. *)
Lemma calculateOverallScore_scores (env env' : environment)
  (analysis analysis' : object) :
  Number_toString env' = Number_toString env ->
  StringToNumber env' = StringToNumber env ->
  get "scores" analysis' = get "scores" analysis ->
  calculateOverallScore env' analysis' = calculateOverallScore env analysis.
Proof.
  intros Hn Hs Hg. unfold calculateOverallScore. rewrite Hn, Hs, Hg.
  reflexivity.
Qed.

Lemma calculateOverallScore_cases (env : environment) (analysis : object) :
  (exists x, calculateOverallScore env analysis = Returns x)
  \/ calculateOverallScore env analysis = Throws not_primitive.
Proof.
  unfold calculateOverallScore.
  destruct (get "scores" analysis) as [v|]; [|left; eexists; reflexivity].
  destruct (truthy_value v); [|left; eexists; reflexivity]. cbv zeta.
  destruct (reduce_add _ _ _ _);
    [left; eexists; reflexivity | right; reflexivity].
Qed.

Lemma add_throws (toString : float -> string) (toNumber : string -> float)
  (sum : primitive) (score : value) :
  add toString toNumber sum score = None <-> ToPrimitive toString score = None.
Proof.
  unfold add. destruct (ToPrimitive toString score) as [rprim|]; [|tauto].
  split; [|discriminate]. destruct sum, rprim; discriminate.
Qed.

(** The reduction throws exactly when some sub-score has no primitive. *)
Lemma reduce_add_throws (toString : float -> string)
  (toNumber : string -> float) (scores : list value) (sum : primitive) :
  reduce_add toString toNumber scores sum = None
  <-> exists score, In score scores /\ ToPrimitive toString score = None.
Proof.
  revert sum. induction scores as [|v scores IH]; intro sum;
    cbn [reduce_add].
  - split; [discriminate|]. intros [score [[] _]].
  - destruct (add toString toNumber sum v) as [sum'|] eqn:E.
    + rewrite IH. split; intros [score [Hin Hs]].
      * exists score. split; [right; exact Hin | exact Hs].
      * destruct Hin as [<-|Hin]; [|exists score; split; assumption].
        apply (add_throws toString toNumber sum) in Hs.
        rewrite Hs in E. discriminate E.
    + split; [|reflexivity]. intros _. exists v.
      split; [left; reflexivity|].
      apply (add_throws toString toNumber sum), E.
Qed.

(** A sub-score without a primitive: [scores] is there and truthy, and
    one of its values cannot be converted. *)
Definition opaque_score (env : environment) (analysis : object) : Prop :=
  exists v score,
    get "scores" analysis = Some v /\ truthy_value v = true
    /\ In score (Object_values v)
    /\ ToPrimitive (Number_toString env) score = None.

Lemma calculateOverallScore_throws (env : environment) (analysis : object) :
  calculateOverallScore env analysis = Throws not_primitive
  <-> opaque_score env analysis.
Proof.
  unfold calculateOverallScore, opaque_score.
  destruct (get "scores" analysis) as [v|].
  - destruct (truthy_value v) eqn:T; cbv zeta.
    + destruct (reduce_add _ _ _ _) as [sum|] eqn:E.
      * split; [discriminate|]. intros [v' [score [Hv [_ [Hin Hs]]]]].
        injection Hv as <-.
        assert (Hn : reduce_add (Number_toString env) (StringToNumber env)
                       (Object_values v) (PNum 0) = None).
        { apply reduce_add_throws. exists score. split; assumption. }
        rewrite Hn in E. discriminate E.
      * split; [|reflexivity]. intros _.
        apply reduce_add_throws in E. destruct E as [score [Hin Hs]].
        exists v, score. repeat split; assumption.
    + split; [discriminate|]. intros [v' [score [Hv [Ht _]]]].
      injection Hv as <-. rewrite Ht in T. discriminate T.
  - split; [discriminate|]. intros [v [score [Hv _]]]. discriminate Hv.
Qed.

(** C4 (as amended). On the fallback path [overallScore] is 75, the
    rounded mean of the six sub-scores of the fallback analysis. On the AI
    path the value is not taken from the reply: for every reply that
    parses, [analyzeResume] computes it from the [scores] member of the
    reply alone and puts it in place of any [overallScore] of the reply.
    It is the rounded mean of the sub-scores when they are all Numbers,
    and 75 when the reply has no [scores] member or one that is falsy;
    for other sub-scores it is what [Math.round(sum / count)] gives when
    [+] concatenates; and exactly when a sub-score cannot be converted to
    a primitive (as an object with an own [toString] member) the result is
    the fallback analysis of the resume, with 75. *)
Theorem overallScore_is_recomputed (env : environment)
  (resumeText fileName : string) (analysis : object) :
  reply_parsed env (createResumeAnalysisPrompt resumeText) analysis ->
  (forall members scores,
     get "scores" analysis = Some (VObj members) ->
     numbers (map snd members) = Some scores ->
     exists r, analyzeResume env resumeText fileName = Returns r
               /\ get "overallScore" r = Some (VNum (rounded_mean scores)))
  /\ (get "scores" analysis = None
      \/ (exists v, get "scores" analysis = Some v
                    /\ truthy_value v = false) ->
      exists r, analyzeResume env resumeText fileName = Returns r
                /\ get "overallScore" r = Some (VNum 75))
  /\ (exists r,
        analyzeResume env resumeText fileName = Returns r
        /\ ((exists x,
               calculateOverallScore env analysis = Returns x
               /\ get "overallScore" r = Some (VNum x))
            \/ (calculateOverallScore env analysis = Throws not_primitive
                /\ r = getFallbackResumeAnalysis resumeText fileName
                         (now env 0)
                /\ get "overallScore" r = Some (VNum 75))))
  /\ (calculateOverallScore env analysis = Throws not_primitive
      <-> opaque_score env analysis)
  /\ (forall members,
        get "toString" members <> None ->
        ToPrimitive (Number_toString env) (VObj members) = None)
  /\ (forall env' analysis' r r',
        reply_parsed env' (createResumeAnalysisPrompt resumeText) analysis' ->
        Number_toString env' = Number_toString env ->
        StringToNumber env' = StringToNumber env ->
        get "scores" analysis' = get "scores" analysis ->
        analyzeResume env resumeText fileName = Returns r ->
        analyzeResume env' resumeText fileName = Returns r' ->
        get "overallScore" r' = get "overallScore" r)
  /\ (forall text name time,
        exists members,
          get "scores" (getFallbackResumeAnalysis text name time)
          = Some (VObj members)
          /\ numbers (map snd members) = Some default_scores
          /\ get "overallScore" (getFallbackResumeAnalysis text name time)
             = Some (VNum (rounded_mean default_scores))).
Proof.
  intro H. pose proof (analyzeResume_after_parse _ _ fileName _ H) as Ha.
  split; [|split; [|split; [|split; [|split; [|split]]]]].
  - intros members scores Hs Hn. rewrite Ha.
    rewrite (calculateOverallScore_numbers env analysis (VObj members) scores
               Hs eq_refl Hn).
    eexists. split; [reflexivity|]. apply overallScore_of_result.
  - intro Hs. rewrite Ha.
    assert (Hc : calculateOverallScore env analysis = Returns 75%float).
    { unfold calculateOverallScore.
      destruct Hs as [-> | [v [-> ->]]]; reflexivity. }
    rewrite Hc. eexists. split; [reflexivity|]. apply overallScore_of_result.
  - rewrite Ha.
    destruct (calculateOverallScore_cases env analysis) as [[x Hx] | Ht].
    + rewrite Hx. eexists. split; [reflexivity|]. left. exists x.
      split; [reflexivity | apply overallScore_of_result].
    + rewrite Ht. eexists. split; [reflexivity|]. right.
      split; [reflexivity|]. split; reflexivity.
  - apply calculateOverallScore_throws.
  - intros members Hm. cbn [ToPrimitive ToString].
    destruct (get "toString" members); [reflexivity | contradiction].
  - intros env' analysis' r r' H' Hn Hs Hg Hr Hr'.
    rewrite (analyzeResume_after_parse _ _ fileName _ H') in Hr'.
    rewrite (calculateOverallScore_scores env env' _ _ Hn Hs Hg) in Hr'.
    rewrite Ha in Hr.
    destruct (calculateOverallScore env analysis) as [x|e|];
      injection Hr as <-; injection Hr' as <-;
      rewrite ?overallScore_of_result; reflexivity.
  - intros text name time. eexists. split; [reflexivity|].
    split; reflexivity.
Qed.

(** A provider that rates the resume 10 while its six sub-scores are
    90s. *)
Definition self_rated_reply : string :=
  JSONText.quoted
    "Here is the assessment: {'summary': 'Seasoned engineer', 'overallScore': 10, 'scores': {'formatting': 90, 'content': 90, 'skills': 90, 'experience': 90, 'education': 90, 'keywords': 90}}".

Definition self_rated : environment :=
  {| apiKey := Some "sk-test";
     post := fun _ => Resolved (Content self_rated_reply);
     JSON_parse := JSONText.parse_object;
     now := fun k => (1700000000000 + Z.of_nat k)%Z;
     Number_toString := Numerals.toString;
     StringToNumber := Numerals.toNumber |}.

Definition ninety (name : string) : string * value := (name, VNum 90).

Definition self_rated_analysis : object :=
  [ ("summary", VStr "Seasoned engineer");
    ("overallScore", VNum 10);
    ("scores", VObj (map ninety ["formatting"; "content"; "skills";
                                 "experience"; "education"; "keywords"])) ].

Lemma self_rated_parsed :
  reply_parsed self_rated (createResumeAnalysisPrompt "Python developer")
               self_rated_analysis.
Proof.
  split.
  - intros [H|H]; discriminate H.
  - eexists. eexists. split; [reflexivity|]. split; reflexivity.
Defined.

Lemma overallScore_is_recomputed_witness :
  reply_parsed self_rated (createResumeAnalysisPrompt "Python developer")
               self_rated_analysis
  /\ exists r,
       analyzeResume self_rated "Python developer" "cv.pdf" = Returns r
       /\ get "overallScore" r = Some (VNum 90).
Proof.
  split; [exact self_rated_parsed|].
  destruct (overallScore_is_recomputed self_rated "Python developer"
              "cv.pdf" self_rated_analysis self_rated_parsed) as [H _].
  apply (H (map ninety ["formatting"; "content"; "skills"; "experience";
                        "education"; "keywords"])
           [90; 90; 90; 90; 90; 90]%float); reflexivity.
Defined.

(** C4, the claim as written fails: the reply says [overallScore] 10, and
    the analysis that [analyzeResume] returns says 90. *)
Lemma overallScore_counterexample :
  (exists json,
     match_braces self_rated_reply = Some json
     /\ option_map (get "overallScore") (JSONText.parse_object json)
        = Some (Some (VNum 10)))
  /\ exists r,
       analyzeResume self_rated "Python developer" "cv.pdf" = Returns r
       /\ get "overallScore" r = Some (VNum 90).
Proof.
  split.
  - eexists. split; reflexivity.
  - eexists. split; reflexivity.
Qed.

(** Sub-scores that are not all Numbers: 90 and the String "80" add up
    to the String "9080", and the mean of the two is 4540. *)
Definition mixed_reply : string :=
  JSONText.quoted "{'summary': 'Engineer', 'scores': {'a': 90, 'b': '80'}}".

Definition mixed : environment :=
  {| apiKey := Some "sk-test";
     post := fun _ => Resolved (Content mixed_reply);
     JSON_parse := JSONText.parse_object;
     now := fun k => (1700000000000 + Z.of_nat k)%Z;
     Number_toString := Numerals.toString;
     StringToNumber := Numerals.toNumber |}.

Example overallScore_of_mixed_scores :
  exists r,
    analyzeResume mixed "Python developer" "cv.pdf" = Returns r
    /\ get "scores" r = Some (VObj [("a", VNum 90); ("b", VStr "80")])
    /\ get "overallScore" r = Some (VNum 4540).
Proof. eexists. split; [reflexivity|]. split; reflexivity. Qed.

(** A sub-score that cannot be added, an object with an own [toString]
    member: the reply parses, the addition throws, and the result is the
    fallback analysis of the resume. *)
Definition opaque_reply : string :=
  JSONText.quoted
    "{'summary': 'Engineer', 'scores': {'a': 90, 'b': {'toString': 1}}}".

Definition opaque : environment :=
  {| apiKey := Some "sk-test";
     post := fun _ => Resolved (Content opaque_reply);
     JSON_parse := JSONText.parse_object;
     now := fun k => (1700000000000 + Z.of_nat k)%Z;
     Number_toString := Numerals.toString;
     StringToNumber := Numerals.toNumber |}.

Example overallScore_of_opaque_scores :
  (exists analysis,
     reply_parsed opaque (createResumeAnalysisPrompt "Python developer")
                  analysis)
  /\ analyzeResume opaque "Python developer" "cv.pdf"
     = Returns (getFallbackResumeAnalysis "Python developer" "cv.pdf"
                  1700000000000).
Proof.
  split; [|reflexivity].
  eexists. split.
  - intros [H|H]; discriminate H.
  - eexists. eexists. split; [reflexivity|]. split; reflexivity.
Qed.

End OverallScore.

(** ** The fallback analysis and the clock *)

Section FallbackPurity.

Import JSString JSNumber JSValue AIService.
Open Scope string_scope.

(** C9 (as amended). Two runs of the fallback analysis on the same text
    and file name agree in every member but [processingTime], which holds
    the reading of the clock at each run; they are identical when the
    clock reads the same. *)
Theorem getFallbackResumeAnalysis_pure_but_for_time
  (resumeText fileName : string) (first second : Z) :
  let a := getFallbackResumeAnalysis resumeText fileName first in
  let b := getFallbackResumeAnalysis resumeText fileName second in
  (forall key, key <> "processingTime" -> get key a = get key b)
  /\ (forall stamp, set "processingTime" stamp a
                    = set "processingTime" stamp b)
  /\ get "processingTime" a = Some (VNum (of_Z first))
  /\ get "processingTime" b = Some (VNum (of_Z second))
  /\ (first = second -> a = b).
Proof.
  intros a b. split; [|split; [|split; [|split]]].
  - intros key Hkey. subst a b. unfold getFallbackResumeAnalysis, member.
    cbn [get].
    repeat match goal with
           | |- context [(?k =? key)%string] => destruct (k =? key)%string eqn:?
           end; try reflexivity.
    match goal with
    | H : ("processingTime" =? key)%string = true |- _ =>
        apply String.eqb_eq in H; congruence
    end.
  - intro stamp. reflexivity.
  - reflexivity.
  - reflexivity.
  - intros ->. reflexivity.
Qed.

Lemma getFallbackResumeAnalysis_pure_but_for_time_witness :
  "fileName" <> "processingTime"
  /\ get "fileName"
       (getFallbackResumeAnalysis "Python developer" "cv.pdf" 1700000000000)
     = get "fileName"
         (getFallbackResumeAnalysis "Python developer" "cv.pdf"
            1700000001000).
Proof.
  assert (H : "fileName" <> "processingTime") by discriminate.
  split; [exact H|].
  destruct (getFallbackResumeAnalysis_pure_but_for_time
              "Python developer" "cv.pdf" 1700000000000 1700000001000)
    as [Hkeys _].
  exact (Hkeys "fileName" H).
Defined.

(** C9, the claim as written fails: two runs one second apart differ, in
    the member [processingTime]. *)
Lemma getFallbackResumeAnalysis_counterexample :
  getFallbackResumeAnalysis "Python developer" "cv.pdf" 1700000000000
  <> getFallbackResumeAnalysis "Python developer" "cv.pdf" 1700000001000.
Proof.
  intro H. apply (f_equal (get "processingTime")) in H.
  vm_compute in H. discriminate H.
Qed.

End FallbackPurity.

(** ** Further properties *)

Section Further.

Import JSString JSNumber ResumeProcessor ResumeModel.
Open Scope string_scope.

(** The shape of every normalised text: no carriage return in it, and no
    two neighbouring units that are both white space. *)
Theorem cleanText_output_shape (text : string) :
  has CR (cleanText text) = false /\ adjacent_ws (cleanText text) = false.
Proof. split; [apply cleanText_no_CR | apply cleanText_tidy]. Qed.

(** On a text that does not mention [c++], in any case, the keyword scan
    runs to its end and returns its list. *)
Theorem extractSkills_total_without_cpp (text : string) :
  includes (toLowerCase text) "c++" = false ->
  exists found, extractSkills text = Returns found.
Proof. apply extractSkills_returns. Qed.

Lemma extractSkills_total_without_cpp_witness :
  includes (toLowerCase "Python and React developer") "c++" = false
  /\ exists found,
       extractSkills "Python and React developer" = Returns found.
Proof.
  split; [reflexivity|].
  apply (extractSkills_total_without_cpp "Python and React developer").
  reflexivity.
Defined.

(** A job whose level is in no row of the table is scored on the skills
    alone, unless the level names a member that the table inherits from
    [Object.prototype] ([constructor], [toString], ...): then what is added
    to the score is no Number, and the score is NaN. *)
Theorem calculateJobMatch_unlisted_level (this : Resume) (job : Job) :
  levelAdjustment_spec (level job) (List.length (analysis_experience this))
  = None ->
  (existsb (String.eqb (level job)) Object_prototype_names = false ->
   matchScore (calculateJobMatch this job)
   = Math_round
       (Math_max 0
          (Math_min 100
             (base_score
                (List.length (matchedSkills (calculateJobMatch this job)))
                (List.length (skills job))
              + 0)%float)))
  /\ (existsb (String.eqb (level job)) Object_prototype_names = true ->
      is_nan (matchScore (calculateJobMatch this job)) = true).
Proof.
  intro H. cbn [calculateJobMatch matchScore matchedSkills].
  rewrite (lookup_unlisted_level _ _ H), !length_map.
  split; intros ->; cbn [adjust_within_bounds]; [|reflexivity].
  destruct (skills job) as [|j0 js];
    cbn [List.length Nat.ltb Nat.leb base_score]; reflexivity.
Qed.

Definition intern_job : Job :=
  {| skills := map listed ["javascript"; "python"]; level := "intern" |}.

Lemma calculateJobMatch_unlisted_level_witness :
  levelAdjustment_spec "intern" 4 = None
  /\ matchScore (calculateJobMatch scenario_resume intern_job) = 50%float.
Proof.
  split; [reflexivity|].
  rewrite (proj1 (calculateJobMatch_unlisted_level scenario_resume intern_job
                    eq_refl) eq_refl).
  reflexivity.
Defined.

(** The second scenario of the specification: one skill, no experience, a
    senior job asking for that skill. *)
Definition newcomer : Resume :=
  {| analysis_skills := [skill "aws"];
     analysis_experience := [];
     aiAnalysis_overallScore := 75 |}.

Definition senior_cloud_job : Job :=
  {| skills := [listed "aws"]; level := "senior" |}.

(** The scenarios of the specification: base 50 and the mid-level bonus
    give 60; base 100 and the senior penalty give 90. *)
Theorem calculateJobMatch_scenarios :
  calculateJobMatch scenario_resume scenario_job
  = {| matchScore := 60;
       matchedSkills := ["javascript"];
       missingSkills := ["python"];
       relevanceReasons :=
         [ "Relevant experience level matches job requirements";
           "Core technology stack matches job requirements" ] |}
  /\ calculateJobMatch newcomer senior_cloud_job
     = {| matchScore := 90;
          matchedSkills := ["aws"];
          missingSkills := [];
          relevanceReasons :=
            [ "General experience and skills are relevant to this position" ]
       |}.
Proof. split; reflexivity. Qed.

End Further.

(** * Further properties of the code *)

(** ** Strings: occurrences across a separator *)

Section StringFacts.

Import JSString.
Open Scope string_scope.

Lemma append_nil_r (s : string) : s ++ "" = s.
Proof. induction s as [|c s IH]; cbn; [|rewrite IH]; reflexivity. Qed.

Lemma append_assoc (a b c : string) : (a ++ b) ++ c = a ++ b ++ c.
Proof. induction a as [|x a IH]; cbn; [|rewrite IH]; reflexivity. Qed.

Lemma toLowerCase_app (a b : string) :
  toLowerCase (a ++ b) = toLowerCase a ++ toLowerCase b.
Proof.
  induction a as [|x a IH]; cbn [append toLowerCase]; [|rewrite IH];
    reflexivity.
Qed.

Lemma startsWith_app_sep (a b k : string) (c : ascii) :
  has c k = false -> startsWith (a ++ String c b) k = startsWith a k.
Proof.
  revert a. induction k as [|y k IH]; intros a H; [reflexivity|].
  cbn [has] in H. apply orb_false_iff in H. destruct H as [Hy Hk].
  destruct a as [|x a]; cbn [append startsWith].
  - rewrite Ascii.eqb_sym, Hy. reflexivity.
  - rewrite (IH a Hk). reflexivity.
Qed.

(** A string that does not hold the separator occurs in [a ++ c ++ b]
    exactly when it occurs in [a] or in [b]. *)
Lemma includes_app_sep (a b k : string) (c : ascii) :
  has c k = false -> k <> "" ->
  includes (a ++ String c b) k = includes a k || includes b k.
Proof.
  intros H Hne. induction a as [|x a IH]; cbn [append].
  - cbn [includes]. change (String c b) with ("" ++ String c b).
    rewrite (startsWith_app_sep "" b k c H).
    destruct k as [|y k]; [contradiction|]. reflexivity.
  - cbn [includes]. rewrite IH.
    change (String x (a ++ String c b)) with (String x a ++ String c b).
    rewrite (startsWith_app_sep (String x a) b k c H).
    rewrite orb_assoc. reflexivity.
Qed.

Fixpoint has_ws (s : string) : bool :=
  match s with
  | EmptyString => false
  | String c s' => isWhiteSpace c || has_ws s'
  end.

Lemma has_ws_has (k : string) (c : ascii) :
  has_ws k = false -> isWhiteSpace c = true -> has c k = false.
Proof.
  intros Hk Hc. induction k as [|y k IH]; [reflexivity|].
  cbn [has_ws] in Hk. apply orb_false_iff in Hk. destruct Hk as [Hy Hk].
  cbn [has]. rewrite (IH Hk), orb_false_r.
  destruct (Ascii.eqb_spec y c) as [->|_]; [congruence | reflexivity].
Qed.

Lemma existsb_filter {A : Type} (test keep : A -> bool) (l : list A) :
  existsb test (filter keep l) = existsb (fun a => test a && keep a) l.
Proof.
  induction l as [|a l IH]; cbn [filter existsb]; [reflexivity|].
  destruct (keep a); cbn [existsb]; rewrite IH.
  - rewrite andb_true_r. reflexivity.
  - rewrite andb_false_r. reflexivity.
Qed.

Lemma filter_all_iff {A : Type} (test : A -> bool) (l : list A) :
  filter test l = l <-> forall a, In a l -> test a = true.
Proof.
  induction l as [|a l IH]; cbn [filter].
  - split; [intros _ a [] | reflexivity].
  - destruct (test a) eqn:E.
    + split.
      * intros H b [<-|Hb]; [exact E|]. injection H as H. apply IH; assumption.
      * intro H. f_equal. apply IH. intros b Hb. apply H. right. exact Hb.
    + split.
      * intro H. exfalso.
        assert (Hl : (List.length (filter test l) <= List.length l)%nat)
          by apply filter_length_le.
        rewrite H in Hl. cbn in Hl. lia.
      * intro H. specialize (H a (or_introl eq_refl)). congruence.
Qed.

Lemma NoDup_map_injective {A B : Type} (f : A -> B) (l : list A) (x y : A) :
  NoDup (map f l) -> In x l -> In y l -> f x = f y -> x = y.
Proof.
  induction l as [|a l IH]; intros Hnd Hx Hy Hf; [contradiction|].
  cbn [map] in Hnd. apply NoDup_cons_iff in Hnd. destruct Hnd as [Hna Hnd].
  destruct Hx as [<-|Hx]; destruct Hy as [<-|Hy].
  - reflexivity.
  - exfalso. apply Hna. rewrite Hf. apply in_map, Hy.
  - exfalso. apply Hna. rewrite <- Hf. apply in_map, Hx.
  - apply IH; assumption.
Qed.

End StringFacts.

(** ** The match score is a percentage *)

Section ScoreRange.

Import JSNumber.
Open Scope float_scope.

Lemma digits2_pos_upper (m : positive) :
  (Z.pos m < 2 ^ Z.pos (digits2_pos m))%Z.
Proof.
  induction m as [m IH|m IH|]; cbn [digits2_pos]; try (cbn; lia);
    rewrite Pos2Z.inj_succ, Z.pow_succ_r by lia; lia.
Qed.

Lemma digits2_pos_lower (m : positive) :
  (2 ^ (Z.pos (digits2_pos m) - 1) <= Z.pos m)%Z.
Proof.
  induction m as [m IH|m IH|]; cbn [digits2_pos]; try (cbn; lia);
    rewrite Pos2Z.inj_succ;
    replace (Z.succ (Z.pos (digits2_pos m)) - 1)%Z
      with (Z.succ (Z.pos (digits2_pos m) - 1))%Z by lia;
    rewrite Z.pow_succ_r by lia; lia.
Qed.

Lemma digits2_pos_iter_xO (m k : positive) :
  digits2_pos (Pos.iter xO m k) = (digits2_pos m + k)%positive.
Proof.
  induction k as [|k IH] using Pos.peano_ind.
  - cbn. lia.
  - rewrite Pos.iter_succ. cbn [digits2_pos]. rewrite IH. lia.
Qed.








Lemma fexp_canonical (e : Z) :
  (-1074 <= e)%Z -> fexp prec emax (53 + e) = e.
Proof. intro H. unfold fexp, emin, prec, emax. lia. Qed.

Lemma binary_round_aux_canonical (s : bool) (m : positive) (e : Z) :
  Z.pos (digits2_pos m) = 53%Z -> (-1074 <= e <= 971)%Z ->
  binary_round_aux prec emax s (Z.pos m) e loc_Exact = S754_finite s m e.
Proof.
  intros Hd He. unfold binary_round_aux, shr_fexp. cbn [Zdigits2].
  rewrite Hd, (fexp_canonical e) by lia. rewrite Z.sub_diag.
  cbn [shr shr_record_of_loc shr_m loc_of_shr_record round_nearest_even
       Zdigits2].
  rewrite Hd, (fexp_canonical e) by lia. rewrite Z.sub_diag.
  cbn [shr shr_record_of_loc shr_m].
  replace (e <=? emax - prec)%Z with true; [reflexivity|].
  symmetry. apply Z.leb_le. unfold emax, prec. lia.
Qed.

Lemma bounded_canonical (m : positive) (e : Z) :
  Z.pos (digits2_pos m) = 53%Z -> (-1074 <= e <= 971)%Z ->
  bounded prec emax m e = true.
Proof.
  intros Hd He. unfold bounded, canonical_mantissa.
  rewrite Hd, (fexp_canonical e) by lia. rewrite Z.eqb_refl. cbn [andb].
  apply Z.leb_le. unfold emax, prec. lia.
Qed.

Lemma Pos_iter_xO (p k : positive) :
  Z.pos (Pos.iter xO p k) = (Z.pos p * 2 ^ Z.pos k)%Z.
Proof.
  induction k as [|k IH] using Pos.peano_ind.
  - cbn. lia.
  - rewrite Pos.iter_succ, Pos2Z.inj_xO, IH, Pos2Z.inj_succ,
      Z.pow_succ_r by lia. lia.
Qed.

(** The Number of a positive integer below 2^53: its mantissa has 53
    digits and holds the integer exactly. *)
Lemma binary_normalize_exact (p : positive) :
  (Z.pos p < 2 ^ 53)%Z ->
  let d := Z.pos (digits2_pos p) in
  exists m,
    binary_normalize prec emax (Z.pos p) 0 false
    = S754_finite false m (d - 53)
    /\ bounded prec emax m (d - 53) = true
    /\ Z.pos m = (Z.pos p * 2 ^ (53 - d))%Z.
Proof.
  intros Hp d. cbn [binary_normalize]. unfold binary_round, shl_align.
  pose proof (digits2_pos_lower p) as Hl. fold d in Hl.
  assert (Hd : (d <= 53)%Z).
  { destruct (Z_le_gt_dec d 53) as [H|H]; [exact H|].
    exfalso. assert (2 ^ 53 <= 2 ^ (d - 1))%Z.
    { apply Z.pow_le_mono_r; lia. }
    lia. }
  assert (Hd0 : (0 < d)%Z) by (subst d; lia).
  rewrite Z.add_0_r, Z.sub_0_r. fold d.
  replace (fexp prec emax d) with (d - 53)%Z
    by (unfold fexp, emin, prec, emax; lia).
  destruct (d - 53)%Z as [|k|k] eqn:E; [|lia|].
  - exists p. split; [|split].
    + apply binary_round_aux_canonical; [fold d|]; lia.
    + apply bounded_canonical; [fold d|]; lia.
    + replace (53 - d)%Z with 0%Z by lia. lia.
  - exists (Pos.iter xO p k).
    assert (Hk : Z.pos (digits2_pos (Pos.iter xO p k)) = 53%Z).
    { rewrite digits2_pos_iter_xO. fold d. lia. }
    split; [|split].
    + apply binary_round_aux_canonical; [exact Hk|lia].
    + apply bounded_canonical; [exact Hk|lia].
    + rewrite Pos_iter_xO. replace (53 - d)%Z with (Z.pos k) by lia.
      reflexivity.
Qed.

Lemma of_Z_exact (z : Z) :
  (0 < z < 2 ^ 53)%Z ->
  exists m,
    Prim2SF (of_Z z) = S754_finite false m (Zdigits2 z - 53)
    /\ Z.pos m = (z * 2 ^ (53 - Zdigits2 z))%Z.
Proof.
  intros [H0 H1]. destruct z as [|p|p]; try lia.
  destruct (binary_normalize_exact p H1) as [m [H [Hb Hm]]].
  exists m. split; [|exact Hm]. unfold of_Z. rewrite H.
  apply Prim2SF_SF2Prim. exact Hb.
Qed.

Lemma of_Z_small (z : Z) :
  (0 < z < 2 ^ 53)%Z ->
  exists m e, Prim2SF (of_Z z) = S754_finite false m e.
Proof.
  intro H. destruct (of_Z_exact z H) as [m [Hm _]].
  exists m, (Zdigits2 z - 53)%Z. exact Hm.
Qed.

(** *** Division *)

Lemma SFdiv_core_binary_nonneg (m1 m2 : positive) (e1 e2 : Z) :
  (0 <= fst (fst (SFdiv_core_binary prec emax (Z.pos m1) e1 (Z.pos m2) e2)))%Z.
Proof.
  unfold SFdiv_core_binary.
  set (s := (e1 - e2 - _)%Z).
  set (m' := match s with Z0 => _ | Z.pos _ => _ | Z.neg _ => _ end).
  assert (Hm : (0 <= m')%Z).
  { subst m'. destruct s; [lia| |lia]. apply Z.shiftl_nonneg. lia. }
  pose proof (Z_div_mod m' (Z.pos m2) ltac:(lia)) as H.
  destruct (Z.div_eucl m' (Z.pos m2)) as [q r]. cbn [fst].
  destruct H as [H1 H2]. nia.
Qed.

Lemma SF64div_finite_nonneg (x : spec_float) (m : positive) (e : Z) :
  SFnonneg x = true ->
  SFnonneg (SF64div x (S754_finite false m e)) = true.
Proof.
  destruct x as [sx|sx| |sx mx ex]; try destruct sx; cbn [SFnonneg negb];
    try discriminate; try reflexivity.
  intros _. unfold SF64div, SFdiv.
  pose proof (SFdiv_core_binary_nonneg mx m ex e) as H.
  destruct (SFdiv_core_binary prec emax (Z.pos mx) ex (Z.pos m) e)
    as [[mz ez] lz].
  cbn [fst] in H. cbn [xorb]. apply binary_round_aux_nonneg, H.
Qed.

Lemma div_nonneg (x y : float) (m : positive) (e : Z) :
  nonneg x -> Prim2SF y = S754_finite false m e -> nonneg (x / y).
Proof.
  rewrite !nonneg_SF, div_spec. intros Hx ->.
  apply SF64div_finite_nonneg, Hx.
Qed.

Lemma mul_hundred_nonneg (x : float) : nonneg x -> nonneg (x * 100).
Proof.
  rewrite !nonneg_SF, mul_spec.
  change (Prim2SF 100) with (S754_finite false 7036874417766400 (-46)).
  apply SF64mul_finite_nonneg.
Qed.

(** *** Numbers that are not NaN *)

Definition SFnumber (x : spec_float) : bool :=
  match x with
  | S754_nan => false
  | _ => true
  end.

Definition SFfinite (x : spec_float) : bool :=
  match x with
  | S754_zero _ | S754_finite _ _ _ => true
  | _ => false
  end.

Lemma binary_round_aux_number (s : bool) (m e : Z) (l : location) :
  (0 <= m)%Z -> SFnumber (binary_round_aux prec emax s m e l) = true.
Proof.
  intro Hm. unfold binary_round_aux.
  pose proof (shr_fexp_nonneg m e l Hm) as H1.
  destruct (shr_fexp prec emax m e l) as [mrs' e'] eqn:E1. cbn [fst] in H1.
  pose proof (shr_fexp_nonneg
                (round_nearest_even (shr_m mrs') (loc_of_shr_record mrs'))
                e' loc_Exact
                (round_nearest_even_nonneg _ _ H1)) as H2.
  destruct (shr_fexp prec emax _ e' loc_Exact) as [mrs'' e''] eqn:E2.
  cbn [fst] in H2.
  destruct (shr_m mrs'') as [|p|p]; [reflexivity| |lia].
  destruct (e'' <=? emax - prec)%Z; reflexivity.
Qed.

Lemma binary_normalize_number (z e : Z) :
  SFnumber (binary_normalize prec emax z e false) = true.
Proof.
  destruct z as [|p|p]; cbn [binary_normalize]; [reflexivity| |];
    unfold binary_round; destruct (shl_align _ _ _) as [mz ez];
    apply binary_round_aux_number; lia.
Qed.

Lemma SF64add_number (x y : spec_float) :
  SFnonneg x = true -> SFfinite y = true -> SFnumber (SF64add x y) = true.
Proof.
  destruct x as [sx|sx| |sx mx ex]; destruct y as [sy|sy| |sy my ey];
    try destruct sx; try destruct sy; cbn [SFnonneg SFfinite negb];
    intros Hx Hy; try discriminate Hx; try discriminate Hy;
    try reflexivity; unfold SF64add, SFadd; apply binary_normalize_number.
Qed.

Lemma SFcompare_number (x : spec_float) :
  SFnumber x = true -> SFcompare x x = Some Eq.
Proof.
  destruct x as [s|s| |s m e]; cbn; try discriminate; intros _.
  - reflexivity.
  - destruct s; reflexivity.
  - destruct s; rewrite Z.compare_refl, Pos.compare_cont_refl; reflexivity.
Qed.

Lemma number_not_nan (x : float) :
  SFnumber (Prim2SF x) = true -> is_nan x = false.
Proof.
  intro H. unfold is_nan. rewrite eqb_spec. unfold SFeqb.
  rewrite (SFcompare_number _ H). reflexivity.
Qed.

Lemma add_not_nan (x y : float) :
  nonneg x -> SFfinite (Prim2SF y) = true -> is_nan (x + y) = false.
Proof.
  intros Hx Hy. apply number_not_nan. rewrite add_spec.
  apply SF64add_number; [apply nonneg_SF, Hx | exact Hy].
Qed.

(** *** Clamping and rounding *)

(** [Math.max(0, Math.min(100, x))] of a number is the literal 0 or a
    number above 0 and not above 100. *)
Lemma clamp_range (x : float) :
  is_nan x = false ->
  let z := Math_max 0 (Math_min 100 x) in
  z = 0 \/ ((0 <? z) = true /\ (z <=? 100) = true).
Proof.
  intro Hx.
  assert (Hr : is_nan (Math_min 100 x) = false
               /\ (Math_min 100 x <=? 100) = true).
  { unfold Math_min. rewrite Hx. change (is_nan 100) with false.
    cbn [orb]. destruct (100 <? x) eqn:E1; [split; reflexivity|].
    destruct (x <? 100) eqn:E2; [split; [exact Hx | apply ltb_leb, E2]|].
    change (get_sign 100) with false. cbv iota.
    split; [exact Hx|]. apply not_ltb_leb; [exact Hx | reflexivity | exact E1]. }
  destruct Hr as [Hn Hle]. set (r := Math_min 100 x) in *.
  cbv zeta. unfold Math_max. rewrite Hn. change (is_nan 0) with false.
  cbn [orb]. destruct (0 <? r) eqn:E1; [right; split; assumption|].
  left. destruct (r <? 0); [reflexivity|].
  change (get_sign 0) with false. reflexivity.
Qed.

Lemma valid_mantissa_bound (x : float) (s : bool) (m : positive) (e : Z) :
  Prim2SF x = S754_finite s m e -> (Z.pos m < 2 ^ 53)%Z.
Proof.
  intro H. pose proof (Prim2SF_valid x) as Hv. rewrite H in Hv.
  cbn [SpecFloat.valid_binary] in Hv. unfold bounded in Hv.
  apply andb_true_iff in Hv. destruct Hv as [Hc _].
  unfold canonical_mantissa in Hc. apply Z.eqb_eq in Hc.
  unfold fexp, emin, prec, emax in Hc.
  assert (Hd : (Z.pos (digits2_pos m) <= 53)%Z) by lia.
  pose proof (digits2_pos_upper m) as Hu.
  assert (2 ^ Z.pos (digits2_pos m) <= 2 ^ 53)%Z
    by (apply Z.pow_le_mono_r; lia).
  lia.
Qed.

(** [Math.round] of a number in (0, 100] is an integer in [0, 100]. *)
Lemma Math_round_percent (z : float) :
  (0 <? z) = true -> (z <=? 100) = true ->
  exists q, (0 <= q <= 100)%Z /\ Math_round z = of_Z q.
Proof.
  rewrite ltb_spec, leb_spec. unfold SFltb, SFleb.
  change (Prim2SF 0) with (S754_zero false).
  change (Prim2SF 100) with (S754_finite false 7036874417766400 (-46)).
  remember 7036874417766400%positive as M eqn:HM.
  intros H0 H100. unfold Math_round.
  destruct (Prim2SF z) as [s|s| |s m e] eqn:E;
    cbn [SFcompare] in H0, H100;
    try discriminate; try (destruct s; discriminate).
  destruct s; [discriminate|].
  pose proof (valid_mantissa_bound z false m e E) as Hm.
  change (Pos.compare_cont Eq m M) with (m ?= M)%positive in H100.
  pose proof (Z.compare_spec e (-46)) as He.
  pose proof (Pos.compare_spec m M) as HmM.
  assert (Hneg : (0 <=? e)%Z = false).
  { apply Z.leb_gt. destruct He; [lia|lia|discriminate H100]. }
  rewrite Hneg.
  set (k := (2 ^ (- e))%Z).
  assert (Hk : (0 < k)%Z) by (apply Z.pow_pos_nonneg; lia).
  set (q := ((2 * Z.pos m + k) / (2 * k))%Z).
  assert (Hq : (0 <= q <= 100)%Z).
  { split; [apply Z.div_pos; lia|].
    assert (q < 101)%Z; [|lia].
    apply Z.div_lt_upper_bound; [lia|].
    destruct He as [He|He|He]; [| |discriminate H100].
    - assert (Hle : (Z.pos m <= Z.pos M)%Z).
      { destruct HmM as [C|C|C]; [rewrite C; lia | lia | discriminate H100]. }
      assert (Hk46 : k = 70368744177664%Z) by (subst k; rewrite He; reflexivity).
      clear - Hle Hk46 HM. subst M. lia.
    - assert (H47 : (2 ^ 47 <= k)%Z) by (apply Z.pow_le_mono_r; lia).
      change (2 ^ 47)%Z with 140737488355328%Z in H47.
      change (2 ^ 53)%Z with 9007199254740992%Z in Hm.
      clear - H47 Hm. lia. }
  exists q. split; [exact Hq|].
  destruct (q =? 0)%Z eqn:Q; [|reflexivity].
  apply Z.eqb_eq in Q. rewrite Q. reflexivity.
Qed.

(** The score of a match: what [Math.round(Math.max(0, Math.min(100, x)))]
    is for a number [x]. *)
Lemma round_clamp_percent (x : float) :
  is_nan x = false ->
  exists q, (0 <= q <= 100)%Z
            /\ Math_round (Math_max 0 (Math_min 100 x)) = of_Z q.
Proof.
  intro Hx. destruct (clamp_range x Hx) as [-> | [H0 H100]].
  - exists 0%Z. split; [lia | reflexivity].
  - apply Math_round_percent; assumption.
Qed.

(** The sign bit is clear: +0, a positive number or +infinity. *)
Definition SFplus (x : spec_float) : bool :=
  match x with
  | S754_zero s | S754_infinity s | S754_finite s _ _ => negb s
  | S754_nan => false
  end.

Lemma SFplus_nonneg (x : spec_float) : SFplus x = true -> SFnonneg x = true.
Proof. destruct x as [s|s| |s m e]; cbn; tauto. Qed.

Lemma binary_round_aux_plus (m e : Z) (l : location) :
  (0 <= m)%Z -> SFplus (binary_round_aux prec emax false m e l) = true.
Proof.
  intro Hm. unfold binary_round_aux.
  pose proof (shr_fexp_nonneg m e l Hm) as H1.
  destruct (shr_fexp prec emax m e l) as [mrs' e'] eqn:E1. cbn [fst] in H1.
  pose proof (shr_fexp_nonneg
                (round_nearest_even (shr_m mrs') (loc_of_shr_record mrs'))
                e' loc_Exact
                (round_nearest_even_nonneg _ _ H1)) as H2.
  destruct (shr_fexp prec emax _ e' loc_Exact) as [mrs'' e''] eqn:E2.
  cbn [fst] in H2.
  destruct (shr_m mrs'') as [|p|p]; [reflexivity| |lia].
  destruct (e'' <=? emax - prec)%Z; reflexivity.
Qed.

Lemma SF64div_plus (x : spec_float) (m : positive) (e : Z) :
  SFplus x = true -> SFplus (SF64div x (S754_finite false m e)) = true.
Proof.
  destruct x as [sx|sx| |sx mx ex]; try destruct sx; cbn [SFplus negb];
    try discriminate; try reflexivity.
  intros _. unfold SF64div, SFdiv.
  pose proof (SFdiv_core_binary_nonneg mx m ex e) as H.
  destruct (SFdiv_core_binary prec emax (Z.pos mx) ex (Z.pos m) e)
    as [[mz ez] lz].
  cbn [fst] in H. cbn [xorb]. apply binary_round_aux_plus, H.
Qed.

Lemma SF64mul_plus (x : spec_float) (m : positive) (e : Z) :
  SFplus x = true -> SFplus (SF64mul x (S754_finite false m e)) = true.
Proof.
  destruct x as [sx|sx| |sx mx ex]; try destruct sx; cbn [SFplus negb];
    try discriminate; try reflexivity.
  intros _. unfold SF64mul, SFmul. cbn [xorb].
  apply binary_round_aux_plus. lia.
Qed.

Lemma of_Z_plus (z : Z) :
  (0 <= z < 2 ^ 53)%Z -> SFplus (Prim2SF (of_Z z)) = true.
Proof.
  intros [H0 H1]. destruct (Z.eq_dec z 0) as [->|Hz]; [reflexivity|].
  destruct (of_Z_exact z ltac:(lia)) as [m [H _]]. rewrite H. reflexivity.
Qed.

Lemma of_Z_above_100 (q : Z) :
  (100 < q < 2 ^ 53)%Z -> (100 <? of_Z q) = true.
Proof.
  intro Hq. destruct (of_Z_exact q ltac:(lia)) as [m [H Hm]].
  rewrite ltb_spec, H.
  change (Prim2SF 100) with (S754_finite false 7036874417766400 (-46)).
  unfold SFltb, SFcompare.
  destruct q as [|p|p]; try lia. cbn [Zdigits2] in *.
  pose proof (digits2_pos_upper p) as Hu.
  set (d := Z.pos (digits2_pos p)) in *.
  assert (Hd : (7 <= d)%Z).
  { destruct (Z_le_gt_dec 7 d) as [Hle|Hgt]; [exact Hle|]. exfalso.
    assert (2 ^ d <= 2 ^ 6)%Z by (apply Z.pow_le_mono_r; lia).
    change (2 ^ 6)%Z with 64%Z in *. lia. }
  destruct (Z.compare_spec (-46) (d - 53)) as [He|He|He];
    [|reflexivity|lia].
  replace (53 - d)%Z with 46%Z in Hm by lia.
  change (Pos.compare_cont Eq 7036874417766400 m)
    with (7036874417766400 ?= m)%positive.
  destruct (Pos.compare_spec 7036874417766400 m) as [C|C|C];
    [|reflexivity|].
  - exfalso. change (2 ^ 46)%Z with 70368744177664%Z in Hm.
    rewrite <- C in Hm. clear - Hm Hq. lia.
  - exfalso. change (2 ^ 46)%Z with 70368744177664%Z in Hm.
    apply Pos2Z.pos_lt_pos in C.
    assert (H101 : (101 <= Z.pos p)%Z) by (clear - Hq; lia).
    clear - C Hm H101. lia.
Qed.

Lemma of_nat_upto_100 (n : nat) :
  (n <= 100)%nat -> Math_min 100 (of_nat n) = of_nat n.
Proof.
  intro H. do 101 (destruct n as [|n]; [reflexivity|]). lia.
Qed.

Lemma Math_min_100_of_Z (q : Z) :
  (0 <= q < 2 ^ 53)%Z ->
  exists r, (0 <= r <= 100)%Z /\ Math_min 100 (of_Z q) = of_Z r.
Proof.
  intro Hq. destruct (Z_le_gt_dec q 100) as [Hle|Hgt].
  - exists q. split; [lia|].
    pose proof (of_nat_upto_100 (Z.to_nat q) ltac:(lia)) as H.
    unfold of_nat in H. rewrite Z2Nat.id in H by lia. exact H.
  - exists 100%Z. split; [lia|].
    pose proof (of_Z_above_100 q ltac:(lia)) as H.
    unfold Math_min. change (is_nan 100) with false. cbn [orb].
    assert (Hn : is_nan (of_Z q) = false).
    { apply nonneg_not_nan, of_Z_nonneg. lia. }
    rewrite Hn, H. reflexivity.
Qed.

(** [Math.min(100, Math.round(x))] of a number with a clear sign bit is an
    integer in [0, 100]. *)
Lemma Math_min_round_percent (x : float) :
  SFplus (Prim2SF x) = true ->
  exists q, (0 <= q <= 100)%Z /\ Math_min 100 (Math_round x) = of_Z q.
Proof.
  intro Hx. unfold Math_round.
  destruct (Prim2SF x) as [s|s| |s m e] eqn:E; cbn [SFplus] in Hx;
    try discriminate Hx; destruct s; try discriminate Hx.
  - exists 0%Z. split; [lia|].
    rewrite <- (SF2Prim_Prim2SF x), E. reflexivity.
  - exists 100%Z. split; [lia|].
    rewrite <- (SF2Prim_Prim2SF x), E. reflexivity.
  - pose proof (valid_mantissa_bound x false m e E) as Hm.
    destruct (0 <=? e)%Z eqn:He.
    + apply Z.leb_le in He. exists 100%Z. split; [lia|].
      assert (Hlt : (100 <? x) = true).
      { rewrite ltb_spec, E.
        change (Prim2SF 100) with (S754_finite false 7036874417766400 (-46)).
        unfold SFltb, SFcompare.
        destruct (Z.compare_spec (-46) e); [lia|reflexivity|lia]. }
      unfold Math_min. change (is_nan 100) with false. cbn [orb].
      assert (Hn : is_nan x = false).
      { apply number_not_nan. rewrite E. reflexivity. }
      rewrite Hn, Hlt. reflexivity.
    + apply Z.leb_gt in He.
      set (k := (2 ^ (- e))%Z).
      assert (Hk : (2 <= k)%Z).
      { change 2%Z with (2 ^ 1)%Z. apply Z.pow_le_mono_r; lia. }
      set (q := ((2 * Z.pos m + k) / (2 * k))%Z).
      assert (Hq : (0 <= q < 2 ^ 53)%Z).
      { split; [apply Z.div_pos; lia|].
        apply Z.div_lt_upper_bound; [lia|]. nia. }
      destruct (Math_min_100_of_Z q Hq) as [r [Hr H]].
      exists r. split; [exact Hr|]. rewrite <- H.
      destruct (q =? 0)%Z eqn:Q; [|reflexivity].
      apply Z.eqb_eq in Q. rewrite Q. reflexivity.
Qed.

Import JSString ResumeModel.
Open Scope string_scope.

Lemma levelAdjustment_finite (experienceYears : nat) (jobLevel : string) :
  existsb (String.eqb jobLevel) Object_prototype_names = false ->
  exists x,
    lookup_or_zero (levelAdjustment experienceYears) jobLevel = Number x
    /\ SFfinite (Prim2SF x) = true.
Proof.
  intro Hown. unfold lookup_or_zero, levelAdjustment. cbn [find fst snd].
  repeat match goal with
         | |- context [(?name =? jobLevel)%string] =>
             destruct (name =? jobLevel)%string;
             [ match goal with
               | |- context [(?t <=? experienceYears)%nat] =>
                   destruct (t <=? experienceYears)%nat
               end; eexists; split; reflexivity | ]
         end.
  rewrite Hown. eexists. split; reflexivity.
Qed.

Lemma of_nat_small (n : nat) :
  (0 < n)%nat -> (Z.of_nat n < 2 ^ 53)%Z ->
  exists m e, Prim2SF (of_nat n) = S754_finite false m e.
Proof. intros H0 H1. apply of_Z_small. lia. Qed.

Lemma Math_max_count (n : nat) :
  (Z.of_nat n < 2 ^ 53)%Z ->
  exists m e, Prim2SF (Math_max (of_nat n) 1) = S754_finite false m e.
Proof.
  intro Hn. unfold Math_max.
  rewrite (nonneg_not_nan _ (of_nat_nonneg n)).
  change (is_nan 1) with false. cbn [orb].
  destruct (of_nat n <? 1)%float eqn:E1; [eexists; eexists; reflexivity|].
  assert (Hpos : (0 < n)%nat).
  { destruct n as [|n]; [discriminate E1 | lia]. }
  destruct (of_nat_small n Hpos Hn) as [m [e H]].
  destruct (1 <? of_nat n)%float; [exists m, e; exact H|].
  destruct (get_sign (of_nat n));
    [eexists; eexists; reflexivity | exists m, e; exact H].
Qed.

(** The score of a match is a whole number of percent when the level of
    the job names no member of [Object.prototype]. *)
Lemma matchScore_percent (this : Resume) (job : Job) :
  (Z.of_nat (List.length (skills job)) < 2 ^ 53)%Z ->
  existsb (String.eqb (level job)) Object_prototype_names = false ->
  exists q : Z,
    (0 <= q <= 100)%Z
    /\ matchScore (calculateJobMatch this job) = of_Z q.
Proof.
  intros Hn Hown. cbn [calculateJobMatch matchScore].
  destruct (levelAdjustment_finite
              (List.length (analysis_experience this)) (level job) Hown)
    as [x [-> Hx]].
  cbn [adjust_within_bounds].
  apply round_clamp_percent, add_not_nan; [|exact Hx].
  rewrite !length_map.
  destruct (0 <? List.length (skills job))%nat eqn:E; [|reflexivity].
  apply Nat.ltb_lt in E.
  destruct (of_nat_small _ E Hn) as [m [e H]].
  apply mul_hundred_nonneg, (div_nonneg _ _ m e); [apply of_nat_nonneg|].
  exact H.
Qed.

(** For every resume and every job (whose skill list is an array, so
    shorter than 2^53): when the level of the job names no member of
    [Object.prototype], be it a row of the table or not, [matchScore] is
    an integer between 0 and 100, however many resume skills match, and so
    satisfies the bounds the Application schema puts on the member it is
    stored in; when the level names such a member ([constructor],
    [toString], ...), [matchScore] is NaN. *)
Theorem calculateJobMatch_score_percent (this : Resume) (job : Job) :
  (Z.of_nat (List.length (skills job)) < 2 ^ 53)%Z ->
  (existsb (String.eqb (level job)) Object_prototype_names = false ->
   exists q : Z,
     (0 <= q <= 100)%Z
     /\ matchScore (calculateJobMatch this job) = of_Z q)
  /\ (existsb (String.eqb (level job)) Object_prototype_names = true ->
      is_nan (matchScore (calculateJobMatch this job)) = true).
Proof.
  intro Hn. split; intro Hown; cbn [calculateJobMatch matchScore].
  - destruct (levelAdjustment_finite
                (List.length (analysis_experience this)) (level job) Hown)
      as [x [-> Hx]].
    cbn [adjust_within_bounds].
    apply round_clamp_percent, add_not_nan; [|exact Hx].
    rewrite !length_map.
    destruct (0 <? List.length (skills job))%nat eqn:E; [|reflexivity].
    apply Nat.ltb_lt in E.
    destruct (of_nat_small _ E Hn) as [m [e H]].
    apply mul_hundred_nonneg, (div_nonneg _ _ m e); [apply of_nat_nonneg|].
    exact H.
  - rewrite (lookup_inherited_level _ _ Hown). reflexivity.
Qed.

Definition constructor_job : Job :=
  {| skills := map listed ["javascript"; "python"];
     level := "constructor" |}.

Lemma calculateJobMatch_score_percent_witness :
  (Z.of_nat (List.length (skills scenario_job)) < 2 ^ 53)%Z
  /\ (exists q : Z,
        (0 <= q <= 100)%Z
        /\ matchScore (calculateJobMatch scenario_resume scenario_job)
           = of_Z q)
  /\ is_nan (matchScore (calculateJobMatch scenario_resume constructor_job))
     = true.
Proof.
  assert (H : (Z.of_nat (List.length (skills scenario_job)) < 2 ^ 53)%Z)
    by reflexivity.
  split; [exact H|]. split.
  - exact (proj1 (calculateJobMatch_score_percent scenario_resume
                    scenario_job H) eq_refl).
  - exact (proj2 (calculateJobMatch_score_percent scenario_resume
                    constructor_job H) eq_refl).
Defined.

End ScoreRange.

(** ** The two skill lists of a match *)

Section MatchLists.

Import JSString JSNumber ResumeModel.
Open Scope string_scope.

(** The two lists of a match, which two separate filters compute, agree
    with each other: every matched skill is a lower-cased resume skill,
    every missing skill a lower-cased job skill; a job skill is missing
    exactly when no matched skill covers it (in either direction of
    containment); and nothing is matched exactly when every job skill is
    missing. *)
Theorem calculateJobMatch_lists_agree (this : Resume) (job : Job) :
  let resumeSkills := lower_names skill_name (analysis_skills this) in
  let jobSkills := lower_names job_skill_name (skills job) in
  let result := calculateJobMatch this job in
  (forall s, In s (matchedSkills result) -> In s resumeSkills)
  /\ (forall j, In j (missingSkills result) -> In j jobSkills)
  /\ (forall j, In j jobSkills ->
        (In j (missingSkills result)
         <-> ~ exists s, In s (matchedSkills result)
                         /\ matches_bidirectionally s j))
  /\ (matchedSkills result = [] <-> missingSkills result = jobSkills).
Proof.
  intros resumeSkills jobSkills result.
  assert (Hmatched : forall s, In s (matchedSkills result)
                     <-> In s resumeSkills
                         /\ exists j, In j jobSkills
                                      /\ matches_bidirectionally s j).
  { intro s. cbn [result calculateJobMatch matchedSkills].
    rewrite filter_In, existsb_exists.
    split; intros [Hin [j [Hj H]]]; (split; [exact Hin|]); exists j;
      (split; [exact Hj|]); apply bidirectional_test; exact H. }
  assert (Hmissing : forall j, In j (missingSkills result)
                     <-> In j jobSkills
                         /\ ~ exists s, In s resumeSkills
                                        /\ matches_bidirectionally j s).
  { intro j. cbn [result calculateJobMatch missingSkills].
    rewrite filter_In, negb_true_iff, <- not_true_iff_false, existsb_exists.
    split; intros [Hin Hno]; (split; [exact Hin|]); intros [s [Hs H]];
      apply Hno; exists s; (split; [exact Hs|]); apply bidirectional_test;
      exact H. }
  assert (Hsym : forall a b, matches_bidirectionally a b
                             -> matches_bidirectionally b a).
  { intros a b [H|H]; [right|left]; exact H. }
  assert (Hcover : forall j, In j jobSkills ->
            (In j (missingSkills result)
             <-> ~ exists s, In s (matchedSkills result)
                             /\ matches_bidirectionally s j)).
  { intros j Hj. rewrite Hmissing. split.
    - intros [_ Hno] [s [Hs H]]. apply Hmatched in Hs. apply Hno.
      exists s. split; [tauto | apply Hsym, H].
    - intro Hno. split; [exact Hj|]. intros [s [Hs H]]. apply Hno.
      exists s. split; [|apply Hsym, H]. apply Hmatched.
      split; [exact Hs|]. exists j. split; [exact Hj | apply Hsym, H]. }
  split; [intros s Hs; apply Hmatched in Hs; tauto|].
  split; [intros j Hj; apply Hmissing in Hj; tauto|].
  split; [exact Hcover|].
  split.
  - intro Hnone.
    change (missingSkills result)
      with (filter (fun skill =>
                      negb (existsb (fun resumeSkill =>
                                       includes resumeSkill skill
                                       || includes skill resumeSkill)
                                    resumeSkills))
                   jobSkills).
    apply filter_all_iff. intros j Hj.
    assert (Hin : In j (missingSkills result)).
    { apply Hcover; [exact Hj|]. rewrite Hnone. intros [s [[] _]]. }
    cbn [result calculateJobMatch missingSkills] in Hin.
    apply filter_In in Hin. tauto.
  - intro Hall. destruct (matchedSkills result) as [|s l] eqn:E;
      [reflexivity|]. exfalso.
    assert (Hs : In s (s :: l)) by (left; reflexivity).
    destruct (proj1 (Hmatched s) Hs) as [_ [j [Hj H]]].
    assert (Hmiss : In j (missingSkills result)) by (rewrite Hall; exact Hj).
    apply (Hcover j Hj) in Hmiss. apply Hmiss. exists s. tauto.
Qed.

(** The reasons are never empty and never more than four, and the generic
    reason only ever stands alone. *)
Theorem generateRelevanceReasons_bounds (this : Resume)
  (matchedSkills : list string) (job : Job) :
  let reasons := generateRelevanceReasons this matchedSkills job in
  (1 <= List.length reasons <= 4)%nat
  /\ (In generic_message reasons -> reasons = [generic_message]).
Proof.
  unfold generateRelevanceReasons, push.
  destruct (3 <? List.length matchedSkills)%nat;
    destruct (2 <=? List.length (analysis_experience this))%nat;
    destruct ((level job =? "senior")
              && (85 <? aiAnalysis_overallScore this)%float);
    destruct (existsb _ matchedSkills);
    cbn [app List.length Nat.ltb Nat.leb]; (split; [lia|]);
    try reflexivity;
    intro H; exfalso; cbn [In] in H;
    repeat (destruct H as [H|H]; [discriminate H|]); exact H.
Qed.

End MatchLists.

(** ** What the keyword scan finds *)

Section SkillScan.

Import JSString JSNumber ResumeProcessor.
Open Scope string_scope.

Lemma calculateSkillConfidence_returns (text skill : string) (c : float) :
  calculateSkillConfidence text skill = Returns c ->
  exists n r, c = confidence_of n r.
Proof.
  unfold calculateSkillConfidence.
  destruct (RegExp.parse skill) as [re| |] eqn:E; cbn [bind];
    try discriminate.
  rewrite bump_fold. intro H. injection H as <-.
  eexists. eexists. reflexivity.
Qed.

(** What one entry of the scan is, for a keyword of [keywords]. *)
Definition scanned (keywords : list string) (entry : SkillEntry) : Prop :=
  In (name entry) keywords
  /\ skill_category entry = categorizeSkill (name entry)
  /\ exists n r, confidence entry = confidence_of n r.

Lemma forEach_step_found (textLower : string) (keywords : list string) :
  forall found0 found,
    forEach (extractSkills_step textLower) keywords found0 = Returns found ->
    exists added,
      found = (found0 ++ added)%list
      /\ map name added = filter (includes textLower) keywords
      /\ Forall (scanned keywords) added.
Proof.
  induction keywords as [|k keywords IH]; intros found0 found;
    cbn [forEach filter].
  - intro H. injection H as <-. exists []. rewrite app_nil_r.
    repeat split. constructor.
  - unfold extractSkills_step at 1.
    assert (Hweak : forall added, Forall (scanned keywords) added ->
                                  Forall (scanned (k :: keywords)) added).
    { intros added. apply Forall_impl. intros e [H1 H2].
      split; [right; exact H1 | exact H2]. }
    destruct (includes textLower k) eqn:E.
    + destruct (calculateSkillConfidence textLower k) as [c| |] eqn:Ec;
        cbn [bind]; try discriminate.
      intro H. apply IH in H. destruct H as [added [-> [Hn Hs]]].
      eexists (_ :: added). rewrite <- app_assoc. split; [reflexivity|].
      cbn [map name]. rewrite Hn. split; [reflexivity|].
      constructor; [|apply Hweak, Hs].
      split; [left; reflexivity|]. split; [reflexivity|].
      apply (calculateSkillConfidence_returns _ _ _ Ec).
    + cbn [bind]. intro H. apply IH in H.
      destruct H as [added [-> [Hn Hs]]]. exists added.
      repeat split; [exact Hn | apply Hweak, Hs].
Qed.

(** No keyword of the table falls in the categories language or
    certification. *)
Lemma skillKeywords_categories :
  forallb (fun skill => match categorizeSkill skill with
                        | technical | soft | other => true
                        | language | certification => false
                        end) skillKeywords = true.
Proof. vm_compute. reflexivity. Qed.

Lemma skillKeywords_NoDup : NoDup skillKeywords.
Proof.
  assert (H : nodup string_dec skillKeywords = skillKeywords)
    by (vm_compute; reflexivity).
  rewrite <- H. apply NoDup_nodup.
Qed.

(** Whenever the scan returns: the names it found are exactly the
    keywords of the table that occur in the lower-cased text as
    substrings, in table order and without repetition (so the keyword [r]
    is found in every text that holds the letter, and [java] in every text
    that holds [javascript]); each entry carries the category of its
    name, which is technical, soft or other, never language or
    certification; and each confidence lies in [0, 1], as the schema of
    the stored skill demands. *)
Theorem extractSkills_found (text : string) (found : list SkillEntry) :
  extractSkills text = Returns found ->
  map name found = filter (includes (toLowerCase text)) skillKeywords
  /\ NoDup (map name found)
  /\ Forall (fun entry =>
               skill_category entry = categorizeSkill (name entry)
               /\ (skill_category entry = technical
                   \/ skill_category entry = soft
                   \/ skill_category entry = other)
               /\ (0 <=? confidence entry)%float = true
               /\ (confidence entry <=? 1)%float = true)
            found.
Proof.
  unfold extractSkills. intro H. apply forEach_step_found in H.
  destruct H as [added [-> [Hn Hs]]]. cbn [app].
  split; [exact Hn|]. split.
  - rewrite Hn. apply NoDup_filter, skillKeywords_NoDup.
  - revert Hs. apply Forall_impl. intros e [Hin [Hc [n [r Hconf]]]].
    split; [exact Hc|]. split.
    + pose proof skillKeywords_categories as Hall.
      rewrite forallb_forall in Hall. specialize (Hall _ Hin).
      rewrite Hc. destruct (categorizeSkill (name e));
        try discriminate Hall; tauto.
    + rewrite Hconf. apply confidence_of_range.
Qed.

Lemma extractSkills_found_witness :
  extractSkills "Python"
  = Returns [ {| name := "python"; skill_category := technical;
                 confidence := 0.4 |} ]
  /\ map name [ {| name := "python"; skill_category := technical;
                    confidence := 0.4 |} ]
     = filter (includes (toLowerCase "Python")) skillKeywords.
Proof.
  assert (H : extractSkills "Python"
              = Returns [ {| name := "python"; skill_category := technical;
                             confidence := 0.4 |} ])
    by (vm_compute; reflexivity).
  split; [exact H|].
  exact (proj1 (extractSkills_found "Python" _ H)).
Defined.

End SkillScan.

(** ** How the background processing ends *)

Section Processing.

Import JSString JSValue ResumeRoutes.
Open Scope string_scope.

Lemma analyzeResume_returns (env : AIService.environment)
  (resumeText fileName : string) :
  exists r, AIService.analyzeResume env resumeText fileName = Returns r.
Proof.
  unfold AIService.analyzeResume.
  pose proof (callOpenAI_modelled env
                (AIService.createResumeAnalysisPrompt resumeText)) as Hm.
  destruct (AIService.callOpenAI env _) as [response|e|];
    cbn [bind try_catch]; [|eexists; reflexivity|contradiction].
  destruct (AIService.parseResumeAnalysis env response) as [analysis k].
  pose proof (calculateOverallScore_modelled env analysis) as Hc.
  destruct (AIService.calculateOverallScore env analysis) as [x|e|];
    cbn [bind try_catch]; [| |contradiction]; eexists; reflexivity.
Qed.

(** The update of the catch block. *)
Definition record_failure (db : resume_store) (error : js_error)
  : outcome resume_update :=
  findByIdAndUpdate db (Failed (error_message error)).

Lemma findByIdAndUpdate_cases (db : resume_store) (update : resume_update) :
  (db update = None /\ findByIdAndUpdate db update = Returns update)
  \/ (exists error, db update = Some error
                    /\ findByIdAndUpdate db update = Throws error).
Proof.
  unfold findByIdAndUpdate. destruct (db update) as [error|].
  - right. exists error. split; reflexivity.
  - left. split; reflexivity.
Qed.

(** How a run of the background processing ends, whatever the provider
    answered. On a text that mentions [c++] (in any case of letters) the
    only update handed to the database is the failure with the message of
    the regular expression error. On any other text the keyword scan and
    [analyzeResume] both return and the update assembled from them is
    handed over; if the database rejects it, the failure handed over next
    carries the message of that rejection. The run ends when the database
    has taken one of the two updates; it rejects exactly when the database
    rejects the failure update, which nothing catches. *)
Theorem processResumeAsync_settles (scans : line_scans)
  (env : AIService.environment) (db : resume_store)
  (extractedText fileName : string) :
  (includes (toLowerCase extractedText) "c++" = true ->
   processResumeAsync scans env db extractedText fileName
   = findByIdAndUpdate db
       (Failed "Invalid regular expression: /c++/gi: Nothing to repeat"))
  /\ (includes (toLowerCase extractedText) "c++" = false ->
      exists found aiAnalysis,
        ResumeProcessor.extractSkills extractedText = Returns found
        /\ AIService.analyzeResume env extractedText fileName
           = Returns aiAnalysis
        /\ processResumeAsync scans env db extractedText fileName
           = try_catch
               (findByIdAndUpdate db
                  (assemble
                     {| skills := found;
                        education := extractEducation scans extractedText;
                        experience := extractExperience scans extractedText |}
                     aiAnalysis))
               (record_failure db))
  /\ (forall update,
        processResumeAsync scans env db extractedText fileName
        = Returns update ->
        db update = None
        /\ ((exists analysis scoring, update = Completed analysis scoring)
            -> includes (toLowerCase extractedText) "c++" = false))
  /\ (forall error,
        processResumeAsync scans env db extractedText fileName
        = Throws error ->
        exists message, db (Failed message) = Some error)
  /\ processResumeAsync scans env db extractedText fileName <> Unmodelled.
Proof.
  assert (Hcpp : includes (toLowerCase extractedText) "c++" = true ->
                 processResumeAsync scans env db extractedText fileName
                 = findByIdAndUpdate db
                     (Failed "Invalid regular expression: /c++/gi: Nothing to repeat")).
  { intro H. unfold processResumeAsync, extractBasicInfo.
    rewrite (extractSkills_throws _ H). reflexivity. }
  assert (Hno : includes (toLowerCase extractedText) "c++" = false ->
                exists found aiAnalysis,
                  ResumeProcessor.extractSkills extractedText = Returns found
                  /\ AIService.analyzeResume env extractedText fileName
                     = Returns aiAnalysis
                  /\ processResumeAsync scans env db extractedText fileName
                     = try_catch
                         (findByIdAndUpdate db
                            (assemble
                               {| skills := found;
                                  education :=
                                    extractEducation scans extractedText;
                                  experience :=
                                    extractExperience scans extractedText |}
                               aiAnalysis))
                         (record_failure db)).
  { intro H. unfold processResumeAsync, extractBasicInfo.
    destruct (extractSkills_returns _ H) as [found Hf].
    destruct (analyzeResume_returns env extractedText fileName) as [a Ha].
    exists found, a. rewrite Hf, Ha. repeat split. }
  split; [exact Hcpp|]. split; [exact Hno|].
  destruct (includes (toLowerCase extractedText) "c++") eqn:E.
  - rewrite (Hcpp eq_refl).
    destruct (findByIdAndUpdate_cases db
                (Failed "Invalid regular expression: /c++/gi: Nothing to repeat"))
      as [[Hd ->] | [error [Hd ->]]].
    + split; [|split; [discriminate | discriminate]].
      intros update H. injection H as <-. split; [exact Hd|].
      intros [analysis [scoring H]]. discriminate H.
    + split; [discriminate|]. split; [|discriminate].
      intros e H. injection H as <-. eexists. exact Hd.
  - destruct (Hno eq_refl) as [found [a [_ [_ ->]]]].
    match goal with
    | |- context [findByIdAndUpdate db ?u] =>
        destruct (findByIdAndUpdate_cases db u) as [[Hd ->] | [error [Hd ->]]]
    end; cbn [try_catch].
    + split; [|split; discriminate].
      intros update H. injection H as <-. split; [exact Hd|]. reflexivity.
    + unfold record_failure.
      destruct (findByIdAndUpdate_cases db (Failed (error_message error)))
        as [[Hf ->] | [error' [Hf ->]]].
      * split; [|split; discriminate].
        intros update H. injection H as <-. split; [exact Hf|].
        intros [analysis [scoring H]]. discriminate H.
      * split; [discriminate|]. split; [|discriminate].
        intros e H. injection H as <-. eexists. exact Hf.
Qed.

End Processing.

(** ** Uploads *)

Section Uploads.

Import JSString ResumeProcessor ResumeRoutes.
Open Scope string_scope.

(** [extractText] returns exactly when the file reads, its declared type
    is one of the three and its decoder resolves; what it returns is the
    normalised text of what the decoder gave. *)
Theorem extractText_returns (env : extraction_env) (filePath mimeType : string)
  (text : string) :
  extractText env filePath mimeType = Returns text
  <-> exists buffer data,
        readFile env filePath = Some buffer
        /\ ((mimeType = mime_pdf /\ pdfParse env buffer = Some data)
            \/ ((mimeType = mime_doc \/ mimeType = mime_docx)
                /\ extractRawText env buffer = Some data))
        /\ text = cleanText data.
Proof.
  unfold extractText. split.
  - destruct (readFile env filePath) as [buffer|]; cbn [await bind try_catch];
      [|discriminate].
    destruct (String.eqb_spec mimeType mime_pdf) as [->|Hpdf].
    + unfold extractFromPDF.
      destruct (pdfParse env buffer) as [data|] eqn:E;
        cbn [await bind try_catch]; [|discriminate].
      intro H. injection H as <-. exists buffer, data. tauto.
    + destruct (String.eqb_spec mimeType mime_doc) as [->|Hdoc];
        [|destruct (String.eqb_spec mimeType mime_docx) as [->|Hdocx]];
        cbn [orb]; try discriminate;
        unfold extractFromWord;
        (destruct (extractRawText env buffer) as [data|] eqn:E;
         cbn [await bind try_catch]; [|discriminate]);
        intro H; injection H as <-; exists buffer, data; tauto.
  - intros [buffer [data [-> [[[-> Hp] | [[-> | ->] Hw]] ->]]]];
      cbn [await bind];
      cbn [mime_pdf mime_doc mime_docx String.eqb Ascii.eqb Bool.eqb andb orb];
      unfold extractFromPDF, extractFromWord; rewrite ?Hp, ?Hw; reflexivity.
Qed.

Lemma extractText_modelled (env : extraction_env) (filePath mimeType : string) :
  extractText env filePath mimeType <> Unmodelled.
Proof.
  unfold extractText.
  destruct (readFile env filePath) as [buffer|]; cbn [await bind try_catch];
    [|discriminate].
  destruct (mimeType =? mime_pdf).
  - unfold extractFromPDF. destruct (pdfParse env buffer); discriminate.
  - destruct ((mimeType =? mime_doc) || (mimeType =? mime_docx));
      [|discriminate].
    unfold extractFromWord. destruct (extractRawText env buffer); discriminate.
Qed.

(** What [extractText] returns is a normalised text. *)
Lemma extractText_clean (env : extraction_env) (filePath mimeType : string)
  (text : string) :
  extractText env filePath mimeType = Returns text ->
  exists data, text = cleanText data.
Proof.
  unfold extractText.
  destruct (readFile env filePath) as [buffer|]; cbn [await bind try_catch];
    [|discriminate].
  destruct (mimeType =? mime_pdf).
  - unfold extractFromPDF.
    destruct (pdfParse env buffer) as [data|]; cbn [await bind try_catch];
      [|discriminate].
    intro H. injection H as <-. exists data. reflexivity.
  - destruct ((mimeType =? mime_doc) || (mimeType =? mime_docx));
      [|discriminate].
    unfold extractFromWord.
    destruct (extractRawText env buffer) as [data|];
      cbn [await bind try_catch]; [|discriminate].
    intro H. injection H as <-. exists data. reflexivity.
Qed.

Definition accepted (f : upload) (text : string) : resume_record :=
  {| fileName := filename f;
     originalName := originalname f;
     filePath := path f;
     fileSize := size f;
     mimeType := mimetype f;
     extractedText := text;
     processingStatus := "processing" |}.

Lemma removed_gone (filePath : string) (st : server_state) :
  resumes (removed filePath st) = resumes st
  /\ ~ In filePath (files (removed filePath st)).
Proof.
  split; [reflexivity|]. cbn [removed files]. intro H.
  apply filter_In in H. destruct H as [_ H].
  rewrite String.eqb_refl in H. discriminate H.
Qed.

(** What is left after a request that created no record: the collection
    as it was, and the uploaded file removed if [fs.unlink] did it. *)
Definition cleaned_up (disk : storage) (filePath : string)
  (st st' : server_state) : Prop :=
  resumes st' = resumes st
  /\ (st' = removed filePath st \/ st' = st)
  /\ ((forall k, unlink disk k filePath = None) ->
      st' = removed filePath st /\ ~ In filePath (files st'))
  /\ ((forall k, unlink disk k filePath <> None) -> st' = st).

Lemma deleteFile_caught_cleaned_up (disk : storage) (k : nat)
  (filePath : string) (st : server_state) :
  cleaned_up disk filePath st (deleteFile_caught disk k filePath st).
Proof.
  unfold cleaned_up.
  destruct (deleteFile_caught_cases disk k filePath st)
    as [[Hu ->] | [Hu ->]].
  - split; [reflexivity|]. split; [left; reflexivity|].
    split; [intros _; split; [reflexivity | apply removed_gone]|].
    intro Hall. specialize (Hall k). contradiction.
  - split; [reflexivity|]. split; [right; reflexivity|].
    split; [|reflexivity].
    intro Hall. specialize (Hall k). contradiction.
Qed.

(** The upload handler always answers, with 201, 400 or 500. It answers
    201 exactly when the extraction returns at least 100 characters and
    the database takes the new record; the record then holds the
    normalised text (no carriage return, no two neighbouring white-space
    characters) and starts in the status [processing]. With every other
    answer the collection is as before, and the uploaded file is gone
    if [fs.unlink] removes it; when [fs.unlink] fails the file stays on
    disk (after a failure in the 400 branch the answer is 500). *)
Theorem postResume_outcomes (env : extraction_env) (disk : storage)
  (f : upload) (st : server_state) :
  exists answer st',
    postResume env disk (Some f) st = Returns (answer, st')
    /\ (status answer = 201 \/ status answer = 400 \/ status answer = 500)
    /\ (status answer = 201 ->
        exists text,
          extractText env (path f) (mimetype f) = Returns text
          /\ (100 <= String.length text)%nat
          /\ Resume_create disk (accepted f text) = None
          /\ st' = inserted (accepted f text) st
          /\ has CR text = false /\ adjacent_ws text = false)
    /\ (forall text,
          extractText env (path f) (mimetype f) = Returns text ->
          (100 <= String.length text)%nat ->
          Resume_create disk (accepted f text) = None ->
          status answer = 201)
    /\ (status answer = 400 ->
        exists text,
          extractText env (path f) (mimetype f) = Returns text
          /\ (String.length text < 100)%nat
          /\ (unlink disk 0 (path f) = None
              \/ unlink disk 0 (path f) = Some "ENOENT"))
    /\ (status answer <> 201 -> cleaned_up disk (path f) st st').
Proof.
  unfold postResume.
  pose proof (extractText_modelled env (path f) (mimetype f)) as Hm.
  destruct (extractText env (path f) (mimetype f)) as [text|e|] eqn:E;
    [| |contradiction].
  - destruct (String.length text <? 100)%nat eqn:L.
    + apply Nat.ltb_lt in L.
      assert (Hlong : forall text0 : string,
                 Returns text = Returns text0 ->
                 (100 <= String.length text0)%nat -> False).
      { intros text0 H. injection H as <-. lia. }
      unfold deleteFile.
      destruct (unlink disk 0 (path f)) as [code|] eqn:U;
        [destruct (String.eqb_spec code "ENOENT") as [->|Hcode]|].
      * eexists. eexists. split; [reflexivity|].
        split; [right; left; reflexivity|].
        split; [discriminate|].
        split; [intros text0 H H0; destruct (Hlong text0 H H0)|].
        split.
        { intros _. exists text. split; [reflexivity|].
          split; [exact L | right; reflexivity]. }
        intros _. split; [reflexivity|]. split; [right; reflexivity|].
        split; [|reflexivity].
        intro Hall. rewrite Hall in U. discriminate U.
      * eexists. eexists. split; [reflexivity|].
        split; [right; right; reflexivity|].
        split; [discriminate|].
        split; [intros text0 H H0; destruct (Hlong text0 H H0)|].
        split; [discriminate|].
        intros _. apply deleteFile_caught_cleaned_up.
      * eexists. eexists. split; [reflexivity|].
        split; [right; left; reflexivity|].
        split; [discriminate|].
        split; [intros text0 H H0; destruct (Hlong text0 H H0)|].
        split.
        { intros _. exists text. split; [reflexivity|].
          split; [exact L | left; reflexivity]. }
        intros _. split; [reflexivity|]. split; [left; reflexivity|].
        split; [intros _; split; [reflexivity | apply removed_gone]|].
        intro Hall. specialize (Hall 0%nat). contradiction.
    + apply Nat.ltb_ge in L. fold (accepted f text). unfold create.
      destruct (Resume_create disk (accepted f text)) as [error|] eqn:C.
      * eexists. eexists. split; [reflexivity|].
        split; [right; right; reflexivity|].
        split; [discriminate|].
        split.
        { intros text0 H _ H0. injection H as <-. rewrite H0 in C.
          discriminate C. }
        split; [discriminate|].
        intros _. apply deleteFile_caught_cleaned_up.
      * eexists. eexists. split; [reflexivity|].
        split; [left; reflexivity|].
        split.
        { intros _. exists text. split; [reflexivity|].
          split; [exact L|]. split; [exact C|]. split; [reflexivity|].
          apply extractText_clean in E. destruct E as [data ->].
          split; [apply cleanText_no_CR | apply cleanText_tidy]. }
        split; [reflexivity|].
        split; [discriminate|].
        intro H. contradiction H. reflexivity.
  - eexists. eexists. split; [reflexivity|].
    split; [right; right; reflexivity|].
    split; [discriminate|].
    split; [discriminate|].
    split; [discriminate|].
    intros _. apply deleteFile_caught_cleaned_up.
Qed.

End Uploads.

(** ** The skill scan of the fallback analysis *)

Section FallbackScan.

Import JSString JSNumber JSValue AIService.
Open Scope string_scope.

(** Splitting at white space loses no occurrence of a word without white
    space. *)
Lemma split_ws_from_includes (k : string) :
  has_ws k = false -> k <> "" ->
  forall s cur,
    existsb (fun word => includes word k) (split_ws_from cur false s)
    = includes (cur ++ s) k
    /\ existsb (fun word => includes word k) (split_ws_from "" true s)
       = includes s k.
Proof.
  intros Hk Hne. induction s as [|c s IH]; intro cur.
  - cbn [split_ws_from existsb]. rewrite !orb_false_r.
    split; [|reflexivity].
    replace (cur ++ "") with cur; [reflexivity|].
    induction cur as [|x cur IHc]; cbn; [|rewrite <- IHc]; reflexivity.
  - cbn [split_ws_from]. destruct (isWhiteSpace c) eqn:Ec.
    + pose proof (has_ws_has k c Hk Ec) as Hc.
      destruct (IH "") as [_ IHt]. cbn [existsb]. rewrite IHt. split.
      * rewrite (includes_app_sep cur s k c Hc Hne). reflexivity.
      * change (String c s) with ("" ++ String c s).
        rewrite (includes_app_sep "" s k c Hc Hne).
        destruct k as [|y k]; [contradiction|]. reflexivity.
    + split.
      * destruct (IH (cur ++ String c "")) as [IHf _]. rewrite IHf.
        rewrite append_assoc. reflexivity.
      * destruct (IH ("" ++ String c "")) as [IHf _]. rewrite IHf.
        reflexivity.
Qed.

Lemma split_ws_includes (s k : string) :
  has_ws k = false -> k <> "" ->
  existsb (fun word => includes word k) (split_ws s) = includes s k.
Proof.
  intros Hk Hne. unfold split_ws.
  destruct (split_ws_from_includes k Hk Hne s "") as [H _]. exact H.
Qed.

(** The skills of the fallback analysis are the eight keywords whose
    name, with its first full stop removed, occurs in the lower-cased text
    as a substring: splitting the text into words changes nothing, [java]
    is never looked for, and [node.js] is listed when the text holds
    [nodejs], not when it holds [node.js]. *)
Theorem getFallbackResumeAnalysis_skills (resumeText fileName : string)
  (time : Z) :
  get "skills" (getFallbackResumeAnalysis resumeText fileName time)
  = Some (VArr (map found_skill
                  (filter (fun skill =>
                             includes (toLowerCase resumeText)
                                      (remove_first_dot skill))
                          fallbackKeywords))).
Proof.
  cbn [getFallbackResumeAnalysis get member String.eqb Ascii.eqb Bool.eqb].
  do 3 f_equal. apply filter_ext_in. intros skill Hin.
  apply split_ws_includes.
  - unfold fallbackKeywords in Hin. cbn [In] in Hin.
    repeat (destruct Hin as [<-|Hin]; [reflexivity|]). contradiction.
  - unfold fallbackKeywords in Hin. cbn [In] in Hin.
    repeat (destruct Hin as [<-|Hin]; [discriminate|]). contradiction.
Qed.

End FallbackScan.

(** ** The experience scan *)

Section LineScanFacts.

Import JSString JSArray LineScans ResumeProcessor.
Open Scope string_scope.

Lemma includes_join (k : string) (l : list string) :
  has " " k = false -> k <> "" ->
  (forall line, In line l -> includes (toLowerCase line) k = false) ->
  includes (toLowerCase (join " " l)) k = false.
Proof.
  intros Hk Hne. induction l as [|a l IH]; intro H.
  - destruct k as [|y k]; [contradiction | reflexivity].
  - cbn [join]. destruct l as [|b l].
    + apply H. left. reflexivity.
    + rewrite toLowerCase_app.
      change (toLowerCase (" " ++ join " " (b :: l)))
        with (String " " (toLowerCase (join " " (b :: l)))).
      rewrite (includes_app_sep _ _ k " " Hk Hne).
      rewrite (H a (or_introl eq_refl)). cbn [orb].
      apply IH. intros line Hin. apply H. right. exact Hin.
Qed.

Lemma description_loop_lines (rest descriptionLines : list string) :
  Forall (fun line => isLikelyNewSection line = false) descriptionLines ->
  Forall (fun line => isLikelyNewSection line = false)
         (description_loop rest descriptionLines).
Proof.
  revert descriptionLines.
  induction rest as [|l rest IH]; intros acc Hacc; cbn [description_loop];
    [exact Hacc|].
  destruct (trim l =? "") eqn:E; cbn [negb andb]; [exact Hacc|].
  destruct (isLikelyNewSection (trim l)) eqn:Es; cbn [negb]; [exact Hacc|].
  apply IH. apply Forall_app. split; [exact Hacc|].
  constructor; [exact Es | constructor].
Qed.

(** No description mentions a section keyword, in any case of letters. *)
Lemma extractJobDescription_plain (lines : list string) (index : nat)
  (keyword : string) :
  In keyword sectionKeywords ->
  includes (toLowerCase (extractJobDescription lines index)) keyword = false.
Proof.
  intro Hin. unfold extractJobDescription.
  pose proof (description_loop_lines (window lines (S index) 4) []
                (Forall_nil _)) as H.
  rewrite Forall_forall in H.
  apply includes_join.
  - unfold sectionKeywords in Hin. cbn [In] in Hin.
    repeat (destruct Hin as [<-|Hin]; [reflexivity|]). contradiction.
  - unfold sectionKeywords in Hin. cbn [In] in Hin.
    repeat (destruct Hin as [<-|Hin]; [discriminate|]). contradiction.
  - intros line Hl. specialize (H line Hl). unfold isLikelyNewSection in H.
    destruct (includes (toLowerCase line) keyword) eqn:E; [|reflexivity].
    assert (Ht : existsb (fun keyword => includes (toLowerCase line) keyword)
                         sectionKeywords = true).
    { apply existsb_exists. exists keyword. split; assumption. }
    congruence.
Qed.

(** A line names a position: it holds one of the twelve title words. *)
Definition titled (line : string) : bool :=
  existsb (fun title => includes (toLowerCase line) title) jobTitles.

Lemma experience_loop_entries (scans : pattern_scans) (lines : list string) :
  forall rest index experiences,
    let found := experience_loop scans lines index rest experiences in
    map ResumeRoutes.title found
    = (map ResumeRoutes.title experiences
       ++ map trim (filter titled rest))%list
    /\ (Forall (fun entry =>
                  forall keyword, In keyword sectionKeywords ->
                    includes (toLowerCase (ResumeRoutes.description entry))
                             keyword = false) experiences ->
        Forall (fun entry =>
                  forall keyword, In keyword sectionKeywords ->
                    includes (toLowerCase (ResumeRoutes.description entry))
                             keyword = false) found).
Proof.
  induction rest as [|line rest IH]; intros index experiences;
    cbn [experience_loop filter].
  - cbn [map]. rewrite app_nil_r. split; [reflexivity | tauto].
  - fold (titled line). cbv zeta.
    destruct (titled line) eqn:E.
    + destruct (IH (S index)
                  (experiences ++
                   [ {| ResumeRoutes.title := extractJobTitle line;
                        ResumeRoutes.company :=
                          extractCompany line lines index;
                        ResumeRoutes.duration :=
                          extractDuration scans line lines index;
                        ResumeRoutes.description :=
                          extractJobDescription lines index |} ])%list)
        as [IH1 IH2].
      split.
      * rewrite IH1, map_app, <- app_assoc. reflexivity.
      * intro H. apply IH2. apply Forall_app. split; [exact H|].
        constructor; [|constructor]. intros keyword Hk.
        apply extractJobDescription_plain, Hk.
    + apply IH.
Qed.

(** The experience entries are the lines that hold one of the twelve
    title words, in any case of letters, one entry for each such line in
    order, titled by the trimmed line; and no description mentions
    education, experience, skills, projects, certifications, awards,
    publications or references: the description stops before the first
    line that does. *)
Theorem extractExperience_entries (scans : pattern_scans) (text : string) :
  let found := extractExperience scans text in
  map ResumeRoutes.title found = map trim (filter titled (split_lines text))
  /\ Forall (fun entry =>
               forall keyword, In keyword sectionKeywords ->
                 includes (toLowerCase (ResumeRoutes.description entry))
                          keyword = false) found.
Proof.
  unfold extractExperience.
  destruct (experience_loop_entries scans (split_lines text)
              (split_lines text) 0 []) as [H1 H2].
  split; [exact H1 | apply H2; constructor].
Qed.


(** *** The lines of a normalised text *)

Fixpoint ends_with_ws (s : string) : bool :=
  match s with
  | EmptyString => false
  | String c s' =>
      match s' with
      | EmptyString => isWhiteSpace c
      | String _ _ => ends_with_ws s'
      end
  end.

Lemma trimStart_fixed (s : string) :
  starts_with_ws s = false -> trimStart s = s.
Proof. destruct s as [|c s]; [reflexivity|]. cbn. intros ->. reflexivity. Qed.

Lemma trimEnd_fixed (s : string) : ends_with_ws s = false -> trimEnd s = s.
Proof.
  induction s as [|c s IH]; [reflexivity|]. cbn [ends_with_ws trimEnd].
  destruct s as [|d s].
  - cbn. intros ->. reflexivity.
  - intro H. rewrite (IH H). reflexivity.
Qed.

Lemma trim_fixed (s : string) :
  starts_with_ws s = false -> ends_with_ws s = false -> trim s = s.
Proof.
  intros H1 H2. unfold trim. rewrite (trimStart_fixed s H1).
  apply trimEnd_fixed, H2.
Qed.

Lemma trimStart_head (s : string) : starts_with_ws (trimStart s) = false.
Proof.
  induction s as [|c s IH]; [reflexivity|]. cbn [trimStart].
  destruct (isWhiteSpace c) eqn:E; [exact IH | exact E].
Qed.

Lemma trimEnd_last (s : string) : ends_with_ws (trimEnd s) = false.
Proof.
  induction s as [|c s IH]; [reflexivity|]. cbn [trimEnd].
  destruct (trimEnd s) as [|d t] eqn:E.
  - destruct (isWhiteSpace c) eqn:Ec; [reflexivity|]. cbn. exact Ec.
  - exact IH.
Qed.

Lemma trim_edges (s : string) :
  starts_with_ws (trim s) = false /\ ends_with_ws (trim s) = false.
Proof.
  unfold trim. split; [|apply trimEnd_last].
  destruct (starts_with_ws (trimEnd (trimStart s))) eqn:E; [|reflexivity].
  apply trimEnd_head in E. rewrite trimStart_head in E. discriminate E.
Qed.

Lemma adjacent_ws_suffix (a b : string) :
  adjacent_ws (a ++ b) = false -> adjacent_ws b = false.
Proof.
  induction a as [|x a IH]; [tauto|]. cbn [append].
  rewrite adjacent_ws_cons. intro H. apply orb_false_iff in H. tauto.
Qed.

Lemma ends_with_ws_app (a b : string) :
  b <> "" -> ends_with_ws (a ++ b) = ends_with_ws b.
Proof.
  intro Hb. induction a as [|x a IH]; [reflexivity|].
  cbn [append ends_with_ws]. rewrite IH.
  destruct (a ++ b) as [|y r] eqn:E; [|reflexivity].
  destruct a; [cbn in E; contradiction | discriminate E].
Qed.

Lemma adjacent_ws_before (a b : string) (c : ascii) :
  adjacent_ws (a ++ String c b) = false -> isWhiteSpace c = true ->
  ends_with_ws a = false.
Proof.
  intros H Hc. induction a as [|x a IH]; [reflexivity|].
  cbn [append] in H. rewrite adjacent_ws_cons in H.
  apply orb_false_iff in H. destruct H as [H1 H2].
  cbn [ends_with_ws]. destruct a as [|y a]; [|apply IH, H2].
  cbn [append starts_with_ws] in H1. rewrite Hc, andb_true_r in H1.
  exact H1.
Qed.

(** A line of a text: not empty, no white space at either end. *)
Definition solid (line : string) : Prop :=
  line <> "" /\ starts_with_ws line = false /\ ends_with_ws line = false.

Lemma isWhiteSpace_LF (c : ascii) : (c =? LF)%char = true -> isWhiteSpace c = true.
Proof. intro H. apply Ascii.eqb_eq in H. subst c. reflexivity. Qed.

Lemma split_lines_from_solid (s : string) :
  forall cur,
    adjacent_ws (cur ++ s) = false ->
    starts_with_ws (cur ++ s) = false ->
    ends_with_ws (cur ++ s) = false ->
    cur ++ s <> "" ->
    Forall solid (split_lines_from cur s).
Proof.
  induction s as [|c s IH]; intros cur Ha Hs He Hne; cbn [split_lines_from].
  - rewrite append_nil_r in *. constructor; [|constructor].
    split; [exact Hne | split; assumption].
  - destruct (c =? LF)%char eqn:Ec.
    + pose proof (isWhiteSpace_LF c Ec) as Hc.
      assert (Hcur : cur <> "").
      { intros ->. cbn in Hs. congruence. }
      assert (Hrest : s <> "").
      { intros ->. rewrite ends_with_ws_app in He by discriminate.
        cbn in He. congruence. }
      constructor.
      * split; [exact Hcur|]. split.
        -- destruct cur as [|x cur]; [contradiction|]. exact Hs.
        -- apply (adjacent_ws_before cur s c Ha Hc).
      * apply IH; cbn [append].
        -- apply (adjacent_ws_suffix (cur ++ String c "") s).
           rewrite append_assoc. exact Ha.
        -- destruct s as [|d s]; [reflexivity|]. cbn [starts_with_ws].
           destruct (isWhiteSpace d) eqn:Ed; [|reflexivity].
           rewrite (adjacent_ws_inside cur s c d Hc Ed) in Ha.
           discriminate Ha.
        -- rewrite ends_with_ws_app in He by discriminate.
           destruct s as [|d s]; [contradiction|]. exact He.
        -- exact Hrest.
    + apply IH; rewrite append_assoc; assumption.
Qed.

(** The text the line scans run on is a normalised text. When it is not
    empty, none of its lines is empty and every line is its own trim: the
    test for an empty line in [extractJobDescription] never fires, and a
    title is the line as it stands. *)
Theorem cleanText_lines (text : string) :
  cleanText text <> "" ->
  Forall (fun line => line <> "" /\ trim line = line)
         (split_lines (cleanText text)).
Proof.
  intro Hne. unfold split_lines.
  assert (Hedges : starts_with_ws (cleanText text) = false
                   /\ ends_with_ws (cleanText text) = false).
  { unfold cleanText. apply trim_edges. }
  destruct Hedges as [Hs He].
  pose proof (split_lines_from_solid (cleanText text) ""
                (cleanText_tidy text) Hs He Hne) as H.
  revert H. apply Forall_impl. intros line [H1 [H2 H3]].
  split; [exact H1 | apply trim_fixed; assumption].
Qed.

Lemma cleanText_lines_witness :
  cleanText "Jane Doe  " <> ""
  /\ Forall (fun line => line <> "" /\ trim line = line)
            (split_lines (cleanText "Jane Doe  ")).
Proof.
  assert (H : cleanText "Jane Doe  " <> "")
    by (vm_compute; discriminate).
  split; [exact H|].
  exact (cleanText_lines "Jane Doe  " H).
Defined.

End LineScanFacts.

(** ** Job matching and improvements by the service *)

Section JobMatching.

Import JSString JSNumber JSValue AIService AIMatching.
Open Scope string_scope.

Definition unreadable_match : object :=
  [ ("matchScore", VNum 70); ("matchedSkills", VArr []);
    ("missingSkills", VArr []); ("relevanceReasons", VArr []) ].

Definition unreadable_improvements : object :=
  [ ("improvements", VArr []); ("skillGaps", VArr []);
    ("formatSuggestions", VArr []); ("contentSuggestions", VArr []) ].

Lemma read_reply_unreadable (env : environment) (prompt : string) :
  reply_unreadable env prompt ->
  exists response,
    callOpenAI env prompt = Returns response
    /\ read_reply env response = None.
Proof.
  intros [Hkey H]. rewrite (callOpenAI_with_credential _ _ Hkey).
  destruct H as [-> | [text [-> H]]].
  - exists None. split; reflexivity.
  - exists (Some text). split; [reflexivity|]. cbn [read_reply].
    destruct H as [-> | [json [-> ->]]]; reflexivity.
Qed.

Lemma read_reply_parsed (env : environment) (prompt : string) (o : object) :
  reply_parsed env prompt o ->
  exists response,
    callOpenAI env prompt = Returns response
    /\ read_reply env response = Some o.
Proof.
  intros [Hkey [text [json [Hp [Hb Hj]]]]].
  rewrite (callOpenAI_with_credential _ _ Hkey), Hp.
  exists (Some text). split; [reflexivity|]. cbn [read_reply].
  rewrite Hb. exact Hj.
Qed.

(** [matchResumeWithJob] never throws. When the call to the provider
    fails it returns the fallback match, without a [calculatedAt]; when
    the reply cannot be read it returns a score of 70 with empty lists,
    whatever the resume and the job; and a reply that parses is passed on
    as it is, dated. *)
Theorem matchResumeWithJob_outcomes (env : environment)
  (resume : ResumeDocument) (job : JobPosting) :
  let prompt := createJobMatchingPrompt resume job in
  (exists report, matchResumeWithJob env resume job = Returns report)
  /\ (call_fails env prompt ->
      matchResumeWithJob env resume job
      = Returns {| members :=
                     getFallbackJobMatch (AIMatching.resume resume)
                                         (AIMatching.job job);
                   calculatedAt := None |})
  /\ (reply_unreadable env prompt ->
      matchResumeWithJob env resume job
      = Returns {| members := unreadable_match;
                   calculatedAt := Some (now env 0) |})
  /\ (forall matchResult,
        reply_parsed env prompt matchResult ->
        matchResumeWithJob env resume job
        = Returns {| members := matchResult;
                     calculatedAt := Some (now env 0) |}).
Proof.
  intro prompt. unfold matchResumeWithJob. fold prompt.
  split; [|split; [|split]].
  - pose proof (callOpenAI_modelled env prompt) as Hm.
    destruct (callOpenAI env prompt) as [response|e|];
      cbn [bind try_catch]; [| |contradiction]; eexists; reflexivity.
  - intro H. destruct (callOpenAI_fails _ _ H) as [e ->]. reflexivity.
  - intro H. destruct (read_reply_unreadable _ _ H) as [response [-> Hr]].
    cbn [bind try_catch]. unfold parseJobMatchResult. rewrite Hr.
    reflexivity.
  - intros matchResult H.
    destruct (read_reply_parsed _ _ _ H) as [response [-> Hr]].
    cbn [bind try_catch]. unfold parseJobMatchResult. rewrite Hr.
    reflexivity.
Qed.

(** [generateImprovements] never throws: it returns the parsed reply,
    four empty lists when the reply cannot be read, and the fixed fallback
    suggestions, the same for every resume, when the call fails. *)
Theorem generateImprovements_outcomes (env : environment)
  (toString : float -> string) (resume : ResumeDocument)
  (targetJob : option JobPosting) :
  let prompt := createImprovementPrompt toString resume targetJob in
  (exists suggestions,
     generateImprovements env toString resume targetJob
     = Returns suggestions)
  /\ (call_fails env prompt ->
      generateImprovements env toString resume targetJob
      = Returns getFallbackImprovements)
  /\ (reply_unreadable env prompt ->
      generateImprovements env toString resume targetJob
      = Returns unreadable_improvements)
  /\ (forall suggestions,
        reply_parsed env prompt suggestions ->
        generateImprovements env toString resume targetJob
        = Returns suggestions).
Proof.
  intro prompt. unfold generateImprovements. fold prompt.
  split; [|split; [|split]].
  - pose proof (callOpenAI_modelled env prompt) as Hm.
    destruct (callOpenAI env prompt) as [response|e|];
      cbn [bind try_catch]; [| |contradiction]; eexists; reflexivity.
  - intro H. destruct (callOpenAI_fails _ _ H) as [e ->]. reflexivity.
  - intro H. destruct (read_reply_unreadable _ _ H) as [response [-> Hr]].
    cbn [bind try_catch]. unfold parseImprovements. rewrite Hr.
    reflexivity.
  - intros suggestions H.
    destruct (read_reply_parsed _ _ _ H) as [response [-> Hr]].
    cbn [bind try_catch]. unfold parseImprovements. rewrite Hr.
    reflexivity.
Qed.

(** *** The fallback match *)

Import ResumeModel.

(** Among the job skills, the matched skills hold exactly the names the
    resume lists itself. *)
Lemma matched_holds_job_skill (resumeSkills jobSkills : list string)
  (j : string) :
  In j jobSkills ->
  existsb (String.eqb j)
    (filter (fun skill =>
               existsb (fun jobSkill =>
                          includes jobSkill skill || includes skill jobSkill)
                       jobSkills)
            resumeSkills)
  = existsb (String.eqb j) resumeSkills.
Proof.
  intro Hj. rewrite existsb_filter.
  induction resumeSkills as [|s l IH]; cbn [existsb]; [reflexivity|].
  rewrite IH. f_equal.
  destruct (String.eqb_spec j s) as [<-|Hne]; [|reflexivity].
  cbn [andb]. apply existsb_exists. exists j. split; [exact Hj|].
  rewrite includes_refl. reflexivity.
Qed.

(** The fallback match of a resume and a job: its matched skills are
    those of [calculateJobMatch]; its missing skills are the job skills
    that are not literally among the resume skills, so they contain the
    missing skills of [calculateJobMatch] and also every job skill that
    was matched only through a variant of its name; and its score is an
    integer between 0 and 100. *)
Theorem getFallbackJobMatch_report (resume : Resume) (job : Job) :
  (Z.of_nat (List.length (analysis_skills resume)) < 2 ^ 53)%Z ->
  (Z.of_nat (List.length (skills job)) < 2 ^ 53)%Z ->
  let resumeSkills := lower_names skill_name (analysis_skills resume) in
  let jobSkills := lower_names job_skill_name (skills job) in
  let fallback := getFallbackJobMatch resume job in
  let missing :=
    filter (fun skill => negb (existsb (String.eqb skill) resumeSkills))
           jobSkills in
  get "matchedSkills" fallback
  = Some (strings (matchedSkills (calculateJobMatch resume job)))
  /\ get "missingSkills" fallback = Some (strings missing)
  /\ incl (missingSkills (calculateJobMatch resume job)) missing
  /\ exists q : Z,
       (0 <= q <= 100)%Z
       /\ get "matchScore" fallback = Some (VNum (of_Z q)).
Proof.
  intros Hr Hj resumeSkills jobSkills fallback missing.
  split; [reflexivity|]. split; [|split].
  - cbn [fallback getFallbackJobMatch get member String.eqb Ascii.eqb
         Bool.eqb]. do 2 f_equal.
    apply filter_ext_in. intros j Hin. f_equal.
    apply matched_holds_job_skill, Hin.
  - intros j Hin. cbn [calculateJobMatch missingSkills] in Hin.
    apply filter_In in Hin. destruct Hin as [Hin Hno].
    apply filter_In. split; [exact Hin|].
    apply negb_true_iff in Hno. apply negb_true_iff.
    destruct (existsb (String.eqb j) resumeSkills) eqn:E; [|reflexivity].
    apply existsb_exists in E. destruct E as [s [Hs Heq]].
    apply String.eqb_eq in Heq. subst s.
    assert (Ht : existsb (fun resumeSkill =>
                            includes resumeSkill j || includes j resumeSkill)
                         resumeSkills = true).
    { apply existsb_exists. exists j. split; [exact Hs|].
      rewrite includes_refl. reflexivity. }
    unfold resumeSkills, lower_names in Ht. rewrite Ht in Hno.
    discriminate Hno.
  - cbn [fallback getFallbackJobMatch get member String.eqb Ascii.eqb
         Bool.eqb].
    rewrite !length_map.
    set (matched := List.length (filter _ _)).
    destruct (Math_max_count _ Hj) as [m [e Hmax]].
    destruct (Math_min_round_percent
                (of_nat matched
                 / Math_max (of_nat (List.length (skills job))) 1 * 100)%float)
      as [q [Hq H]].
    + rewrite mul_spec, div_spec, Hmax.
      change (Prim2SF 100) with (S754_finite false 7036874417766400 (-46)).
      apply SF64mul_plus, SF64div_plus, of_Z_plus.
      subst matched.
      pose proof (filter_length_le
                    (fun skill =>
                       existsb (fun jobSkill =>
                                  includes jobSkill skill
                                  || includes skill jobSkill)
                               (map (fun s => toLowerCase (job_skill_name s))
                                    (skills job)))
                    (map (fun s => toLowerCase (skill_name s))
                         (analysis_skills resume))) as Hle.
      rewrite length_map in Hle. lia.
    + exists q. split; [exact Hq|]. rewrite H. reflexivity.
Qed.

Lemma getFallbackJobMatch_report_witness :
  ((Z.of_nat (List.length (analysis_skills scenario_resume)) < 2 ^ 53)%Z
   /\ (Z.of_nat (List.length (skills scenario_job)) < 2 ^ 53)%Z)
  /\ get "missingSkills" (getFallbackJobMatch scenario_resume scenario_job)
     = Some (strings ["python"]).
Proof.
  assert (Hr : (Z.of_nat (List.length (analysis_skills scenario_resume))
                < 2 ^ 53)%Z) by reflexivity.
  assert (Hj : (Z.of_nat (List.length (skills scenario_job)) < 2 ^ 53)%Z)
    by reflexivity.
  split; [split; assumption|].
  destruct (getFallbackJobMatch_report scenario_resume scenario_job Hr Hj)
    as [_ [H _]].
  rewrite H. reflexivity.
Defined.

End JobMatching.

(** ** Applications *)

Section Applications.

Import JSString ApplicationModel ApplicationRoutes.
Open Scope string_scope.

(** The status the history ends with. *)
Definition last_status (a : Application) : string :=
  List.last (map changed_status (statusHistory a)) "".

(** A stored application: its status is one of the seven, its history is
    not empty, and the history ends with the status, or else the status
    is [interview], set by scheduling an interview while the history
    still ends with [pending] or [reviewing]. *)
Definition consistent (a : Application) : Prop :=
  isNew a = false
  /\ In (status a) statuses
  /\ statusHistory a <> []
  /\ (last_status a = status a
      \/ (status a = "interview"
          /\ (last_status a = "pending" \/ last_status a = "reviewing")
          /\ interviews a <> [])).

Definition applicant_and_job (a : Application) : string * string :=
  (user a, job a).

(** Every application is consistent, no two share an identifier, and no
    two are of the same user for the same job. *)
Definition sound (db : database) : Prop :=
  Forall consistent (applications db)
  /\ NoDup (map _id (applications db))
  /\ NoDup (map applicant_and_job (applications db)).

Lemma save_returns (accepts : Application -> bool) (a a' : Application) :
  save accepts a = Returns a' -> a' = saved (pre_save a).
Proof.
  unfold save. destruct (accepts a); [|discriminate].
  intro H. injection H as <-. reflexivity.
Qed.

Lemma updateStatus_returns (accepts : Application -> bool) (now : Z)
  (a a' : Application) (newStatus : string) (changedBy notes : option string) :
  isNew a = false ->
  updateStatus accepts now a newStatus changedBy notes = Returns a' ->
  a' = saved
         (with_statusHistory
            (statusHistory a ++
             [ {| changed_status := newStatus; changedAt := now;
                  changedBy := changedBy; change_notes := notes |} ])
            (with_status newStatus a)).
Proof.
  intros Hnew H. unfold updateStatus in H. apply save_returns in H.
  rewrite H. unfold pre_save. cbn [isNew with_statusHistory with_status].
  rewrite Hnew. reflexivity.
Qed.

Lemma updateStatus_consistent (accepts : Application -> bool) (now : Z)
  (a a' : Application) (newStatus : string) (changedBy notes : option string) :
  isNew a = false -> In newStatus statuses ->
  updateStatus accepts now a newStatus changedBy notes = Returns a' ->
  consistent a' /\ _id a' = _id a
  /\ applicant_and_job a' = applicant_and_job a.
Proof.
  intros Hnew Hin H. apply updateStatus_returns in H; [|exact Hnew].
  subst a'. split; [|split; reflexivity].
  split; [reflexivity|]. split; [exact Hin|]. split.
  - cbn. intro E. apply app_eq_nil in E. destruct E as [_ E].
    discriminate E.
  - left. unfold last_status. cbn [statusHistory saved with_statusHistory].
    rewrite map_app. cbn [map]. rewrite last_last. reflexivity.
Qed.

Lemma scheduleInterview_returns (accepts : Application -> bool)
  (a a' : Application) (interviewData : Interview) :
  isNew a = false ->
  scheduleInterview accepts a interviewData = Returns a' ->
  a' = saved
         (let this := with_interviews (interviews a ++ [interviewData]) a in
          if (status a =? "pending") || (status a =? "reviewing")
          then with_status "interview" this else this).
Proof.
  intros Hnew H. unfold scheduleInterview in H. apply save_returns in H.
  rewrite H. unfold pre_save. cbn [status with_interviews].
  destruct ((status a =? "pending") || (status a =? "reviewing"));
    cbn [isNew with_status with_interviews]; rewrite Hnew; reflexivity.
Qed.

Lemma scheduleInterview_consistent (accepts : Application -> bool)
  (a a' : Application) (interviewData : Interview) :
  consistent a ->
  scheduleInterview accepts a interviewData = Returns a' ->
  consistent a' /\ _id a' = _id a
  /\ applicant_and_job a' = applicant_and_job a.
Proof.
  intros [Hnew [Hin [Hne Hlast]]] H.
  apply scheduleInterview_returns in H; [|exact Hnew]. subst a'.
  assert (Hsome : (interviews a ++ [interviewData])%list <> []).
  { intro E. apply app_eq_nil in E. destruct E as [_ E]. discriminate E. }
  cbv zeta.
  destruct ((status a =? "pending") || (status a =? "reviewing")) eqn:E.
  - split; [|split; reflexivity].
    split; [reflexivity|]. split; [cbn; tauto|]. split; [exact Hne|].
    right. split; [reflexivity|]. split; [|exact Hsome].
    apply orb_true_iff in E. rewrite !String.eqb_eq in E.
    destruct Hlast as [Hl | [Hi _]].
    + unfold last_status in *. cbn [statusHistory saved with_status
                                     with_interviews].
      rewrite Hl. exact E.
    + rewrite Hi in E. destruct E as [E|E]; discriminate E.
  - split; [|split; reflexivity].
    split; [reflexivity|]. split; [exact Hin|]. split; [exact Hne|].
    destruct Hlast as [Hl | [Hi [Hp _]]]; [left; exact Hl|].
    right. split; [exact Hi|]. split; [exact Hp | exact Hsome].
Qed.

Lemma replace_sound (db : database) (a a' : Application) :
  sound db -> In a (applications db) ->
  consistent a' -> _id a' = _id a ->
  applicant_and_job a' = applicant_and_job a ->
  sound (with_applications (replace a' (applications db)) db).
Proof.
  intros [Hc [Hid Hkey]] Hin Hc' Hid' Hkey'.
  unfold sound. cbn [with_applications applications].
  assert (Hsame : forall b, In b (applications db) ->
                            (_id b =? _id a') = true -> b = a).
  { intros b Hb E. apply String.eqb_eq in E.
    apply (NoDup_map_injective _id (applications db)); try assumption.
    congruence. }
  split; [|split].
  - unfold replace. apply Forall_forall. intros b Hb.
    apply in_map_iff in Hb. destruct Hb as [b0 [<- Hb0]].
    destruct (_id b0 =? _id a'); [exact Hc'|].
    rewrite Forall_forall in Hc. apply Hc, Hb0.
  - replace (map _id (replace a' (applications db)))
      with (map _id (applications db)); [exact Hid|].
    unfold replace. rewrite map_map. apply map_ext_in. intros b Hb.
    destruct (_id b =? _id a') eqn:E; [|reflexivity].
    apply String.eqb_eq in E. congruence.
  - replace (map applicant_and_job (replace a' (applications db)))
      with (map applicant_and_job (applications db)); [exact Hkey|].
    unfold replace. rewrite map_map. apply map_ext_in. intros b Hb.
    destruct (_id b =? _id a') eqn:E; [|reflexivity].
    rewrite (Hsame b Hb E). symmetry. exact Hkey'.
Qed.

Lemma findById_In (id : string) (collection : list Application)
  (a : Application) :
  findById id collection = Some a -> In a collection /\ _id a = id.
Proof.
  intro H. apply find_some in H. destruct H as [H1 H2].
  apply String.eqb_eq in H2. tauto.
Qed.

Lemma sound_new (db : database) (a : Application) :
  sound db -> In a (applications db) -> isNew a = false.
Proof.
  intros [Hc _] Hin. rewrite Forall_forall in Hc.
  destruct (Hc a Hin) as [H _]. exact H.
Qed.

Lemma patchStatus_sound (world : services) (admin id : string)
  (status notes : option string) (db : database) :
  sound db -> sound (snd (patchStatus world admin id status notes db)).
Proof.
  intro Hs. unfold patchStatus.
  destruct status as [[|c status]|]; try exact Hs.
  set (s := String c status).
  destruct (existsb (String.eqb s) statuses) eqn:Ev; cbn [negb];
    [|exact Hs].
  destruct (findById id (applications db)) as [a|] eqn:Ef; [|exact Hs].
  apply findById_In in Ef. destruct Ef as [Hin _].
  destruct (updateStatus (accepts world) (now world) a s (Some admin) notes)
    as [a'| |] eqn:Eu; try exact Hs.
  cbn [snd].
  assert (Hv : In s statuses).
  { apply existsb_exists in Ev. destruct Ev as [x [Hx E]].
    apply String.eqb_eq in E. subst x. exact Hx. }
  destruct (updateStatus_consistent _ _ _ _ _ _ _
              (sound_new db a Hs Hin) Hv Eu) as [Hc [Hi Hk]].
  apply (replace_sound db a a'); assumption.
Qed.

Lemma patchWithdraw_sound (world : services) (user : string)
  (application : Application) (db : database) :
  sound db -> In application (applications db) ->
  sound (snd (patchWithdraw world user application db)).
Proof.
  intros Hs Hin. unfold patchWithdraw.
  destruct (status application =? "withdrawn"); [exact Hs|].
  destruct (existsb _ ["offer"; "rejected"]); [exact Hs|].
  destruct (updateStatus (accepts world) (now world) application
              "withdrawn" (Some user) (Some "Withdrawn by applicant"))
    as [a'| |] eqn:Eu; try exact Hs.
  cbn [snd].
  assert (Hv : In "withdrawn" statuses) by (do 6 right; left; reflexivity).
  destruct (updateStatus_consistent _ _ _ _ _ _ _
              (sound_new db application Hs Hin) Hv Eu) as [Hc [Hi Hk]].
  apply (replace_sound db application a'); assumption.
Qed.

Lemma postInterview_sound (world : services) (id : string)
  (body : interview_request) (db : database) :
  sound db -> sound (snd (postInterview world id body db)).
Proof.
  intro Hs. unfold postInterview.
  destruct (present (requested_type body)) as [type|]; [|exact Hs].
  destruct (present (requested_scheduledAt body)) as [scheduledAt|];
    [|exact Hs].
  destruct (findById id (applications db)) as [a|] eqn:Ef; [|exact Hs].
  apply findById_In in Ef. destruct Ef as [Hin _].
  match goal with
  | |- context [scheduleInterview ?acc ?a ?i] =>
      destruct (scheduleInterview acc a i) as [a'| |] eqn:Eu; try exact Hs
  end.
  cbn [snd].
  assert (Hca : consistent a).
  { destruct Hs as [Hc _]. rewrite Forall_forall in Hc. apply Hc, Hin. }
  destruct (scheduleInterview_consistent _ _ _ _ Hca Eu) as [Hc [Hi Hk]].
  apply (replace_sound db a a'); assumption.
Qed.

(** The application the route creates, as it is stored. *)
Definition created (world : services) (user jobId : string)
  (resume : ResumeDocument) (job : JobDocument) : Application :=
  {| _id := ObjectId world;
     user := user;
     job := jobId;
     resume := resume_id resume;
     status := "pending";
     matchScore :=
       ResumeModel.matchScore
         (ResumeModel.calculateJobMatch (document resume) (posting job));
     appliedAt := now world;
     statusHistory :=
       [ {| changed_status := "pending"; changedAt := now world;
            changedBy := None; change_notes := None |} ];
     interviews := [];
     isNew := false |}.

Lemma created_consistent (world : services) (user jobId : string)
  (resume : ResumeDocument) (job : JobDocument) :
  consistent (created world user jobId resume job).
Proof.
  split; [reflexivity|]. split; [cbn; tauto|]. split; [discriminate|].
  left. reflexivity.
Qed.

(** What the route does when it goes through: the conditions, and the
    database afterwards. *)
Lemma postApplication_cases (world : services) (user jobId : string)
  (db : database) :
  snd (postApplication world user jobId db) = db
  \/ exists job resume,
       find (fun j => job_id j =? jobId) (jobs db) = Some job
       /\ job_status job = "active"
       /\ latestResume world user = Some resume
       /\ processingStatus resume = "completed"
       /\ find (fun a => (ApplicationModel.user a =? user)
                         && (ApplicationModel.job a =? jobId))
               (applications db) = None
       /\ accepts world
            {| _id := ObjectId world; user := user; job := jobId;
               resume := resume_id resume; status := "pending";
               matchScore :=
                 ResumeModel.matchScore
                   (ResumeModel.calculateJobMatch (document resume)
                                                  (posting job));
               appliedAt := now world; statusHistory := [];
               interviews := []; isNew := true |} = true
       /\ let stored :=
            with_applications
              (insert (created world user jobId resume job)
                      (applications db)) db in
          (accepts_job world (incrementApplications job) = true
           /\ postApplication world user jobId db
              = (answer 201 "Application submitted successfully",
                 write_job (incrementApplications job) stored))
          \/ (accepts_job world (incrementApplications job) = false
              /\ postApplication world user jobId db
                 = (answer 500 "Server error during application submission",
                    stored)).
Proof.
  unfold postApplication.
  destruct (find (fun j => job_id j =? jobId) (jobs db)) as [job|] eqn:Ej;
    [|left; reflexivity].
  destruct (String.eqb_spec (job_status job) "active") as [Ha|Ha];
    cbn [negb]; [|left; reflexivity].
  destruct (latestResume world user) as [resume|] eqn:Er;
    [|left; reflexivity].
  destruct (String.eqb_spec (processingStatus resume) "completed")
    as [Hc|Hc]; cbn [negb]; [|left; reflexivity].
  destruct (find _ (applications db)) as [existing|] eqn:Ee;
    [left; reflexivity|].
  unfold save.
  match goal with
  | |- context [accepts world ?a] => destruct (accepts world a) eqn:Es
  end; [|left; reflexivity].
  right. exists job, resume. repeat (split; [assumption || reflexivity|]).
  cbv zeta.
  destruct (accepts_job world (incrementApplications job)) eqn:Eq;
    [left | right]; split; reflexivity.
Qed.

Lemma insert_sound (db : database) (a : Application) :
  sound db -> consistent a ->
  ~ In (_id a) (map _id (applications db)) ->
  ~ In (applicant_and_job a) (map applicant_and_job (applications db)) ->
  sound (with_applications (insert a (applications db)) db).
Proof.
  intros [Hc [Hid Hkey]] Ha Hfresh Hnew. unfold sound, insert.
  cbn [with_applications applications]. split; [|split].
  - apply Forall_app. split; [exact Hc|]. constructor; [exact Ha|constructor].
  - rewrite map_app. cbn [map]. apply NoDup_app; [exact Hid | | ].
    + constructor; [intros []|constructor].
    + intros x Hx [<-|[]]. apply Hfresh, Hx.
  - rewrite map_app. cbn [map]. apply NoDup_app; [exact Hkey | | ].
    + constructor; [intros []|constructor].
    + intros x Hx [<-|[]]. apply Hnew, Hx.
Qed.

Lemma postApplication_sound (world : services) (user jobId : string)
  (db : database) :
  sound db -> ~ In (ObjectId world) (map _id (applications db)) ->
  sound (snd (postApplication world user jobId db)).
Proof.
  intros Hs Hfresh.
  destruct (postApplication_cases world user jobId db)
    as [-> | [job [resume [_ [_ [_ [_ [Hnone [_ H]]]]]]]]]; [exact Hs|].
  cbv zeta in H.
  assert (Hstored : sound (with_applications
                             (insert (created world user jobId resume job)
                                     (applications db)) db)).
  { apply insert_sound; [exact Hs | apply created_consistent | exact Hfresh|].
    intro Hin. apply in_map_iff in Hin. destruct Hin as [a [Hk Ha]].
    unfold applicant_and_job in Hk. cbn [created ApplicationModel.user
                                          ApplicationModel.job] in Hk.
    injection Hk as Hu Hj.
    apply (find_none _ _ Hnone) in Ha.
    rewrite Hu, Hj, !String.eqb_refl in Ha. discriminate Ha. }
  destruct H as [[_ ->] | [_ ->]]; cbn [snd]; exact Hstored.
Qed.


(** One request served by one of the four routes. [ObjectId] gives an
    identifier no stored application has; the ownership middleware hands
    [patchWithdraw] a stored application. *)
Inductive application_step : database -> database -> Prop :=
| step_apply (world : services) (user jobId : string) (db : database) :
    ~ In (ObjectId world) (map _id (applications db)) ->
    application_step db (snd (postApplication world user jobId db))
| step_status (world : services) (admin id : string)
    (status notes : option string) (db : database) :
    application_step db (snd (patchStatus world admin id status notes db))
| step_withdraw (world : services) (user : string)
    (application : Application) (db : database) :
    In application (applications db) ->
    application_step db (snd (patchWithdraw world user application db))
| step_interview (world : services) (id : string) (body : interview_request)
    (db : database) :
    application_step db (snd (postInterview world id body db)).

(** The databases that requests lead to from one without applications. *)
Inductive reachable : database -> Prop :=
| reachable_start (postings : list JobDocument) :
    reachable {| jobs := postings; applications := [] |}
| reachable_step (db db' : database) :
    reachable db -> application_step db db' -> reachable db'.

Lemma application_step_sound (db db' : database) :
  sound db -> application_step db db' -> sound db'.
Proof.
  intros Hs H. destruct H.
  - apply postApplication_sound; assumption.
  - apply patchStatus_sound, Hs.
  - apply patchWithdraw_sound; assumption.
  - apply postInterview_sound, Hs.
Qed.

(** Requests are served one at a time. In every database they lead to,
    starting without applications: each stored application has one of the
    seven statuses and a history that is not empty, and its history ends
    with its status, or else its status is [interview] while the history
    still ends with [pending] or [reviewing]; and no two applications are
    of the same user for the same job. *)
Theorem applications_stay_sound (db : database) :
  reachable db ->
  Forall consistent (applications db)
  /\ (forall a b,
        In a (applications db) -> In b (applications db) ->
        user a = user b -> job a = job b -> a = b).
Proof.
  intro H.
  assert (Hs : sound db).
  { induction H as [postings | db db' _ IH Hstep].
    - split; [constructor | split; constructor].
    - apply (application_step_sound db db' IH Hstep). }
  destruct Hs as [Hc [_ Hk]]. split; [exact Hc|].
  intros a b Ha Hb Hu Hj.
  apply (NoDup_map_injective applicant_and_job (applications db));
    try assumption.
  unfold applicant_and_job. rewrite Hu, Hj. reflexivity.
Qed.

(** A job that takes applications, an applicant whose latest resume has
    been analysed, and a database that accepts every write. *)
Definition open_job : JobDocument :=
  {| job_id := "job-1"; posting := scenario_job; job_status := "active";
     applications_count := 0 |}.

Definition analysed : ResumeDocument :=
  {| resume_id := "resume-1"; document := scenario_resume;
     processingStatus := "completed" |}.

Definition willing : services :=
  {| latestResume := fun _ => Some analysed;
     accepts := fun _ => true;
     accepts_job := fun _ => true;
     ObjectId := "application-1";
     now := 1700000000000;
     Date_parse := fun _ => None |}.

Definition before : database := {| jobs := [open_job]; applications := [] |}.

Definition after : database :=
  snd (postApplication willing "user-1" "job-1" before).

Lemma applications_stay_sound_witness :
  reachable after
  /\ Forall consistent (applications after)
  /\ map status (applications after) = ["pending"].
Proof.
  assert (H : reachable after).
  { apply (reachable_step before after (reachable_start [open_job])).
    apply (step_apply willing "user-1" "job-1" before). intros []. }
  split; [exact H|]. split; [|reflexivity].
  exact (proj1 (applications_stay_sound after H)).
Defined.




(** When the route answers 201: the job is active, the applicant's latest
    resume has been analysed, and the applicant had no application for
    this job; exactly one application has been added, pending, with a
    history of one entry, and with the match score of the resume and the
    job, which is an integer between 0 and 100 when the level of the job
    names no member of [Object.prototype] (none of the six levels of the
    job schema does); and the job's counter of applications has gone up
    by one. *)
Theorem postApplication_created (world : services) (user jobId : string)
  (db : database) (job : JobDocument) :
  find (fun j => job_id j =? jobId) (jobs db) = Some job ->
  (Z.of_nat (List.length (ResumeModel.skills (posting job))) < 2 ^ 53)%Z ->
  ResumeRoutes.status (fst (postApplication world user jobId db)) = 201%nat ->
  exists resume a,
    job_status job = "active"
    /\ latestResume world user = Some resume
    /\ processingStatus resume = "completed"
    /\ (forall b, In b (applications db) ->
                  ~ (ApplicationModel.user b = user
                     /\ ApplicationModel.job b = jobId))
    /\ applications (snd (postApplication world user jobId db))
       = (applications db ++ [a])%list
    /\ ApplicationModel.user a = user
    /\ ApplicationModel.job a = jobId
    /\ ApplicationModel.resume a = resume_id resume
    /\ status a = "pending"
    /\ map changed_status (statusHistory a) = ["pending"]
    /\ matchScore a
       = ResumeModel.matchScore
           (ResumeModel.calculateJobMatch (document resume) (posting job))
    /\ (existsb (String.eqb (ResumeModel.level (posting job)))
                ResumeModel.Object_prototype_names = false ->
        exists q, (0 <= q <= 100)%Z /\ matchScore a = JSNumber.of_Z q)
    /\ jobs (snd (postApplication world user jobId db))
       = map (fun j => if job_id j =? job_id job
                       then incrementApplications job else j) (jobs db).
Proof.
  intros Hjob Hlen. unfold postApplication. rewrite Hjob.
  destruct (String.eqb_spec (job_status job) "active") as [Ha|Ha];
    cbn [negb]; [|discriminate].
  destruct (latestResume world user) as [resume|] eqn:Er; [|discriminate].
  destruct (String.eqb_spec (processingStatus resume) "completed")
    as [Hc|Hc]; cbn [negb]; [|discriminate].
  destruct (find _ (applications db)) as [existing|] eqn:Ee;
    [discriminate|].
  unfold save.
  match goal with
  | |- context [accepts world ?a] => destruct (accepts world a) eqn:Es
  end; [|discriminate].
  destruct (accepts_job world (incrementApplications job)) eqn:Eq;
    [|discriminate].
  intros _.
  exists resume, (created world user jobId resume job).
  split; [exact Ha|]. split; [reflexivity|]. split; [exact Hc|].
  split.
  { intros b Hb [Hu Hj]. apply (find_none _ _ Ee) in Hb.
    rewrite Hu, Hj, !String.eqb_refl in Hb. discriminate Hb. }
  repeat (split; [reflexivity|]).
  split; [|reflexivity].
  intro Hown.
  exact (matchScore_percent (document resume) (posting job) Hlen Hown).
Qed.

Lemma postApplication_created_witness :
  (find (fun j => job_id j =? "job-1") (jobs before) = Some open_job
   /\ (Z.of_nat (List.length (ResumeModel.skills (posting open_job)))
       < 2 ^ 53)%Z
   /\ ResumeRoutes.status (fst (postApplication willing "user-1" "job-1"
                                  before)) = 201%nat)
  /\ exists a,
       applications after = [a]
       /\ status a = "pending"
       /\ matchScore a = 60%float.
Proof.
  assert (H1 : find (fun j => job_id j =? "job-1") (jobs before)
               = Some open_job) by reflexivity.
  assert (H2 : (Z.of_nat (List.length (ResumeModel.skills (posting open_job)))
                < 2 ^ 53)%Z) by reflexivity.
  assert (H3 : ResumeRoutes.status
                 (fst (postApplication willing "user-1" "job-1" before))
               = 201%nat) by reflexivity.
  split; [repeat split; assumption|].
  destruct (postApplication_created willing "user-1" "job-1" before
              open_job H1 H2 H3)
    as [resume [a [_ [_ [_ [_ [Ha [_ [_ [_ [Hs _]]]]]]]]]]].
  exists a. split; [exact Ha|]. split; [exact Hs|].
  cbn [app before applications] in Ha.
  assert (E : applications after
              = [created willing "user-1" "job-1" analysed open_job])
    by reflexivity.
  unfold after in E. rewrite E in Ha. injection Ha as <-. reflexivity.
Defined.

End Applications.

(** ** A resume that mentions C++ *)

Section Lifecycle.

Import JSString ResumeRoutes ResumeLifecycle.
Open Scope string_scope.

(** One event in the life of a stored resume: a run of the background
    processing ends with an update that the database has taken (a run
    that rejects has stored nothing), the owner asks for a reprocessing,
    or the owner deletes the resume. *)
Inductive resume_step : ResumeDocument -> ResumeDocument -> Prop :=
| step_processed (scans : line_scans) (env : AIService.environment)
    (db : resume_store) (resume : ResumeDocument) (update : resume_update) :
    processResumeAsync scans env db (extractedText (record resume))
                       (originalName (record resume)) = Returns update ->
    resume_step resume (updated update resume)
| step_reprocess (accepts : ResumeDocument -> bool) (resume : ResumeDocument) :
    resume_step resume (snd (postReprocess accepts resume))
| step_delete (accepts : ResumeDocument -> bool) (disk : storage)
    (resume : ResumeDocument) (st : server_state) :
    resume_step resume (snd (fst (deleteResume accepts disk resume st))).

Inductive resume_steps : ResumeDocument -> ResumeDocument -> Prop :=
| steps_none (resume : ResumeDocument) : resume_steps resume resume
| steps_more (resume middle final : ResumeDocument) :
    resume_steps resume middle -> resume_step middle final ->
    resume_steps resume final.

Definition mentions_cpp (resume : ResumeDocument) : Prop :=
  includes (toLowerCase (extractedText (record resume))) "c++" = true.

Lemma processResumeAsync_cpp (scans : line_scans)
  (env : AIService.environment) (db : resume_store)
  (extractedText fileName : string) :
  includes (toLowerCase extractedText) "c++" = true ->
  processResumeAsync scans env db extractedText fileName
  = findByIdAndUpdate db
      (Failed "Invalid regular expression: /c++/gi: Nothing to repeat").
Proof.
  intro H. unfold processResumeAsync, extractBasicInfo.
  rewrite (extractSkills_throws _ H). reflexivity.
Qed.

Lemma findByIdAndUpdate_returns (db : resume_store)
  (update taken : resume_update) :
  findByIdAndUpdate db update = Returns taken -> taken = update.
Proof.
  unfold findByIdAndUpdate. destruct (db update); [discriminate|].
  intro H. injection H as <-. reflexivity.
Qed.

Lemma resume_step_keeps_text (resume resume' : ResumeDocument) :
  resume_step resume resume' ->
  extractedText (record resume') = extractedText (record resume).
Proof.
  intro H. destruct H as [scans env db resume update _ | accepts resume
                          | accepts disk resume st].
  - destruct update; reflexivity.
  - unfold postReprocess.
    destruct (processingStatus (record resume) =? "processing");
      [reflexivity|].
    match goal with |- context [accepts ?r] => destruct (accepts r) end;
      reflexivity.
  - unfold deleteResume.
    match goal with |- context [accepts ?r] => destruct (accepts r) end;
      reflexivity.
Qed.

Lemma resume_step_never_completes (resume resume' : ResumeDocument) :
  mentions_cpp resume ->
  processingStatus (record resume) <> "completed" ->
  resume_step resume resume' ->
  processingStatus (record resume') <> "completed".
Proof.
  intros Hcpp Hnot H.
  destruct H as [scans env db resume update Hp | accepts resume
                 | accepts disk resume st].
  - rewrite (processResumeAsync_cpp scans env db _ _ Hcpp) in Hp.
    apply findByIdAndUpdate_returns in Hp. subst update. discriminate.
  - unfold postReprocess.
    destruct (processingStatus (record resume) =? "processing");
      [exact Hnot|].
    match goal with |- context [accepts ?r] => destruct (accepts r) end;
      [discriminate | exact Hnot].
  - unfold deleteResume.
    match goal with |- context [accepts ?r] => destruct (accepts r) end;
      exact Hnot.
Qed.

(** A resume whose text mentions [c++] is never analysed. From its
    upload on, whatever the provider and the database answer and however
    often its owner asks for a reprocessing, its status is never [completed], no analysis
    is ever stored for it, and the progress shown for it stays below 100:
    each run of the background processing throws on the keyword [c++]
    before it reaches the analysis. *)
Theorem cpp_resume_never_completes (r : resume_record)
  (resume : ResumeDocument) :
  processingStatus r = "processing" ->
  includes (toLowerCase (extractedText r)) "c++" = true ->
  resume_steps (uploaded r) resume ->
  processingStatus (record resume) <> "completed"
  /\ stored resume = None
  /\ progress resume <> 100%nat.
Proof.
  intros Hp Hcpp H.
  assert (Hinv : extractedText (record resume) = extractedText r
                 /\ processingStatus (record resume) <> "completed"
                 /\ stored resume = None).
  { remember (uploaded r) as start eqn:Hs.
    induction H as [resume | resume middle final _ IH Hstep].
    - subst resume. cbn. rewrite Hp. repeat split. discriminate.
    - destruct (IH Hs) as [Ht [Hn Hst]].
      assert (Hm : mentions_cpp middle).
      { unfold mentions_cpp. rewrite Ht. exact Hcpp. }
      split; [|split].
      + rewrite (resume_step_keeps_text _ _ Hstep). exact Ht.
      + apply (resume_step_never_completes middle final Hm Hn Hstep).
      + destruct Hstep as [scans env db doc update Hpr | accepts doc
                           | accepts disk doc st].
        * rewrite (processResumeAsync_cpp scans env db _ _ Hm) in Hpr.
          apply findByIdAndUpdate_returns in Hpr. subst update. exact Hst.
        * unfold postReprocess.
          destruct (processingStatus (record doc) =? "processing");
            [exact Hst|].
          match goal with |- context [accepts ?x] => destruct (accepts x) end;
            exact Hst.
        * unfold deleteResume.
          match goal with |- context [accepts ?x] => destruct (accepts x) end;
            exact Hst. }
  destruct Hinv as [_ [Hn Hst]]. split; [exact Hn|]. split; [exact Hst|].
  unfold progress.
  destruct (String.eqb_spec (processingStatus (record resume)) "completed");
    [contradiction|].
  destruct (processingStatus (record resume) =? "processing"); discriminate.
Qed.

Definition cpp_record : resume_record :=
  {| fileName := "resume-3.pdf";
     originalName := "cv.pdf";
     filePath := "uploads/resumes/resume-3.pdf";
     fileSize := 20;
     mimeType := "application/pdf";
     extractedText := "Senior C++ developer";
     processingStatus := "processing" |}.

Definition cpp_failed : ResumeDocument :=
  updated (Failed "Invalid regular expression: /c++/gi: Nothing to repeat")
          (uploaded cpp_record).

Lemma cpp_resume_never_completes_witness :
  (processingStatus cpp_record = "processing"
   /\ includes (toLowerCase (extractedText cpp_record)) "c++" = true
   /\ resume_steps (uploaded cpp_record) cpp_failed)
  /\ processingStatus (record cpp_failed) = "failed"
  /\ progress cpp_failed <> 100%nat.
Proof.
  assert (H1 : processingStatus cpp_record = "processing") by reflexivity.
  assert (H2 : includes (toLowerCase (extractedText cpp_record)) "c++"
               = true) by reflexivity.
  assert (H3 : resume_steps (uploaded cpp_record) cpp_failed).
  { apply (steps_more _ (uploaded cpp_record) _ (steps_none _)).
    apply (step_processed no_scans offline ready (uploaded cpp_record)).
    unfold processResumeAsync, extractBasicInfo.
    cbn [uploaded record extractedText cpp_record].
    rewrite (extractSkills_throws "Senior C++ developer" H2).
    reflexivity. }
  split; [repeat split; assumption|]. split; [reflexivity|].
  exact (proj2 (proj2 (cpp_resume_never_completes cpp_record cpp_failed
                         H1 H2 H3))).
Defined.

End Lifecycle.

(** ** Normalising twice *)

Section Idempotence.

Import JSString ResumeProcessor.
Open Scope string_scope.

Lemma replace_crlf_fixed (s : string) : has CR s = false -> replace_crlf s = s.
Proof.
  induction s as [|c s IH]; [reflexivity|]. intro H.
  cbn [has] in H. apply orb_false_iff in H. destruct H as [Hc Hs].
  cbn [replace_crlf]. destruct s as [|d s]; [reflexivity|].
  rewrite Hc. cbn [andb]. rewrite (IH Hs). reflexivity.
Qed.

Lemma replace_cr_fixed (s : string) : has CR s = false -> replace_cr s = s.
Proof.
  induction s as [|c s IH]; [reflexivity|]. intro H.
  cbn [has] in H. apply orb_false_iff in H. destruct H as [Hc Hs].
  cbn [replace_cr]. rewrite Hc, (IH Hs). reflexivity.
Qed.

(** Without two neighbouring white-space units there is no run of three
    line feeds. *)
Lemma collapse_newlines_from_fixed (s : string) (run : nat) :
  adjacent_ws s = false -> (run <= 1)%nat ->
  (run = 1%nat -> starts_with_ws s = false) ->
  collapse_newlines_from run s = repeat_char LF run ++ s.
Proof.
  revert run. induction s as [|c s IH]; intros run Ha Hr Hs;
    cbn [collapse_newlines_from].
  - unfold newline_run. destruct run as [|[|run]]; try lia; reflexivity.
  - rewrite adjacent_ws_cons in Ha. apply orb_false_iff in Ha.
    destruct Ha as [Hcs Has].
    destruct (c =? LF)%char eqn:Ec.
    + apply isWhiteSpace_LF in Ec as Hw. apply Ascii.eqb_eq in Ec. subst c.
      destruct run as [|run].
      * rewrite (IH 1%nat Has (le_n 1)).
        -- reflexivity.
        -- intros _. rewrite Hw in Hcs. exact Hcs.
      * exfalso. assert (run = 0%nat) by lia. subst run.
        specialize (Hs eq_refl). cbn in Hs. rewrite Hs in Hw.
        discriminate Hw.
    + rewrite (IH 0%nat Has (Nat.le_0_l 1)) by (intro H; discriminate H).
      unfold newline_run. destruct run as [|[|run]]; try lia; reflexivity.
Qed.

Lemma collapse_whitespace_from_fixed (s run : string) :
  adjacent_ws s = false -> (String.length run <= 1)%nat ->
  (run <> "" -> starts_with_ws s = false) ->
  collapse_whitespace_from run s = run ++ s.
Proof.
  revert run. induction s as [|c s IH]; intros run Ha Hr Hs;
    cbn [collapse_whitespace_from].
  - unfold space_run. destruct run as [|a [|b run]]; cbn in Hr |- *;
      try lia; reflexivity.
  - rewrite adjacent_ws_cons in Ha. apply orb_false_iff in Ha.
    destruct Ha as [Hcs Has].
    destruct (isWhiteSpace c) eqn:Ec.
    + destruct run as [|a run].
      * cbn [append]. rewrite (IH (String c "") Has (le_n 1)); [reflexivity|].
        intros _. cbn [andb] in Hcs. exact Hcs.
      * exfalso. specialize (Hs ltac:(discriminate)). cbn in Hs. congruence.
    + rewrite (IH "" Has (Nat.le_0_l 1)) by (intro H; contradiction).
      unfold space_run. destruct run as [|a [|b run]]; cbn in Hr |- *;
        try lia; reflexivity.
Qed.

Lemma cleanText_fixed (s : string) :
  has CR s = false -> adjacent_ws s = false ->
  starts_with_ws s = false -> ends_with_ws s = false ->
  cleanText s = s.
Proof.
  intros Hcr Ha Hs He. unfold cleanText.
  rewrite (replace_crlf_fixed s Hcr), (replace_cr_fixed s Hcr).
  unfold collapse_newlines, collapse_whitespace.
  rewrite (collapse_newlines_from_fixed s 0 Ha (Nat.le_0_l 1))
    by (intro H; discriminate H).
  cbn [repeat_char append].
  rewrite (collapse_whitespace_from_fixed s "" Ha (Nat.le_0_l 1))
    by (intro H; contradiction).
  cbn [append]. apply trim_fixed; assumption.
Qed.

(** Normalising a normalised text changes nothing: the stored text of a
    resume is a fixed point of [cleanText]. *)
Theorem cleanText_idempotent (text : string) :
  cleanText (cleanText text) = cleanText text.
Proof.
  apply cleanText_fixed.
  - apply cleanText_no_CR.
  - apply cleanText_tidy.
  - unfold cleanText. apply trim_edges.
  - unfold cleanText. apply trim_edges.
Qed.

End Idempotence.

(** ** Status changes through the routes *)

Section StatusRoutes.

Import JSString ApplicationModel ApplicationRoutes.
Open Scope string_scope.

Lemma findById_replace (a a' : Application) (collection : list Application) :
  In a collection -> _id a' = _id a ->
  findById (_id a) (replace a' collection) = Some a'.
Proof.
  intros Hin Hid. unfold findById, replace.
  induction collection as [|b l IH]; [contradiction|].
  cbn [map find].
  destruct (String.eqb_spec (_id b) (_id a')) as [E|E].
  - rewrite Hid, String.eqb_refl. reflexivity.
  - destruct (String.eqb_spec (_id b) (_id a)) as [E'|E'];
      [congruence|].
    destruct Hin as [<-|Hin]; [congruence|]. apply IH, Hin.
Qed.

(** The entry [updateStatus] writes. *)
Definition recorded (newStatus : string) (at_time : Z)
  (changedBy notes : option string) : StatusChange :=
  {| changed_status := newStatus; changedAt := at_time;
     changedBy := changedBy; change_notes := notes |}.

(** A withdrawal goes through only for an application that is not
    withdrawn, offered or rejected. It stores the status [withdrawn] and
    one more history entry, by the applicant, with the fixed note. A
    request to withdraw an application whose status is [withdrawn], this
    one as long as it stays so, is refused and changes nothing, in every
    state of the database. (The status route can set the application back;
    a withdrawal is final only in that sense.) *)
Theorem patchWithdraw_recorded (world : services) (user : string)
  (application : Application) (db : database) :
  In application (applications db) ->
  isNew application = false ->
  ResumeRoutes.status (fst (patchWithdraw world user application db))
  = 200%nat ->
  ~ In (status application) ["withdrawn"; "offer"; "rejected"]
  /\ exists withdrawn,
       findById (_id application)
                (applications (snd (patchWithdraw world user application db)))
       = Some withdrawn
       /\ status withdrawn = "withdrawn"
       /\ statusHistory withdrawn
          = (statusHistory application
             ++ [recorded "withdrawn" (now world) (Some user)
                          (Some "Withdrawn by applicant")])%list
       /\ forall later who stored db',
            status stored = "withdrawn" ->
            patchWithdraw later who stored db'
            = (answer 400 "Application is already withdrawn", db').
Proof.
  intros Hin Hnew. unfold patchWithdraw at 1.
  destruct (String.eqb_spec (status application) "withdrawn") as [E1|E1];
    [discriminate|].
  cbn [existsb].
  destruct (String.eqb_spec (status application) "offer") as [E2|E2];
    [discriminate|].
  destruct (String.eqb_spec (status application) "rejected") as [E3|E3];
    [discriminate|].
  cbn [orb].
  destruct (updateStatus (accepts world) (now world) application
              "withdrawn" (Some user) (Some "Withdrawn by applicant"))
    as [a'| |] eqn:Eu; try discriminate.
  intros _. split.
  { cbn [In]. intros [H|[H|[H|[]]]]; congruence. }
  assert (Hp : patchWithdraw world user application db
               = (answer 200 "Application withdrawn successfully",
                  with_applications (replace a' (applications db)) db)).
  { unfold patchWithdraw.
    destruct (String.eqb_spec (status application) "withdrawn");
      [contradiction|].
    cbn [existsb].
    destruct (String.eqb_spec (status application) "offer");
      [contradiction|].
    destruct (String.eqb_spec (status application) "rejected");
      [contradiction|].
    cbn [orb]. rewrite Eu. reflexivity. }
  rewrite Hp. cbn [snd with_applications applications].
  apply updateStatus_returns in Eu; [|exact Hnew].
  exists a'. split; [|split; [|split]].
  - apply findById_replace; [exact Hin|]. rewrite Eu. reflexivity.
  - rewrite Eu. reflexivity.
  - rewrite Eu. reflexivity.
  - intros later who stored db' Hs. unfold patchWithdraw. rewrite Hs.
    reflexivity.
Qed.

Lemma patchWithdraw_recorded_witness :
  (In (created willing "user-1" "job-1" analysed open_job)
      (applications after)
   /\ ResumeRoutes.status
        (fst (patchWithdraw willing "user-1"
                (created willing "user-1" "job-1" analysed open_job) after))
      = 200%nat)
  /\ exists withdrawn,
       findById "application-1"
         (applications
            (snd (patchWithdraw willing "user-1"
                    (created willing "user-1" "job-1" analysed open_job)
                    after)))
       = Some withdrawn
       /\ map changed_status (statusHistory withdrawn)
          = ["pending"; "withdrawn"].
Proof.
  assert (H1 : In (created willing "user-1" "job-1" analysed open_job)
                  (applications after)) by (left; reflexivity).
  assert (H3 : ResumeRoutes.status
                 (fst (patchWithdraw willing "user-1"
                         (created willing "user-1" "job-1" analysed open_job)
                         after)) = 200%nat) by reflexivity.
  split; [split; assumption|].
  destruct (patchWithdraw_recorded willing "user-1"
              (created willing "user-1" "job-1" analysed open_job) after
              H1 eq_refl H3) as [_ [withdrawn [Hf [_ [Hh _]]]]].
  exists withdrawn. split; [exact Hf|]. rewrite Hh. reflexivity.
Defined.

(** The status route has no rule about transitions: for a stored
    application in any status, every one of the seven statuses is
    accepted, the current one and [pending] after [withdrawn] or
    [rejected] included; the application takes the status and its history
    one more entry, by the administrator. *)
Theorem patchStatus_any_transition (world : services) (admin id : string)
  (newStatus : string) (notes : option string) (application : Application)
  (db : database) :
  findById id (applications db) = Some application ->
  isNew application = false ->
  In newStatus statuses ->
  accepts world
    (with_statusHistory
       (statusHistory application
        ++ [recorded newStatus (now world) (Some admin) notes])%list
       (with_status newStatus application)) = true ->
  exists updated,
    patchStatus world admin id (Some newStatus) notes db
    = (answer 200 "Application status updated successfully",
       with_applications (replace updated (applications db)) db)
    /\ findById id (replace updated (applications db)) = Some updated
    /\ status updated = newStatus
    /\ statusHistory updated
       = (statusHistory application
          ++ [recorded newStatus (now world) (Some admin) notes])%list.
Proof.
  intros Hf Hnew Hin Hacc. unfold patchStatus.
  assert (Hne : newStatus <> "").
  { intros ->. cbn in Hin. repeat (destruct Hin as [Hin|Hin];
                                     [discriminate Hin|]). exact Hin. }
  destruct newStatus as [|c rest]; [contradiction|].
  assert (Hv : existsb (String.eqb (String c rest)) statuses = true).
  { apply existsb_exists. exists (String c rest). split; [exact Hin|].
    apply String.eqb_refl. }
  rewrite Hv. cbn [negb]. rewrite Hf.
  assert (Hu : updateStatus (accepts world) (now world) application
                 (String c rest) (Some admin) notes
               = Returns
                   (saved
                      (with_statusHistory
                         (statusHistory application
                          ++ [recorded (String c rest) (now world)
                                       (Some admin) notes])%list
                         (with_status (String c rest) application)))).
  { unfold updateStatus, save.
    change (statusHistory (with_status (String c rest) application))
      with (statusHistory application).
    fold (recorded (String c rest) (now world) (Some admin) notes).
    rewrite Hacc. unfold pre_save.
    cbn [isNew with_statusHistory with_status]. rewrite Hnew.
    reflexivity. }
  rewrite Hu.
  eexists. split; [reflexivity|].
  apply findById_In in Hf. destruct Hf as [Hi Hid].
  split; [|split].
  - rewrite <- Hid. apply findById_replace; [exact Hi | reflexivity].
  - reflexivity.
  - reflexivity.
Qed.

Definition withdrawn_by_applicant : database :=
  snd (patchWithdraw willing "user-1"
         (created willing "user-1" "job-1" analysed open_job) after).

Lemma patchStatus_any_transition_witness :
  exists application updated,
    findById "application-1" (applications withdrawn_by_applicant)
    = Some application
    /\ status application = "withdrawn"
    /\ findById "application-1"
         (applications
            (snd (patchStatus willing "admin-1" "application-1"
                    (Some "pending") None withdrawn_by_applicant)))
       = Some updated
    /\ status updated = "pending".
Proof.
  eexists. 
  destruct (patchStatus_any_transition willing "admin-1" "application-1"
              "pending" None _ withdrawn_by_applicant eq_refl eq_refl
              (or_introl eq_refl) eq_refl)
    as [updated [Hp [Hf [Hs _]]]].
  exists updated. split; [reflexivity|]. split; [reflexivity|].
  rewrite Hp. split; [exact Hf | exact Hs].
Defined.

End StatusRoutes.

(** ** The experience the matcher counts *)

Section StoredExperience.

Import JSString JSValue ResumeRoutes LineScans.
Open Scope string_scope.

(** The stored experience, which [calculateJobMatch] later counts as
    years of experience: whenever some line of the text holds a title
    word (and the text does not mention [c++]), the update that the
    background processing hands to the database, and that is stored when
    the database takes it, holds the heuristic entries, one for each such
    line, and what the analysis service says about experience is dropped.
    (Should the database reject that update, the failure is recorded in
    its place and no analysis is stored.) *)
Theorem processResumeAsync_stores_titled_lines (scans : pattern_scans)
  (env : AIService.environment) (db : resume_store)
  (extractedText fileName : string) :
  includes (toLowerCase extractedText) "c++" = false ->
  filter titled (split_lines extractedText) <> [] ->
  exists analysis scoring entries,
    processResumeAsync (line_scans_of scans) env db extractedText fileName
    = try_catch
        (findByIdAndUpdate db (Completed analysis scoring))
        (fun error => findByIdAndUpdate db (Failed (error_message error)))
    /\ (db (Completed analysis scoring) = None ->
        processResumeAsync (line_scans_of scans) env db extractedText
                           fileName
        = Returns (Completed analysis scoring))
    /\ analysis_experience analysis = Heuristic entries
    /\ map title entries
       = map trim (filter titled (split_lines extractedText))
    /\ List.length entries
       = List.length (filter titled (split_lines extractedText)).
Proof.
  intros Hcpp Hsome.
  destruct (extractSkills_returns _ Hcpp) as [found Hf].
  destruct (analyzeResume_returns env extractedText fileName) as [a Ha].
  destruct (experience_loop_entries scans (split_lines extractedText)
              (split_lines extractedText) 0 []) as [Ht _].
  fold (LineScans.extractExperience scans extractedText) in Ht.
  cbn [map app] in Ht.
  assert (Hlen : List.length (LineScans.extractExperience scans extractedText)
                 = List.length (filter titled (split_lines extractedText))).
  { rewrite <- (length_map title), Ht, length_map. reflexivity. }
  unfold processResumeAsync, extractBasicInfo. rewrite Hf. cbn [bind].
  rewrite Ha. cbn [bind]. unfold assemble.
  eexists. eexists. exists (LineScans.extractExperience scans extractedText).
  split; [reflexivity|].
  split.
  { intro Hdb. unfold findByIdAndUpdate. rewrite Hdb. reflexivity. }
  split; [|split; [exact Ht | exact Hlen]].
  cbn [analysis_experience experience].
  change (ResumeRoutes.extractExperience (line_scans_of scans) extractedText)
    with (LineScans.extractExperience scans extractedText).
  unfold choose.
  destruct (LineScans.extractExperience scans extractedText) as [|e l] eqn:E;
    [|reflexivity].
  exfalso. apply Hsome. apply length_zero_iff_nil. rewrite <- Hlen.
  reflexivity.
Qed.

Definition no_patterns : pattern_scans :=
  {| extractDegree := fun line => trim line;
     extractDate := fun _ => None;
     extractDuration := fun _ _ _ => None |}.

Lemma processResumeAsync_stores_titled_lines_witness :
  (includes (toLowerCase "Team leadership") "c++" = false
   /\ filter titled (split_lines "Team leadership") <> [])
  /\ exists analysis scoring entries,
       processResumeAsync (line_scans_of no_patterns) offline ready
         "Team leadership" "cv.pdf"
       = Returns (Completed analysis scoring)
       /\ analysis_experience analysis = Heuristic entries
       /\ map title entries = ["Team leadership"].
Proof.
  assert (H1 : includes (toLowerCase "Team leadership") "c++" = false)
    by reflexivity.
  assert (H2 : filter titled (split_lines "Team leadership") <> [])
    by (vm_compute; discriminate).
  split; [split; assumption|].
  destruct (processResumeAsync_stores_titled_lines no_patterns offline ready
              "Team leadership" "cv.pdf" H1 H2)
    as [analysis [scoring [entries [_ [Hp [Ha [Ht _]]]]]]].
  exists analysis, scoring, entries.
  split; [exact (Hp eq_refl)|]. split; [exact Ha|]. rewrite Ht. reflexivity.
Defined.

End StoredExperience.
